(** * PRRTE: DSS buffers and typed values, and the TM daemon launcher

    A shallow embedding of
      - src/dss/dss_load_unload.c   (prrte_dss_unload, prrte_dss_load,
        prrte_dss_copy_payload, prrte_value_load, prrte_value_unload,
        prrte_value_xfer), and
      - src/mca/plm/tm/plm_tm_module.c   (launch_daemons, poll_spawns,
        plm_tm_connect, plm_tm_launch_job, plm_tm_finalize), and
      - src/mca/prteif/bsdx_ipv6/if_bsdx_ipv6.c   (if_bsdx_ipv6_open),
    followed by the properties established about them.

    Conventions.  C objects reached through pointers live in explicit
    stores, so that aliasing and ownership are visible: raw memory is a
    finite map from block identifiers to block contents, and a pointer
    is [NULL] or a block with a byte offset.  A function returns [None]
    where the C program has no defined behaviour (reading outside a
    block, freeing something that is not a live block, dereferencing
    [NULL]).  Integer conversions are written out as wrap-arounds.
    Data model: LP64, little-endian. *)

From stdpp Require Import base option list gmap strings.
From Stdlib Require Import ZArith Lia.
From Stdlib.Strings Require Import Byte.

Local Open Scope Z_scope.

(* ===================================================================== *)
(** ** Memory: blocks, pointers, the libc allocator and byte copies      *)
(* ===================================================================== *)

Module Mem.

Definition block := positive.

Inductive ptr :=
| NULL
| Ptr (b : block) (ofs : Z).

Arguments Ptr b%_positive ofs%_Z.

#[global] Instance ptr_eq_dec : EqDecision ptr.
Proof. solve_decision. Defined.

(** A live block is an array of bytes, or one [prrte_byte_object_t]
    structure (its [size] and [bytes] members): that structure holds a
    pointer, which has no byte encoding in this model. *)
Inductive content :=
| Bytes (bs : list byte)
| BoCell (size : Z) (bytes : ptr).

Abbreviation heap := (gmap block content).

(** [p + n] and [p - q] on [char *]. *)
Definition ptr_add (p : ptr) (n : Z) : ptr :=
  match p with
  | NULL => NULL
  | Ptr b ofs => Ptr b (ofs + n)
  end.

(** Two pointers into one block differ by their offsets; two null
    pointers differ by 0 (what every supported compiler computes);
    anything else is undefined. *)
Definition ptr_diff (p q : ptr) : option Z :=
  match p, q with
  | NULL, NULL => Some 0
  | Ptr b1 o1, Ptr b2 o2 => if decide (b1 = b2) then Some (o1 - o2) else None
  | _, _ => None
  end.

(** [malloc]: a block that is not live yet, of [n] bytes.  The heap is
    unbounded: the allocator never refuses, so the null results that the
    sources test for (or fail to test for) do not arise.  The fresh
    bytes are indeterminate in C; every caller below overwrites them,
    and they are zero here. *)
Definition malloc (n : Z) (h : heap) : ptr * heap :=
  let b := fresh (dom h) in
  (Ptr b 0, <[b := Bytes (replicate (Z.to_nat n) x00)]> h).

(** [free]: [free(NULL)] does nothing; otherwise the argument must be
    the start of a live block. *)
Definition free (p : ptr) (h : heap) : option heap :=
  match p with
  | NULL => Some h
  | Ptr b ofs =>
      if decide (ofs = 0)
      then match h !! b with
           | Some _ => Some (delete b h)
           | None => None
           end
      else None
  end.

Definition load_bytes (p : ptr) (n : Z) (h : heap) : option (list byte) :=
  match p with
  | NULL => None
  | Ptr b ofs =>
      match h !! b with
      | Some (Bytes bs) =>
          if decide (0 ≤ ofs ∧ 0 ≤ n ∧ ofs + n ≤ Z.of_nat (length bs))
          then Some (take (Z.to_nat n) (drop (Z.to_nat ofs) bs))
          else None
      | _ => None
      end
  end.

Definition store_bytes (p : ptr) (new : list byte) (h : heap) : option heap :=
  match p with
  | NULL => None
  | Ptr b ofs =>
      match h !! b with
      | Some (Bytes bs) =>
          if decide (0 ≤ ofs ∧ ofs + Z.of_nat (length new) ≤ Z.of_nat (length bs))
          then Some (<[b := Bytes (take (Z.to_nat ofs) bs ++ new ++
                                   drop (Z.to_nat ofs + length new) bs)]> h)
          else None
      | _ => None
      end
  end.

Definition memcpy (dst src : ptr) (n : Z) (h : heap) : option heap :=
  bs ← load_bytes src n h;
  store_bytes dst bs h.

(** [realloc] as allocate, copy, release: the region always moves. *)
Definition realloc (p : ptr) (n : Z) (h : heap) : option (ptr * heap) :=
  match p with
  | NULL => Some (malloc n h)
  | Ptr b ofs =>
      match h !! b with
      | Some (Bytes bs) =>
          if decide (ofs = 0)
          then let b' := fresh (dom h) in
               let keep := take (Z.to_nat n) bs in
               Some (Ptr b' 0,
                     <[b' := Bytes (keep ++ replicate (Z.to_nat n - length keep) x00)]>
                       (delete b h))
          else None
      | _ => None
      end
  end.

(** C strings: the bytes from a pointer up to the first NUL of its block. *)
Fixpoint until_nul (bs : list byte) : option (list byte) :=
  match bs with
  | [] => None
  | c :: rest =>
      if Byte.eqb c x00 then Some []
      else match until_nul rest with
           | Some s => Some (c :: s)
           | None => None
           end
  end.

Definition read_cstring (p : ptr) (h : heap) : option (list byte) :=
  match p with
  | NULL => None
  | Ptr b ofs =>
      match h !! b with
      | Some (Bytes bs) =>
          if decide (0 ≤ ofs) then until_nul (drop (Z.to_nat ofs) bs) else None
      | _ => None
      end
  end.

Definition strdup (p : ptr) (h : heap) : option (ptr * heap) :=
  s ← read_cstring p h;
  let '(q, h1) := malloc (Z.of_nat (length s) + 1) h in
  h2 ← store_bytes q (s ++ [x00]) h1;
  Some (q, h2).

(** Integer objects: little-endian, two's complement. *)
Definition byte_to_Z (c : byte) : Z := Z.of_N (Byte.to_N c).

Definition byte_of_Z (z : Z) : byte :=
  match Byte.of_N (Z.to_N (z mod 256)) with
  | Some c => c
  | None => x00
  end.

Fixpoint decode_le (bs : list byte) : Z :=
  match bs with
  | [] => 0
  | c :: rest => byte_to_Z c + 256 * decode_le rest
  end.

Fixpoint encode_le (w : nat) (z : Z) : list byte :=
  match w with
  | O => []
  | S w' => byte_of_Z z :: encode_le w' (z / 256)
  end.

Definition to_signed (w : nat) (u : Z) : Z :=
  if decide (u < 2 ^ (8 * Z.of_nat w - 1)) then u else u - 2 ^ (8 * Z.of_nat w).

(** [*(T * )p] for an integer type [T] of [w] bytes. *)
Definition read_int (signed : bool) (w : nat) (p : ptr) (h : heap) : option Z :=
  bs ← load_bytes p (Z.of_nat w) h;
  Some (if signed then to_signed w (decode_le bs) else decode_le bs).

Definition INT32_MAX : Z := 2 ^ 31 - 1.

(** Conversions between the integer types the sources mix. *)
Definition to_int32 (z : Z) : Z := (z + 2 ^ 31) mod 2 ^ 32 - 2 ^ 31.
Definition to_size_t (z : Z) : Z := z mod 2 ^ 64.

End Mem.



(* ===================================================================== *)
(** ** Status codes                                                       *)
(* ===================================================================== *)

Module Status.

(** The status codes dss_load_unload.c returns (the header that gives
    them their values is not part of the sources; only that they are
    distinct matters here). *)
Inductive prrte_status :=
| PRRTE_SUCCESS
| PRRTE_ERR_BAD_PARAM
| PRRTE_ERR_BUFFER
| PRRTE_ERR_OUT_OF_RESOURCE
| PRRTE_ERR_TYPE_MISMATCH
| PRRTE_ERR_NOT_SUPPORTED.

#[global] Instance prrte_status_eq_dec : EqDecision prrte_status.
Proof. solve_decision. Defined.

End Status.

(* ===================================================================== *)
(** ** dss_load_unload.c, first half: the buffer operations               *)
(* ===================================================================== *)

Module Buffer.
Import Mem Status.

(** Modelled from the spec: the [prrte_buffer_t] structure (its
    declaration, in dss_types.h, is not part of the sources).  The spec
    lists a declared payload type, the owned base region, the pack and
    unpack cursors, the capacity and the used length; the member names
    are the ones dss_load_unload.c uses.  The type tag is a small
    integer and the two counts are [size_t]. *)
Record prrte_buffer_t := {
  type : Z;
  base_ptr : ptr;
  pack_ptr : ptr;
  unpack_ptr : ptr;
  bytes_allocated : Z;
  bytes_used : Z
}.

#[global] Instance prrte_buffer_t_eq_dec : EqDecision prrte_buffer_t.
Proof. solve_decision. Defined.

(** Buffers are C objects passed by address: [dest] and [src] of one
    call may be the same buffer.  A machine state is the store of the
    buffer objects together with the raw heap. *)
Definition addr := positive.

Record mem := {
  bufs : gmap addr prrte_buffer_t;
  blocks : heap
}.

(** Modelled from the spec: the type a freshly constructed buffer
    declares (the process-wide default of the DSS framework). *)
Definition default_buf_type : Z := 0.

(** Modelled from the spec: PRRTE_CONSTRUCT(buffer, prrte_buffer_t),
    the constructor of the buffer class (not part of the sources): a
    fresh buffer is empty, it has no backing region, no cursors and zero
    counts. *)
Definition prrte_buffer_construct : prrte_buffer_t :=
  {| type := default_buf_type;
     base_ptr := NULL; pack_ptr := NULL; unpack_ptr := NULL;
     bytes_allocated := 0; bytes_used := 0 |}.

(** Modelled from the spec: PRRTE_DESTRUCT(buffer), the destructor of
    the buffer class (not part of the sources): the buffer owns its
    backing region and releases it, if it has one. *)
Definition prrte_buffer_destruct (b : prrte_buffer_t) (h : heap) : option heap :=
  if decide (base_ptr b = NULL) then Some h else free (base_ptr b) h.

(** [prrte_dss_unload(buffer, payload, bytes_used)].  The two out
    parameters are the caller's variables: [payload] is [None] for a
    null [void **] and otherwise the slot's current value; the
    [int32_t] slot is written through unchecked and is taken to exist.
    The result carries the status, both slots and the new state. *)
Definition prrte_dss_unload (buffer : option addr) (payload : option ptr)
    (bytes_used_slot : Z) (m : mem) : option (prrte_status * option ptr * Z * mem) :=
  match buffer with
  | None => Some (PRRTE_ERR_BAD_PARAM, payload, bytes_used_slot, m)
  | Some a =>
    match payload with
    | None => Some (PRRTE_ERR_BAD_PARAM, payload, bytes_used_slot, m)
    | Some _ =>
      b ← bufs m !! a;
      (* anything in the buffer - if not, nothing to do *)
      if decide (base_ptr b = NULL ∨ bytes_used b = 0)
      then Some (PRRTE_SUCCESS, Some NULL, 0, m)
      else
      (* if nothing has been unpacked, pass the entire region back *)
      if decide (unpack_ptr b = base_ptr b)
      then
        let payload' := base_ptr b in
        let bytes_used' := to_int32 (bytes_used b) in
        let b1 := {| type := type b; base_ptr := NULL; pack_ptr := pack_ptr b;
                     unpack_ptr := unpack_ptr b;
                     bytes_allocated := bytes_allocated b; bytes_used := 0 |} in
        (* cleanup: *)
        h' ← prrte_buffer_destruct b1 (blocks m);
        Some (PRRTE_SUCCESS, Some payload', bytes_used',
              {| bufs := <[a := prrte_buffer_construct]> (bufs m); blocks := h' |})
      else
        d ← ptr_diff (unpack_ptr b) (base_ptr b);
        let bytes_used' := to_int32 (to_size_t (bytes_used b - d)) in
        '(payload', h1) ←
          (if decide (bytes_used' = 0) then Some (NULL, blocks m)
           else
             let '(p, h0) := malloc (to_size_t bytes_used') (blocks m) in
             h1 ← memcpy p (unpack_ptr b) (to_size_t bytes_used') h0;
             Some (p, h1));
        (* cleanup: *)
        h' ← prrte_buffer_destruct b h1;
        Some (PRRTE_SUCCESS, Some payload', bytes_used',
              {| bufs := <[a := prrte_buffer_construct]> (bufs m); blocks := h' |})
    end
  end.

(** [prrte_dss_load(buffer, payload, bytes_used)]; [bytes_used] is an
    [int32_t]. *)
Definition prrte_dss_load (buffer : option addr) (payload : ptr) (nbytes : Z)
    (m : mem) : option (prrte_status * mem) :=
  match buffer with
  | None => Some (PRRTE_ERR_BAD_PARAM, m)
  | Some a =>
    b ← bufs m !! a;
    (* check if buffer already has payload - free it if so *)
    h' ← prrte_buffer_destruct b (blocks m);
    let b0 := prrte_buffer_construct in
    if decide (payload = NULL)
    then Some (PRRTE_SUCCESS, {| bufs := <[a := b0]> (bufs m); blocks := h' |})
    else
      let b1 := {| type := type b0;
                   base_ptr := payload;
                   pack_ptr := ptr_add payload nbytes;
                   unpack_ptr := payload;
                   bytes_allocated := to_size_t nbytes;
                   bytes_used := to_size_t nbytes |} in
      Some (PRRTE_SUCCESS, {| bufs := <[a := b1]> (bufs m); blocks := h' |})
  end.

(** Modelled from the spec: [prrte_dss_buffer_extend(buffer, bytes_to_add)]
    (dss_internal_functions.c is not part of the sources).  The spec has
    copy_payload work "by growing dest's backing region and appending":
    the backing region is reallocated with [bytes_to_add] more bytes of
    capacity, the cursors keep their offsets, and the result is the pack
    cursor, where the new bytes go.  The result is [NULL], and nothing
    changes, when the allocator gives nothing. *)
Definition prrte_dss_buffer_extend (a : addr) (bytes_to_add : Z) (m : mem)
    : option (ptr * mem) :=
  b ← bufs m !! a;
  let to_alloc := to_size_t (bytes_allocated b + bytes_to_add) in
  pack_offset ← ptr_diff (pack_ptr b) (base_ptr b);
  unpack_offset ← ptr_diff (unpack_ptr b) (base_ptr b);
  '(p, h1) ← realloc (base_ptr b) to_alloc (blocks m);
  if decide (p = NULL) then Some (NULL, m)
  else
    let b' := {| type := type b;
                 base_ptr := p;
                 pack_ptr := ptr_add p pack_offset;
                 unpack_ptr := ptr_add p unpack_offset;
                 bytes_allocated := to_alloc;
                 bytes_used := bytes_used b |} in
    Some (pack_ptr b', {| bufs := <[a := b']> (bufs m); blocks := h1 |}).

(** [prrte_dss_copy_payload(dest, src)].  Every member access goes
    through the store, as in C, so that [dest == src] behaves as it
    does there. *)
Definition prrte_dss_copy_payload (dest src : option addr) (m : mem)
    : option (prrte_status * mem) :=
  match dest, src with
  | Some d, Some s =>
    db ← bufs m !! d;
    sb ← bufs m !! s;
    if decide (bytes_used db ≠ 0 ∧ type db ≠ type sb)
    then Some (PRRTE_ERR_BUFFER, m)
    else
      (* dest->type = src->type *)
      let db1 := {| type := type sb; base_ptr := base_ptr db; pack_ptr := pack_ptr db;
                    unpack_ptr := unpack_ptr db;
                    bytes_allocated := bytes_allocated db;
                    bytes_used := bytes_used db |} in
      let m1 := {| bufs := <[d := db1]> (bufs m); blocks := blocks m |} in
      sb1 ← bufs m1 !! s;
      off ← ptr_diff (unpack_ptr sb1) (base_ptr sb1);
      let bytes_left := to_int32 (to_size_t (bytes_used sb1 - off)) in
      (* if nothing is left, then nothing to do *)
      if decide (bytes_left = 0) then Some (PRRTE_SUCCESS, m1)
      else
        '(dst_ptr, m2) ← prrte_dss_buffer_extend d (to_size_t bytes_left) m1;
        if decide (dst_ptr = NULL) then Some (PRRTE_ERR_OUT_OF_RESOURCE, m2)
        else
          sb2 ← bufs m2 !! s;
          h3 ← memcpy dst_ptr (unpack_ptr sb2) (to_size_t bytes_left) (blocks m2);
          db2 ← bufs m2 !! d;
          let db3 := {| type := type db2; base_ptr := base_ptr db2;
                        pack_ptr := ptr_add (pack_ptr db2) bytes_left;
                        unpack_ptr := unpack_ptr db2;
                        bytes_allocated := bytes_allocated db2;
                        bytes_used := to_size_t (bytes_used db2 + bytes_left) |} in
          Some (PRRTE_SUCCESS, {| bufs := <[d := db3]> (bufs m2); blocks := h3 |})
  | _, _ => Some (PRRTE_ERR_BAD_PARAM, m)
  end.

(** The bytes a buffer holds, and the part of them not yet unpacked. *)
Definition packed_bytes (m : mem) (b : prrte_buffer_t) : option (list byte) :=
  if decide (base_ptr b = NULL) then Some []
  else load_bytes (base_ptr b) (bytes_used b) (blocks m).

Definition unread_bytes (m : mem) (b : prrte_buffer_t) : option (list byte) :=
  if decide (base_ptr b = NULL) then Some []
  else
    off ← ptr_diff (unpack_ptr b) (base_ptr b);
    load_bytes (unpack_ptr b) (bytes_used b - off) (blocks m).

(** The data-model invariant of a buffer in a given heap: an empty
    buffer has nothing; otherwise the base is the start of a live byte
    block that covers the capacity, the pack cursor is at the used
    length, the unpack cursor is between base and pack cursor, and the
    counts fit the [int32_t] lengths of the interface. *)
Definition buffer_ok (h : heap) (b : prrte_buffer_t) : bool :=
  match base_ptr b with
  | NULL =>
      bool_decide (pack_ptr b = NULL ∧ unpack_ptr b = NULL ∧
                   bytes_allocated b = 0 ∧ bytes_used b = 0)
  | Ptr B ofs =>
      match h !! B, unpack_ptr b with
      | Some (Bytes bs), Ptr B' u =>
          bool_decide (ofs = 0 ∧ B' = B ∧ pack_ptr b = Ptr B (bytes_used b) ∧
                       0 ≤ u ≤ bytes_used b ∧
                       bytes_used b ≤ bytes_allocated b ∧
                       bytes_allocated b ≤ Z.of_nat (length bs) ∧
                       bytes_allocated b ≤ INT32_MAX)
      | _, _ => false
      end
  end.

End Buffer.

(* ===================================================================== *)
(** ** dss_load_unload.c, second half: typed values                       *)
(* ===================================================================== *)

Module Value.
Import Mem Status.

(** The type tags dss_load_unload.c names, and [PRRTE_OTHER] for every
    other value of [prrte_data_type_t] (the header that numbers the tags
    is not part of the sources). *)
Inductive prrte_data_type_t :=
| PRRTE_BOOL | PRRTE_BYTE | PRRTE_STRING | PRRTE_SIZE | PRRTE_PID
| PRRTE_INT | PRRTE_INT8 | PRRTE_INT16 | PRRTE_INT32 | PRRTE_INT64
| PRRTE_UINT | PRRTE_UINT8 | PRRTE_UINT16 | PRRTE_UINT32 | PRRTE_UINT64
| PRRTE_BYTE_OBJECT | PRRTE_FLOAT | PRRTE_TIMEVAL | PRRTE_PTR
| PRRTE_VPID
| PRRTE_OTHER (tag : Z).

#[global] Instance prrte_data_type_t_eq_dec : EqDecision prrte_data_type_t.
Proof. solve_decision. Defined.

(** The integer-like members of the [data] union that the three
    functions touch ([data_name_vpid] is [data.name.vpid]; [data_fval],
    a [float], is carried as its 32-bit pattern: it is only assigned and
    copied). *)
Inductive member :=
| data_flag | data_byte | data_size | data_pid
| data_integer | data_int8 | data_int16 | data_int32 | data_int64
| data_uint | data_uint8 | data_uint16 | data_uint32 | data_uint64
| data_fval | data_name_vpid.

#[global] Instance member_eq_dec : EqDecision member.
Proof. solve_decision. Defined.

(** [sizeof] and signedness of each member (LP64). *)
Definition width (f : member) : nat :=
  match f with
  | data_flag | data_byte | data_int8 | data_uint8 => 1
  | data_int16 | data_uint16 => 2
  | data_pid | data_integer | data_int32 | data_uint | data_uint32
  | data_fval | data_name_vpid => 4
  | data_size | data_int64 | data_uint64 => 8
  end%nat.

Definition signed (f : member) : bool :=
  match f with
  | data_pid | data_integer | data_int8 | data_int16 | data_int32 | data_int64 => true
  | _ => false
  end.

(** Modelled from the spec: the [data] union of [prrte_value_t] (its
    declaration, in dss_types.h, is not part of the sources), a "tagged
    payload" holding one primitive kind at a time.  The union is kept as
    its last written member, or as all zero bytes after [memset].  A
    read of the member that was written gives what was written; every
    member of a zeroed union reads as zero or null; any other read
    depends on the layout of the union and has no value here. *)
Inductive payload :=
| Zeroed
| Scalar (f : member) (v : Z)
| StringP (string : ptr)
| Bo (size : Z) (bytes : ptr)
| Tv (tv_sec tv_usec : Z)
| Pointer (p : ptr).

Definition get_scalar (f : member) (d : payload) : option Z :=
  match d with
  | Zeroed => Some 0
  | Scalar g v => if decide (f = g) then Some v else None
  | _ => None
  end.

Definition get_string (d : payload) : option ptr :=
  match d with
  | Zeroed => Some NULL
  | StringP p => Some p
  | _ => None
  end.

Definition get_bo (d : payload) : option (Z * ptr) :=
  match d with
  | Zeroed => Some (0, NULL)
  | Bo size bytes => Some (size, bytes)
  | _ => None
  end.

Definition get_tv (d : payload) : option (Z * Z) :=
  match d with
  | Zeroed => Some (0, 0)
  | Tv sec usec => Some (sec, usec)
  | _ => None
  end.

Definition get_ptr (d : payload) : option ptr :=
  match d with
  | Zeroed => Some NULL
  | Pointer p => Some p
  | _ => None
  end.

(** Modelled from the spec: [prrte_value_t] (declared in dss_types.h):
    an optional key, the type tag and the payload. *)
Record prrte_value_t := {
  key : ptr;
  type : prrte_data_type_t;
  data : payload
}.

Definition set_type (kv : prrte_value_t) (t : prrte_data_type_t) : prrte_value_t :=
  {| key := key kv; type := t; data := data kv |}.

Definition set_data (kv : prrte_value_t) (d : payload) : prrte_value_t :=
  {| key := key kv; type := type kv; data := d |}.

Definition set_key (kv : prrte_value_t) (k : ptr) : prrte_value_t :=
  {| key := k; type := type kv; data := data kv |}.

(** A [prrte_byte_object_t] in memory: [boptr->size], [boptr->bytes]. *)
Definition read_bo (boptr : ptr) (h : heap) : option (Z * ptr) :=
  match boptr with
  | Ptr B 0 =>
      match h !! B with
      | Some (BoCell size bytes) => Some (size, bytes)
      | _ => None
      end
  | _ => None
  end.

Definition write_bo (boptr : ptr) (size : Z) (bytes : ptr) (h : heap) : option heap :=
  match boptr with
  | Ptr B 0 =>
      match h !! B with
      | Some (BoCell _ _) => Some (<[B := BoCell size bytes]> h)
      | _ => None
      end
  | _ => None
  end.

(** [malloc(sizeof(prrte_byte_object_t))]. *)
Definition malloc_bo (h : heap) : ptr * heap :=
  let B := fresh (dom h) in (Ptr B 0, <[B := BoCell 0 NULL]> h).

(** [kv->data.f = *(T * )data] *)
Definition load_scalar (f : member) (kv : prrte_value_t) (data_arg : ptr) (h : heap)
    : option (prrte_status * prrte_value_t * heap) :=
  v ← read_int (signed f) (width f) data_arg h;
  Some (PRRTE_SUCCESS, set_data kv (Scalar f v), h).

(** The heap once the string or the bytes that the union holds have
    been freed: [if (NULL != p) free(p)]. *)
Definition free_if_set (p : ptr) (h : heap) : option heap :=
  if decide (p = NULL) then Some h else free p h.

(** The block shared by the three byte-object cases: with [size] and
    [bytes] read from the source object,
      if (NULL != bytes && 0 < size) { q = malloc(size); memcpy(q, bytes, size); }
      else { q = NULL; size = 0; }
    It gives the size and the bytes pointer that the destination gets. *)
Definition dup_bo (size : Z) (bytes : ptr) (h : heap) : option (Z * ptr * heap) :=
  if decide (bytes ≠ NULL ∧ 0 < size)
  then
    let '(q, h1) := malloc (to_size_t size) h in
    h2 ← memcpy q bytes (to_size_t size) h1;
    Some (size, q, h2)
  else Some (0, NULL, h).

(** [prrte_value_load(kv, data, type)].  PRRTE_ERROR_LOG, here and in
    the two functions below, only reports the status that is returned
    next and is left out. *)
Definition prrte_value_load (kv : prrte_value_t) (data_arg : ptr)
    (ty : prrte_data_type_t) (h : heap)
    : option (prrte_status * prrte_value_t * heap) :=
  let kv := set_type kv ty in
  if decide (data_arg = NULL ∧ ty ≠ PRRTE_STRING ∧ ty ≠ PRRTE_BYTE_OBJECT)
  then (* just set the fields to zero *)
    Some (PRRTE_SUCCESS, set_data kv Zeroed, h)
  else
  match ty with
  | PRRTE_BOOL => load_scalar data_flag kv data_arg h
  | PRRTE_BYTE => load_scalar data_byte kv data_arg h
  | PRRTE_STRING =>
      old ← get_string (data kv);
      h1 ← free_if_set old h;
      if decide (data_arg ≠ NULL)
      then '(p, h2) ← strdup data_arg h1;
           Some (PRRTE_SUCCESS, set_data kv (StringP p), h2)
      else Some (PRRTE_SUCCESS, set_data kv (StringP NULL), h1)
  | PRRTE_SIZE => load_scalar data_size kv data_arg h
  | PRRTE_PID => load_scalar data_pid kv data_arg h
  | PRRTE_INT => load_scalar data_integer kv data_arg h
  | PRRTE_INT8 => load_scalar data_int8 kv data_arg h
  | PRRTE_INT16 => load_scalar data_int16 kv data_arg h
  | PRRTE_INT32 => load_scalar data_int32 kv data_arg h
  | PRRTE_INT64 => load_scalar data_int64 kv data_arg h
  | PRRTE_UINT => load_scalar data_uint kv data_arg h
  | PRRTE_UINT8 => load_scalar data_uint8 kv data_arg h
  | PRRTE_UINT16 => load_scalar data_uint16 kv data_arg h
  | PRRTE_UINT32 => load_scalar data_uint32 kv data_arg h
  | PRRTE_UINT64 => load_scalar data_uint64 kv data_arg h
  | PRRTE_BYTE_OBJECT =>
      '(_, old) ← get_bo (data kv);
      h1 ← free_if_set old h;
      (* boptr = data *)
      if decide (data_arg = NULL)
      then Some (PRRTE_SUCCESS, set_data kv (Bo 0 NULL), h1)
      else
        '(size, bytes) ← read_bo data_arg h1;
        '(size', bytes', h2) ← dup_bo size bytes h1;
        Some (PRRTE_SUCCESS, set_data kv (Bo size' bytes'), h2)
  | PRRTE_FLOAT => load_scalar data_fval kv data_arg h
  | PRRTE_TIMEVAL =>
      sec ← read_int true 8 data_arg h;
      usec ← read_int true 8 (ptr_add data_arg 8) h;
      Some (PRRTE_SUCCESS, set_data kv (Tv sec usec), h)
  | PRRTE_PTR => Some (PRRTE_SUCCESS, set_data kv (Pointer data_arg), h)
  | _ => Some (PRRTE_ERR_NOT_SUPPORTED, kv, h)
  end.

(** The sixteen bytes of a [struct timeval]: [tv_sec], then [tv_usec]. *)
Definition timeval_bytes (tv_sec tv_usec : Z) : list byte :=
  encode_le 8 tv_sec ++ encode_le 8 tv_usec.

(** [memcpy( *data, &kv->data.f, sizeof(T))] *)
Definition unload_scalar (f : member) (kv : prrte_value_t) (target : ptr) (h : heap)
    : option (prrte_status * option ptr * heap) :=
  v ← get_scalar f (data kv);
  h' ← store_bytes target (encode_le (width f) v) h;
  Some (PRRTE_SUCCESS, Some target, h').

(** [prrte_value_unload(kv, data, type)].  [data_slot] is [None] for a
    null [void **], and otherwise the pointer the caller's slot holds;
    the result carries the slot's new value. *)
Definition prrte_value_unload (kv : prrte_value_t) (data_slot : option ptr)
    (ty : prrte_data_type_t) (h : heap)
    : option (prrte_status * option ptr * heap) :=
  if decide (ty ≠ type kv) then Some (PRRTE_ERR_TYPE_MISMATCH, data_slot, h)
  else
  match data_slot with
  | None => Some (PRRTE_ERR_BAD_PARAM, data_slot, h)
  | Some target =>
    if decide (ty ≠ PRRTE_STRING ∧ ty ≠ PRRTE_BYTE_OBJECT ∧ target = NULL)
    then Some (PRRTE_ERR_BAD_PARAM, data_slot, h)
    else
    match ty with
    | PRRTE_BOOL => unload_scalar data_flag kv target h
    | PRRTE_BYTE => unload_scalar data_byte kv target h
    | PRRTE_STRING =>
        s ← get_string (data kv);
        if decide (s ≠ NULL)
        then '(p, h1) ← strdup s h; Some (PRRTE_SUCCESS, Some p, h1)
        else Some (PRRTE_SUCCESS, Some NULL, h)
    | PRRTE_SIZE => unload_scalar data_size kv target h
    | PRRTE_PID => unload_scalar data_pid kv target h
    | PRRTE_INT => unload_scalar data_integer kv target h
    | PRRTE_INT8 => unload_scalar data_int8 kv target h
    | PRRTE_INT16 => unload_scalar data_int16 kv target h
    | PRRTE_INT32 => unload_scalar data_int32 kv target h
    | PRRTE_INT64 => unload_scalar data_int64 kv target h
    | PRRTE_UINT => unload_scalar data_uint kv target h
    | PRRTE_UINT8 => unload_scalar data_uint8 kv target h
    | PRRTE_UINT16 => unload_scalar data_uint16 kv target h
    | PRRTE_UINT32 => unload_scalar data_uint32 kv target h
    | PRRTE_UINT64 => unload_scalar data_uint64 kv target h
    | PRRTE_BYTE_OBJECT =>
        let '(boptr, h1) := malloc_bo h in
        '(size, bytes) ← get_bo (data kv);
        '(size', bytes', h2) ← dup_bo size bytes h1;
        h3 ← write_bo boptr size' bytes' h2;
        Some (PRRTE_SUCCESS, Some boptr, h3)
    | PRRTE_FLOAT => unload_scalar data_fval kv target h
    | PRRTE_TIMEVAL =>
        '(sec, usec) ← get_tv (data kv);
        h' ← store_bytes target (timeval_bytes sec usec) h;
        Some (PRRTE_SUCCESS, Some target, h')
    | PRRTE_PTR =>
        p ← get_ptr (data kv);
        Some (PRRTE_SUCCESS, Some p, h)
    | PRRTE_VPID => unload_scalar data_name_vpid kv target h
    | PRRTE_OTHER _ => Some (PRRTE_ERR_NOT_SUPPORTED, data_slot, h)
    end
  end.

(** [dest->data.f = src->data.f] *)
Definition xfer_scalar (f : member) (dest src : prrte_value_t) (h : heap)
    : option (prrte_status * prrte_value_t * heap) :=
  v ← get_scalar f (data src);
  Some (PRRTE_SUCCESS, set_data dest (Scalar f v), h).

(** [prrte_value_xfer(dest, src)] *)
Definition prrte_value_xfer (dest src : prrte_value_t) (h : heap)
    : option (prrte_status * prrte_value_t * heap) :=
  '(dest, h) ←
    (if decide (key src ≠ NULL)
     then '(k, h0) ← strdup (key src) h; Some (set_key dest k, h0)
     else Some (dest, h));
  let dest := set_type dest (type src) in
  match type src with
  | PRRTE_BOOL => xfer_scalar data_flag dest src h
  | PRRTE_BYTE => xfer_scalar data_byte dest src h
  | PRRTE_STRING =>
      old ← get_string (data dest);
      h1 ← free_if_set old h;
      s ← get_string (data src);
      if decide (s ≠ NULL)
      then '(p, h2) ← strdup s h1;
           Some (PRRTE_SUCCESS, set_data dest (StringP p), h2)
      else Some (PRRTE_SUCCESS, set_data dest (StringP NULL), h1)
  | PRRTE_SIZE => xfer_scalar data_size dest src h
  | PRRTE_PID => xfer_scalar data_pid dest src h
  | PRRTE_INT => xfer_scalar data_integer dest src h
  | PRRTE_INT8 => xfer_scalar data_int8 dest src h
  | PRRTE_INT16 => xfer_scalar data_int16 dest src h
  | PRRTE_INT32 => xfer_scalar data_int32 dest src h
  | PRRTE_INT64 => xfer_scalar data_int64 dest src h
  | PRRTE_UINT => xfer_scalar data_uint dest src h
  | PRRTE_UINT8 => xfer_scalar data_uint8 dest src h
  | PRRTE_UINT16 => xfer_scalar data_uint16 dest src h
  | PRRTE_UINT32 => xfer_scalar data_uint32 dest src h
  | PRRTE_UINT64 => xfer_scalar data_uint64 dest src h
  | PRRTE_BYTE_OBJECT =>
      '(_, old) ← get_bo (data dest);
      h1 ← free_if_set old h;
      (* boptr = &src->data.bo, never null *)
      '(size, bytes) ← get_bo (data src);
      '(size', bytes', h2) ← dup_bo size bytes h1;
      Some (PRRTE_SUCCESS, set_data dest (Bo size' bytes'), h2)
  | PRRTE_FLOAT => xfer_scalar data_fval dest src h
  | PRRTE_TIMEVAL =>
      '(sec, usec) ← get_tv (data src);
      Some (PRRTE_SUCCESS, set_data dest (Tv sec usec), h)
  | PRRTE_PTR =>
      p ← get_ptr (data src);
      Some (PRRTE_SUCCESS, set_data dest (Pointer p), h)
  | _ => Some (PRRTE_ERR_NOT_SUPPORTED, dest, h)
  end.

(** The tags that have a case in [prrte_value_load] (and in
    [prrte_value_xfer]): the supported kinds.  [PRRTE_VPID] has a case
    in [prrte_value_unload] only. *)
Definition supported (ty : prrte_data_type_t) : bool :=
  match ty with
  | PRRTE_VPID | PRRTE_OTHER _ => false
  | _ => true
  end.

(** *** What a pointer denotes for a kind

    The datum that a [void *] argument stands for, for each kind: the
    object representation of a fixed-width kind, the characters of a
    string (or no string), the bytes of a byte object, or the pointer
    itself.  Two pointers that denote the same datum are equal in the
    sense the kind calls for: byte for byte, deeply, or as aliases. *)
Inductive datum :=
| DFixed (bs : list byte)
| DString (s : option (list byte))
| DBlob (bs : list byte)
| DAlias (p : ptr).

Definition fixed_width (ty : prrte_data_type_t) : option Z :=
  match ty with
  | PRRTE_BOOL | PRRTE_BYTE | PRRTE_INT8 | PRRTE_UINT8 => Some 1
  | PRRTE_INT16 | PRRTE_UINT16 => Some 2
  | PRRTE_PID | PRRTE_INT | PRRTE_INT32 | PRRTE_UINT | PRRTE_UINT32
  | PRRTE_FLOAT => Some 4
  | PRRTE_SIZE | PRRTE_INT64 | PRRTE_UINT64 => Some 8
  | PRRTE_TIMEVAL => Some 16
  | _ => None
  end.

Definition read_datum (ty : prrte_data_type_t) (h : heap) (p : ptr) : option datum :=
  match ty with
  | PRRTE_STRING =>
      if decide (p = NULL) then Some (DString None)
      else s ← read_cstring p h; Some (DString (Some s))
  | PRRTE_BYTE_OBJECT =>
      (* [size] is an [int32_t] *)
      '(size, bytes) ← read_bo p h;
      if decide (size = 0) then Some (DBlob [])
      else if decide (size ≤ INT32_MAX)
           then bs ← load_bytes bytes size h; Some (DBlob bs)
           else None
  | PRRTE_PTR => Some (DAlias p)
  | _ =>
      w ← fixed_width ty;
      bs ← load_bytes p w h;
      Some (DFixed bs)
  end.

(** The heap once the value has released the string or the bytes it
    owns, which is what a load of a string or of a byte object does
    first.  It has no result when the union does not hold such a
    member, or holds a pointer that cannot be freed. *)
Definition release_owned (ty : prrte_data_type_t) (kv : prrte_value_t) (h : heap)
    : option heap :=
  match ty with
  | PRRTE_STRING => old ← get_string (data kv); free_if_set old h
  | PRRTE_BYTE_OBJECT => '(_, old) ← get_bo (data kv); free_if_set old h
  | _ => Some h
  end.

(** What unload needs of the caller's slot: for a fixed-width kind it
    points to storage of that width (the slot must not be null for the
    pointer kind either); for strings and byte objects, which are
    returned in fresh storage, anything will do. *)
Definition slot_ok (ty : prrte_data_type_t) (h : heap) (slot : ptr) : bool :=
  match ty with
  | PRRTE_STRING | PRRTE_BYTE_OBJECT => true
  | PRRTE_PTR => bool_decide (slot ≠ NULL)
  | _ =>
      match fixed_width ty with
      | Some w => bool_decide (is_Some (load_bytes slot w h))
      | None => false
      end
  end.

End Value.

(* ===================================================================== *)
(** ** What a typed value holds                                           *)
(* ===================================================================== *)

Module ValueView.
Import Mem Status Value.

(** The member of the union that the cases of a tag read and write in
    the three switches; [data.name.vpid] is read by unload only. *)
Definition member_of (ty : prrte_data_type_t) : option member :=
  match ty with
  | PRRTE_BOOL => Some data_flag
  | PRRTE_BYTE => Some data_byte
  | PRRTE_SIZE => Some data_size
  | PRRTE_PID => Some data_pid
  | PRRTE_INT => Some data_integer
  | PRRTE_INT8 => Some data_int8
  | PRRTE_INT16 => Some data_int16
  | PRRTE_INT32 => Some data_int32
  | PRRTE_INT64 => Some data_int64
  | PRRTE_UINT => Some data_uint
  | PRRTE_UINT8 => Some data_uint8
  | PRRTE_UINT16 => Some data_uint16
  | PRRTE_UINT32 => Some data_uint32
  | PRRTE_UINT64 => Some data_uint64
  | PRRTE_FLOAT => Some data_fval
  | PRRTE_VPID => Some data_name_vpid
  | _ => None
  end.

(** The datum that a value holds, read as the kind [ty]: the object
    representation of the member for a fixed-width kind, the string or
    the bytes that the union points to, or the pointer it carries.  A
    byte object that the copying code treats as empty (null bytes, or a
    size that is not positive) holds no bytes. *)
Definition held_datum (ty : prrte_data_type_t) (h : heap) (kv : prrte_value_t)
    : option datum :=
  match ty with
  | PRRTE_STRING => s ← get_string (data kv); read_datum PRRTE_STRING h s
  | PRRTE_BYTE_OBJECT =>
      '(size, bytes) ← get_bo (data kv);
      if decide (bytes ≠ NULL ∧ 0 < size)
      then if decide (size ≤ INT32_MAX)
           then bs ← load_bytes bytes size h; Some (DBlob bs)
           else None
      else Some (DBlob [])
  | PRRTE_TIMEVAL =>
      '(sec, usec) ← get_tv (data kv); Some (DFixed (timeval_bytes sec usec))
  | PRRTE_PTR => p ← get_ptr (data kv); Some (DAlias p)
  | _ =>
      f ← member_of ty;
      v ← get_scalar f (data kv);
      Some (DFixed (encode_le (width f) v))
  end.

(** The pointer through which the value owns heap storage as the kind
    [ty]: the string, or the bytes of the byte object. *)
Definition owned_ptr (ty : prrte_data_type_t) (kv : prrte_value_t) : option ptr :=
  match ty with
  | PRRTE_STRING => get_string (data kv)
  | PRRTE_BYTE_OBJECT => '(_, bytes) ← get_bo (data kv); Some bytes
  | _ => None
  end.

(** The first statement of [prrte_value_xfer] on its own:
    [if (NULL != src->key) dest->key = strdup(src->key);] *)
Definition xfer_key (dest src : prrte_value_t) (h : heap)
    : option (prrte_value_t * heap) :=
  if decide (key src ≠ NULL)
  then '(k, h0) ← strdup (key src) h; Some (set_key dest k, h0)
  else Some (dest, h).

(** What that statement leaves in [dest'], seen in a later heap [h']:
    the key [dest] had when [src] has none, and otherwise a copy of the
    key of [src] in a block that was not live in [h]. *)
Definition key_copied (dest src : prrte_value_t) (h : heap)
    (dest' : prrte_value_t) (h' : heap) : Prop :=
  if decide (key src = NULL) then key dest' = key dest
  else ∃ ks B, read_cstring (key src) h = Some ks ∧
               key dest' = Ptr B 0 ∧ h !! B = None ∧
               read_cstring (key dest') h' = Some ks.

End ValueView.

(* ===================================================================== *)
(** ** plm_tm_module.c: the TM launcher                                   *)
(* ===================================================================== *)

Module PlmTm.

(** The handlers of this file return nothing and talk to the rest of
    the system through calls: to the TM library, to the state machine,
    to the help and output routines.  The calls a handler makes are kept,
    in order, in a trace, next to the state the handler changes.  What
    the callees answer is an input: the collaborators are gathered in
    the record [externals] over the (abstract) state of the TM library.

    Two parts of [launch_daemons] are kept abstract, because they have
    no exit of their own and only compute arguments that are handed
    on: the verbose output, and the construction of the daemon
    environment (the copy of the launch environment, the selector for
    the local launcher, the umask variable and the rewrite of PATH and
    LD_LIBRARY_PATH under a prefix), which is the collaborator
    [daemon_environ].  PRTE_ACQUIRE_OBJECT and PRTE_RELEASE of the state
    caddy are not modelled: the job of the caddy is its [jdata] as read
    on entry. *)

Inductive prte_status :=
| PRTE_SUCCESS
| PRTE_ERROR
| PRTE_ERR_NOT_FOUND
| PRTE_ERR_OUT_OF_RESOURCE
| PRTE_ERR_RESOURCE_BUSY
| PRTE_ERR_OTHER (code : Z).

#[global] Instance prte_status_eq_dec : EqDecision prte_status.
Proof. solve_decision. Defined.

(** What [tm_init], [tm_spawn] and [tm_poll] report. *)
Inductive tm_status :=
| TM_SUCCESS
| TM_FAILURE (code : Z).

#[global] Instance tm_status_eq_dec : EqDecision tm_status.
Proof. solve_decision. Defined.

Inductive prte_job_state_t :=
| PRTE_JOB_STATE_INIT
| PRTE_JOB_STATE_MAP
| PRTE_JOB_STATE_LAUNCH_DAEMONS
| PRTE_JOB_STATE_DAEMONS_LAUNCHED
| PRTE_JOB_STATE_DAEMONS_REPORTED
| PRTE_JOB_STATE_FAILED_TO_START
| PRTE_JOB_STATE_OTHER (code : Z).

#[global] Instance prte_job_state_t_eq_dec : EqDecision prte_job_state_t.
Proof. solve_decision. Defined.

(** Flags and attributes.  A flags word is kept as the list of the
    flags that are set, an attribute table as the list of its keys with
    their values (the headers that give the bits and the keys are not
    part of the sources). *)
Inductive prte_flag :=
| PRTE_JOB_FLAG_RESTART
| PRTE_JOB_FLAG_DEBUGGER_DAEMON
| PRTE_NODE_FLAG_DAEMON_LAUNCHED
| PRTE_FLAG_OTHER (bit : Z).

#[global] Instance prte_flag_eq_dec : EqDecision prte_flag.
Proof. solve_decision. Defined.

Inductive prte_attribute_key_t :=
| PRTE_JOB_DO_NOT_LAUNCH
| PRTE_NODE_LAUNCH_ID
| PRTE_ATTR_OTHER (key : Z).

#[global] Instance prte_attribute_key_t_eq_dec : EqDecision prte_attribute_key_t.
Proof. solve_decision. Defined.

(** [prte_get_attribute(&attributes, key, &data, type)]: whether the key
    is there, and its value. *)
Fixpoint prte_get_attribute (attributes : list (prte_attribute_key_t * Z))
    (key : prte_attribute_key_t) : option Z :=
  match attributes with
  | [] => None
  | (k, v) :: rest => if decide (k = key) then Some v else prte_get_attribute rest key
  end.

(** Modelled from the spec: the node, job map and job structures
    (declared in prte_globals.h, which is not part of the sources), with
    the members plm_tm_module.c reads or writes.  [daemon_rank] is
    [node->daemon->name.rank], absent when the node has no daemon
    object. *)
Record prte_node_t := {
  name : string;
  node_flags : list prte_flag;
  daemon_rank : option Z;
  node_attributes : list (prte_attribute_key_t * Z)
}.

(** [nodes] is a pointer array: an entry may be empty. *)
Record prte_job_map_t := {
  nodes : list (option prte_node_t);
  num_new_daemons : Z
}.

Record prte_job_t := {
  flags : list prte_flag;
  attributes : list (prte_attribute_key_t * Z);
  map : option prte_job_map_t;
  state : prte_job_state_t
}.

Definition PRTE_FLAG_TEST (flags_word : list prte_flag) (f : prte_flag) : bool :=
  bool_decide (f ∈ flags_word).

(** Job objects are reached through pointers, and the job being
    launched may be the daemon job itself: jobs live in a store. *)
Definition jobid := positive.

Definition set_state (j : prte_job_t) (s : prte_job_state_t) : prte_job_t :=
  {| flags := flags j; attributes := attributes j; map := map j; state := s |}.

(** The calls a handler makes. *)
Inductive event :=
| EvErrorLog (rc : prte_status)                         (* PRTE_ERROR_LOG *)
| EvTmInit                                              (* tm_init *)
| EvTmSpawn (argv env : list string) (launchid : Z) (slot : Z)   (* tm_spawn *)
| EvTmPoll                                              (* tm_poll *)
| EvShowHelp (file topic : string) (argv0 : option string)
             (node_name : string) (launchid : Z)        (* prte_show_help *)
| EvOutput (msg : string) (code : Z)                    (* prte_output(0, ...) *)
| EvActivate (j : option jobid) (s : prte_job_state_t)  (* PRTE_ACTIVATE_JOB_STATE *)
| EvExit (code : Z).                                    (* exit *)

Section Handlers.

(** The state of the TM library and of the resource manager behind it. *)
Context {TM : Type}.

Record world := {
  jobs : gmap jobid prte_job_t;
  my_job : option jobid;   (* prte_get_job_data_object(PRTE_PROC_MY_NAME->nspace) *)
  launched : Z;            (* static int32_t launched *)
  connected : bool;        (* static bool connected *)
  tm : TM;
  trace : list event
}.

Record externals := {
  prte_plm_base_setup_virtual_machine :
    jobid → gmap jobid prte_job_t → prte_status * gmap jobid prte_job_t;
  (* malloc of the two handle arrays *)
  tm_events_allocated : Z → bool;
  tm_task_ids_allocated : Z → bool;
  (* prte_plm_base_setup_prted_cmd, then prte_plm_base_prted_append_basic_args:
     the argument vector and the index kept for the rank *)
  prted_argv : list string * nat;
  daemon_environ : prte_job_t → list string;
  prte_util_convert_vpid_to_string : Z → option string;
  tm_init : TM → tm_status * TM;
  tm_spawn : list string → list string → Z → TM → tm_status * TM;
  (* tm_poll gives its own status and, in local_err, that of the spawn *)
  tm_poll : TM → tm_status * tm_status * TM
}.

Variable E : externals.

Definition log (e : event) (w : world) : world :=
  {| jobs := jobs w; my_job := my_job w; launched := launched w;
     connected := connected w; tm := tm w; trace := trace w ++ [e] |}.

Definition with_jobs (js : gmap jobid prte_job_t) (w : world) : world :=
  {| jobs := js; my_job := my_job w; launched := launched w;
     connected := connected w; tm := tm w; trace := trace w |}.

Definition with_tm (t : TM) (w : world) : world :=
  {| jobs := jobs w; my_job := my_job w; launched := launched w;
     connected := connected w; tm := t; trace := trace w |}.

Definition with_launched (n : Z) (w : world) : world :=
  {| jobs := jobs w; my_job := my_job w; launched := n;
     connected := connected w; tm := tm w; trace := trace w |}.

Definition with_connected (c : bool) (w : world) : world :=
  {| jobs := jobs w; my_job := my_job w; launched := launched w;
     connected := c; tm := tm w; trace := trace w |}.

(** Modelled from the spec: PRTE_ACTIVATE_JOB_STATE (the state machine
    is not part of the sources): "activating a job state is an enqueue
    onto that loop's event queue, never a direct synchronous call". *)
Definition PRTE_ACTIVATE_JOB_STATE (j : option jobid) (s : prte_job_state_t)
    (w : world) : world :=
  log (EvActivate j s) w.

(** [j->state = s], through the pointer [j]. *)
Definition assign_state (j : jobid) (s : prte_job_state_t) (w : world) : option world :=
  jd ← jobs w !! j;
  Some (with_jobs (<[j := set_state jd s]> (jobs w)) w).

(** [plm_tm_launch_job] *)
Definition plm_tm_launch_job (jdata : jobid) (w : world) : option (prte_status * world) :=
  jd ← jobs w !! jdata;
  if PRTE_FLAG_TEST (flags jd) PRTE_JOB_FLAG_RESTART
  then Some (PRTE_SUCCESS, PRTE_ACTIVATE_JOB_STATE (Some jdata) PRTE_JOB_STATE_MAP w)
  else Some (PRTE_SUCCESS, PRTE_ACTIVATE_JOB_STATE (Some jdata) PRTE_JOB_STATE_INIT w).

(** [plm_tm_connect]: up to ten calls of [tm_init] (the pause between
    two attempts is not modelled). *)
Fixpoint connect_attempts (count : nat) (w : world) : prte_status * world :=
  match count with
  | O => (PRTE_ERR_RESOURCE_BUSY, w)
  | S count' =>
      let '(ret, t) := tm_init E (tm w) in
      let w1 := log EvTmInit (with_tm t w) in
      if decide (ret = TM_SUCCESS) then (PRTE_SUCCESS, w1)
      else connect_attempts count' w1
  end.

Definition plm_tm_connect (w : world) : prte_status * world :=
  connect_attempts 10 w.

(** How a handler ends: it returns, or the process exits. *)
Inductive outcome :=
| Returned (w : world)
| Exited (w : world).

(** The label [cleanup] of [launch_daemons]. *)
Definition cleanup (daemons : option jobid) (failed_launch : bool) (w : world) : world :=
  if failed_launch
  then PRTE_ACTIVATE_JOB_STATE daemons PRTE_JOB_STATE_FAILED_TO_START w
  else w.

(** The three places where [launch_daemons] marks the job and returns
    without launching. *)
Definition nothing_to_launch (jdata : jobid) (w : world) : option world :=
  w1 ← assign_state jdata PRTE_JOB_STATE_DAEMONS_LAUNCHED w;
  Some (PRTE_ACTIVATE_JOB_STATE (Some jdata) PRTE_JOB_STATE_DAEMONS_REPORTED w1).

(** [launch_daemons], up to the loop over the nodes (lines 196-355). *)
Inductive setup_result :=
| SetupReturn (w : world)                              (* return *)
| SetupCleanup (daemons : option jobid) (w : world)    (* goto cleanup *)
| SetupProceed (daemons : jobid) (m : prte_job_map_t)
               (argv : list string) (proc_vpid_index : nat)
               (env : list string) (w : world).

Definition launch_setup (jdata : jobid) (w : world) : option setup_result :=
  jd ← jobs w !! jdata;
  if PRTE_FLAG_TEST (flags jd) PRTE_JOB_FLAG_DEBUGGER_DAEMON
  then w' ← nothing_to_launch jdata w; Some (SetupReturn w')
  else
  (* setup the virtual machine *)
  let daemons := my_job w in
  let '(rc, js) := prte_plm_base_setup_virtual_machine E jdata (jobs w) in
  let w := with_jobs js w in
  if decide (rc ≠ PRTE_SUCCESS)
  then Some (SetupCleanup daemons (log (EvErrorLog rc) w))
  else
  d ← daemons;
  dj ← jobs w !! d;
  if decide (is_Some (prte_get_attribute (attributes dj) PRTE_JOB_DO_NOT_LAUNCH))
  then w' ← nothing_to_launch jdata w; Some (SetupReturn w')
  else
  match map dj with
  | None => Some (SetupCleanup daemons (log (EvErrorLog PRTE_ERR_NOT_FOUND) w))
  | Some m =>
    if decide (num_new_daemons m = 0)
    then w' ← nothing_to_launch jdata w; Some (SetupReturn w')
    else
    if negb (tm_events_allocated E (num_new_daemons m))
    then Some (SetupCleanup daemons (log (EvErrorLog PRTE_ERR_OUT_OF_RESOURCE) w))
    else
    if negb (tm_task_ids_allocated E (num_new_daemons m))
    then Some (SetupCleanup daemons (log (EvErrorLog PRTE_ERR_OUT_OF_RESOURCE) w))
    else
    let '(argv, proc_vpid_index) := prted_argv E in
    let '(rc, w) :=
      if connected w then (PRTE_SUCCESS, w)
      else let '(rc, w1) := plm_tm_connect w in
           (rc, if decide (rc = PRTE_SUCCESS) then with_connected true w1 else w1) in
    if decide (rc ≠ PRTE_SUCCESS)
    then Some (SetupCleanup daemons w)
    else
    jd ← jobs w !! jdata;
    let env := daemon_environ E jd in
    Some (SetupProceed d m argv proc_vpid_index env w)
  end.

(** One turn of the loop for a node that needs a daemon (lines 375-408). *)
Inductive step_result :=
| StepNext (argv : list string) (w : world)   (* launched++, next node *)
| StepFail (w : world)                        (* goto cleanup *)
| StepExit (w : world).                       (* exit(-1) *)

Definition spawn_step (env : list string) (proc_vpid_index : nat) (num_new : Z)
    (argv : list string) (node : prte_node_t) (w : world) : option step_result :=
  (* setup process name *)
  rank ← daemon_rank node;
  match prte_util_convert_vpid_to_string E rank with
  | None =>
      Some (StepExit (log (EvExit (-1))
             (log (EvOutput "plm:tm: unable to get daemon vpid as string" 0) w)))
  | Some vpid_string =>
    if decide (proc_vpid_index < length argv)%nat
    then
      let argv := <[proc_vpid_index := vpid_string]> argv in
      (* exec the daemon: launchid = 0, then the attribute *)
      match prte_get_attribute (node_attributes node) PRTE_NODE_LAUNCH_ID with
      | None =>
          Some (StepFail (log (EvShowHelp "help-plm-tm.txt" "tm-spawn-failed"
                                 (argv !! 0%nat) (name node) 0) w))
      | Some launchid =>
          (* the handles go to tm_task_ids + launched, tm_events + launched *)
          if decide (0 ≤ launched w < num_new)
          then
            let '(rc, t) := tm_spawn E argv env launchid (tm w) in
            let w1 := log (EvTmSpawn argv env launchid (launched w)) (with_tm t w) in
            if decide (rc ≠ TM_SUCCESS)
            then Some (StepFail (log (EvShowHelp "help-plm-tm.txt" "tm-spawn-failed"
                                        (argv !! 0%nat) (name node) launchid) w1))
            else Some (StepNext argv (with_launched (launched w + 1) w1))
          else None
      end
    else None
  end.

(** The loop over [map->nodes] (lines 361-409). *)
Inductive loop_result :=
| LoopDone (argv : list string) (w : world)
| LoopFail (w : world)
| LoopExit (w : world).

Fixpoint spawn_loop (env : list string) (proc_vpid_index : nat) (num_new : Z)
    (items : list (option prte_node_t)) (argv : list string) (w : world)
    : option loop_result :=
  match items with
  | [] => Some (LoopDone argv w)
  | None :: rest => spawn_loop env proc_vpid_index num_new rest argv w
  | Some node :: rest =>
      (* if this daemon already exists, don't launch it! *)
      if PRTE_FLAG_TEST (node_flags node) PRTE_NODE_FLAG_DAEMON_LAUNCHED
      then spawn_loop env proc_vpid_index num_new rest argv w
      else
        r ← spawn_step env proc_vpid_index num_new argv node w;
        match r with
        | StepNext argv' w' => spawn_loop env proc_vpid_index num_new rest argv' w'
        | StepFail w' => Some (LoopFail w')
        | StepExit w' => Some (LoopExit w')
        end
  end.

(** [launch_daemons(fd, args, cbdata)], for the job of the caddy. *)
Definition launch_daemons (jdata : jobid) (w : world) : option outcome :=
  r ← launch_setup jdata w;
  match r with
  | SetupReturn w' => Some (Returned w')
  | SetupCleanup daemons w' => Some (Returned (cleanup daemons true w'))
  | SetupProceed daemons m argv proc_vpid_index env w0 =>
      l ← spawn_loop env proc_vpid_index (num_new_daemons m) (nodes m) argv w0;
      match l with
      | LoopDone _ w1 =>
          (* indicate that the daemons for this job were launched *)
          w2 ← assign_state jdata PRTE_JOB_STATE_DAEMONS_LAUNCHED w1;
          w3 ← assign_state daemons PRTE_JOB_STATE_DAEMONS_LAUNCHED w2;
          Some (Returned (cleanup (Some daemons) false w3))
      | LoopFail w1 => Some (Returned (cleanup (Some daemons) true w1))
      | LoopExit w1 => Some (Exited w1)
      end
  end.

(** [poll_spawns]: the loop polls [launched] times.  On failure the
    source activates the state for [state->jdata], which it reads after
    PRTE_RELEASE(state); here that is the job of the caddy. *)
Fixpoint poll_loop (count : nat) (w : world) : bool * world :=
  match count with
  | O => (false, w)
  | S count' =>
      let '(rc, local_err, t) := tm_poll E (tm w) in
      let w1 := log EvTmPoll (with_tm t w) in
      if decide (rc ≠ TM_SUCCESS)
      then (true, log (EvOutput "plm:tm: failed to poll for a spawned daemon, return status = %d"
                         (match rc with TM_SUCCESS => 0 | TM_FAILURE c => c end)) w1)
      else if decide (local_err ≠ TM_SUCCESS)
      then (true, log (EvOutput "plm:tm: failed to spawn daemon, error code = %d"
                         (match local_err with TM_SUCCESS => 0 | TM_FAILURE c => c end)) w1)
      else poll_loop count' w1
  end.

Definition poll_spawns (jdata : jobid) (w : world) : world :=
  let '(failed_launch, w1) := poll_loop (Z.to_nat (launched w)) w in
  if failed_launch
  then PRTE_ACTIVATE_JOB_STATE (Some jdata) PRTE_JOB_STATE_FAILED_TO_START w1
  else w1.

(** *** Counting and the polls as the backend sees them *)

Definition is_spawn (e : event) : bool :=
  match e with EvTmSpawn _ _ _ _ => true | _ => false end.

Definition is_poll (e : event) : bool :=
  match e with EvTmPoll => true | _ => false end.

Definition count_events (p : event → bool) (t : list event) : nat :=
  length (filter (λ e, p e = true) t).

(** The index of the first of [count] polls that does not confirm,
    the backend starting in state [t]: a poll confirms when the call
    and the spawn it reports on both succeeded. *)
Fixpoint first_failed_poll (count : nat) (t : TM) : option nat :=
  match count with
  | O => None
  | S count' =>
      let '(rc, local_err, t') := tm_poll E t in
      if decide (rc = TM_SUCCESS ∧ local_err = TM_SUCCESS)
      then S <$> first_failed_poll count' t'
      else Some O
  end.

End Handlers.

Arguments world : clear implicits.
Arguments externals : clear implicits.
Arguments outcome : clear implicits.
Arguments setup_result : clear implicits.
Arguments step_result : clear implicits.
Arguments loop_result : clear implicits.

End PlmTm.

(* ===================================================================== *)
(** ** plm_tm_module.c: finalize, and what a launch is expected to call   *)
(* ===================================================================== *)

Module PlmView.
Import PlmTm.

Definition is_init (e : event) : bool :=
  match e with EvTmInit => true | _ => false end.

Definition is_activate (e : event) : bool :=
  match e with EvActivate _ _ => true | _ => false end.

(** The nodes of a map that the loop of [launch_daemons] does not skip:
    the entries that are there and do not have the DAEMON_LAUNCHED
    flag. *)
Fixpoint eligible (items : list (option prte_node_t)) : list prte_node_t :=
  match items with
  | [] => []
  | None :: rest => eligible rest
  | Some node :: rest =>
      if PRTE_FLAG_TEST (node_flags node) PRTE_NODE_FLAG_DAEMON_LAUNCHED
      then eligible rest
      else node :: eligible rest
  end.

Section Calls.
Context {TM : Type}.
Variable E : externals TM.

(** The world in which a handler ends. *)
Definition outcome_world (o : outcome TM) : world TM :=
  match o with Returned w => w | Exited w => w end.

Definition loop_world (r : loop_result TM) : world TM :=
  match r with LoopDone _ w => w | LoopFail w => w | LoopExit w => w end.

Definition setup_world (r : setup_result TM) : world TM :=
  match r with
  | SetupReturn w => w
  | SetupCleanup _ w => w
  | SetupProceed _ _ _ _ _ w => w
  end.

(** The index of the first of [count] calls of [tm_init] that succeeds,
    the backend starting in state [t]. *)
Fixpoint first_init_success (count : nat) (t : TM) : option nat :=
  match count with
  | O => None
  | S count' =>
      let '(ret, t') := tm_init E t in
      if decide (ret = TM_SUCCESS) then Some O
      else S <$> first_init_success count' t'
  end.

(** The call of [tm_spawn] that the loop makes for a node when its
    turn comes with [slot] handles on record: the argument vector with
    the rank of the node's daemon at the index kept for it, the daemon
    environment, the launch id of the node, and the slot for the
    handles.  There is none when the node has no daemon rank, no rank
    string or no launch id. *)
Definition spawn_call (env : list string) (proc_vpid_index : nat)
    (argv : list string) (slot : Z) (node : prte_node_t) : option event :=
  rank ← daemon_rank node;
  vpid_string ← prte_util_convert_vpid_to_string E rank;
  launchid ← prte_get_attribute (node_attributes node) PRTE_NODE_LAUNCH_ID;
  Some (EvTmSpawn (<[proc_vpid_index := vpid_string]> argv) env launchid slot).

(** The calls for a list of nodes, one slot after the other, up to the
    first node for which there is none. *)
Fixpoint spawn_calls (env : list string) (proc_vpid_index : nat)
    (argv : list string) (slot : Z) (ns : list prte_node_t) : list event :=
  match ns with
  | [] => []
  | node :: rest =>
      match spawn_call env proc_vpid_index argv slot node with
      | Some e => e :: spawn_calls env proc_vpid_index argv (slot + 1) rest
      | None => []
      end
  end.

(** The state of the backend after the calls of [tm_spawn] for a list
    of nodes, the first of them made in state [t]. *)
Fixpoint tm_after_spawns (env : list string) (proc_vpid_index : nat)
    (argv : list string) (t : TM) (ns : list prte_node_t) : TM :=
  match ns with
  | [] => t
  | node :: rest =>
      match spawn_call env proc_vpid_index argv 0 node with
      | Some (EvTmSpawn argv' env' launchid _) =>
          tm_after_spawns env proc_vpid_index argv
            (tm_spawn E argv' env' launchid t).2 rest
      | _ => t
      end
  end.

(** Whether the turns of the loop for a list of nodes all pass, the
    backend being in state [t] at the first of them: each node has a
    daemon rank that converts to a string and a launch id, and
    [tm_spawn], called for it in the state in which the calls before
    it left the backend, returns TM_SUCCESS. *)
Fixpoint spawns_pass (env : list string) (proc_vpid_index : nat)
    (argv : list string) (t : TM) (ns : list prte_node_t) : bool :=
  match ns with
  | [] => true
  | node :: rest =>
      match spawn_call env proc_vpid_index argv 0 node with
      | Some (EvTmSpawn argv' env' launchid _) =>
          bool_decide ((tm_spawn E argv' env' launchid t).1 = TM_SUCCESS) &&
          spawns_pass env proc_vpid_index argv
            (tm_spawn E argv' env' launchid t).2 rest
      | _ => false
      end
  end.

(** A node for which the turn of the loop cannot fail: it has a daemon
    rank that converts to a string and a launch id, and the backend
    accepts a spawn with that launch id and the daemon environment. *)
Definition spawnable (env : list string) (node : prte_node_t) : Prop :=
  ∃ rank vpid_string launchid,
    daemon_rank node = Some rank ∧
    prte_util_convert_vpid_to_string E rank = Some vpid_string ∧
    prte_get_attribute (node_attributes node) PRTE_NODE_LAUNCH_ID = Some launchid ∧
    ∀ argv t, (tm_spawn E argv env launchid t).1 = TM_SUCCESS.

End Calls.

Section Finalize.
Context {TM : Type}.

(** [tm_finalize] of the TM library. *)
Variable tm_finalize : TM → TM.

(** [plm_tm_finalize].  [comm_stop] is what this call of
    [prte_plm_base_comm_stop] answers. *)
Definition plm_tm_finalize (comm_stop : prte_status) (w : world TM)
    : prte_status * world TM :=
  (* cleanup any pending recvs *)
  let w := if decide (comm_stop ≠ PRTE_SUCCESS) then log (EvErrorLog comm_stop) w
           else w in
  let w := if connected w
           then with_connected false (with_tm (tm_finalize (tm w)) w)
           else w in
  (PRTE_SUCCESS, w).

End Finalize.

End PlmView.

(* ===================================================================== *)
(** ** if_bsdx_ipv6.c: discovery of the IPv6 interfaces                   *)
(* ===================================================================== *)

Module IfBsdxIpv6.
Import Mem PlmTm.

(** What the function reads of a [struct sockaddr]: the family and, for
    a [struct sockaddr_in6], the sixteen bytes of the address and the
    scope id. *)
Record sockaddr := {
  sa_family : Z;
  sin6_addr : list byte;
  sin6_scope_id : Z
}.

(** One element of the list that [getifaddrs] gives; [ifa_addr] may be
    a null pointer. *)
Record ifaddrs := {
  ifa_name : string;
  ifa_flags : Z;
  ifa_addr : option sockaddr
}.

(** Modelled from the spec: [prte_if_t] (declared in prteif.h, which is
    not part of the sources), with the members this file assigns. *)
Record prte_if_t := {
  af_family : Z;
  if_name : string;
  if_index : Z;
  if_addr : sockaddr;
  if_mask : Z;
  if_flags : Z;
  if_kernel_index : Z
}.

(** [IN6_IS_ADDR_LINKLOCAL] of <netinet/in.h>: the address starts with
    the ten bits of fe80::/10. *)
Definition IN6_IS_ADDR_LINKLOCAL (a : list byte) : bool :=
  match a with
  | b0 :: b1 :: _ =>
      bool_decide (byte_to_Z b0 = 254 ∧ Z.land (byte_to_Z b1) 192 = 128)
  | _ => false
  end.

(** The output routines are called with a format and its arguments,
    which are strings or integers. *)
Inductive if_arg :=
| ArgStr (s : string)
| ArgInt (z : Z).

(** The calls of the output routines, in their order:
    [prte_output(0, ...)], and
    [prte_output_verbose(1, prte_prteif_base_framework.framework_output, ...)].
    The formats are kept without their final newline. *)
Inductive if_event :=
| IfOutput (msg : string) (args : list if_arg)
| IfVerbose (msg : string) (args : list if_arg).

Definition is_output (e : if_event) : bool :=
  match e with IfOutput _ _ => true | IfVerbose _ _ => false end.

(** The calls of [prte_output] among the calls made. *)
Definition outputs (out : list if_event) : list if_event :=
  filter (λ e, is_output e = true) out.

(** How the function ends: the status it returns, the interface list
    [prte_if_list], and the calls of the output routines it made. *)
Definition result : Type := prte_status * list prte_if_t * list if_event.

(** The calls [evs] were made before the rest of the run, which ends
    as [r]. *)
Definition after (evs : list if_event) (r : option result) : option result :=
  '(st, l, out) ← r; Some (st, l, evs ++ out).

Section Open.

(** The constants of the system headers, the build option and the
    global that the function reads. *)
Variables AF_INET6 IFF_UP IFF_LOOPBACK IFF_POINTOPOINT : Z.
Variable PRTE_ENABLE_IPV6 : bool.
Variable prte_if_retain_loopback : bool.

(** The collaborators: the list [getifaddrs] gives (or its failure,
    with the value of [errno]); whether PMIX_NEW gives an object when
    the interface list has [n] elements; [pmix_string_copy] into a
    buffer of PMIX_IF_NAMESIZE characters; [if_nametoindex];
    [sizeof(prte_if_t)]; what [prte_output_get_verbosity] answers for
    the output stream of the framework; the text [inet_ntop] gives for
    an IPv6 address. *)
Variable getifaddrs : list ifaddrs + Z.
Variable PMIX_NEW : nat → bool.
Variable pmix_string_copy : string → string.
Variable if_nametoindex : string → Z.
Variable sizeof_prte_if_t : Z.
Variable prte_output_get_verbosity : Z.
Variable inet_ntop : list byte → string.

(** The body of the loop from line 169 on: the interface object that is
    appended for an element that passed the tests, the list having
    [size] elements. *)
Definition new_interface (size : nat) (cur : ifaddrs) (sin_addr : sockaddr)
    : prte_if_t :=
  {| af_family := AF_INET6;
     if_name := pmix_string_copy (ifa_name cur);
     if_index := Z.of_nat size + 1;
     if_addr := {| sa_family := AF_INET6;
                   sin6_addr := sin6_addr sin_addr;
                   (* since every scope != 0 is ignored, we just set the scope to 0 *)
                   sin6_scope_id := 0 |};
     (* hardcoded netmask *)
     if_mask := 64;
     if_flags := ifa_flags cur;
     if_kernel_index := if_nametoindex (ifa_name cur) mod 2 ^ 16 |}.

(** Lines 161-167: the line put out for an element that passed the
    tests, when the verbosity of the framework is positive.  (The
    buffer for the text of the address is allocated and freed in
    between; as in [Mem], the allocator does not refuse.) *)
Definition announce (cur : ifaddrs) (sin_addr : sockaddr) : list if_event :=
  if decide (0 < prte_output_get_verbosity)
  then [IfOutput "ipv6 capable interface %s discovered, address %s."
                 [ArgStr (ifa_name cur); ArgStr (inet_ntop (sin6_addr sin_addr))]]
  else [].

(** The loop over the list (lines 106-200), on the interface list
    [prte_if_list].  Reading the family through a null [ifa_addr] has
    no defined result. *)
Fixpoint scan (cur_ifaddrs : list ifaddrs) (prte_if_list : list prte_if_t)
    : option result :=
  match cur_ifaddrs with
  | [] => Some (PRTE_SUCCESS, prte_if_list, [])
  | cur :: next =>
      sin_addr ← ifa_addr cur;
      (* skip non-ipv6 interface addresses *)
      if decide (AF_INET6 ≠ sa_family sin_addr)
      then after [IfVerbose "skipping non-ipv6 interface %s[%d]."
                            [ArgStr (ifa_name cur); ArgInt (sa_family sin_addr)]]
                 (scan next prte_if_list)
      (* skip interface if it is down (IFF_UP not set) *)
      else if decide (Z.land (ifa_flags cur) IFF_UP = 0)
      then after [IfVerbose "skipping non-up interface %s." [ArgStr (ifa_name cur)]]
                 (scan next prte_if_list)
      (* skip interface if it is a loopback device (IFF_LOOPBACK set) *)
      else if negb prte_if_retain_loopback &&
              bool_decide (Z.land (ifa_flags cur) IFF_LOOPBACK ≠ 0)
      then after [IfVerbose "skipping loopback interface %s." [ArgStr (ifa_name cur)]]
                 (scan next prte_if_list)
      (* or if it is a point-to-point interface *)
      else if decide (Z.land (ifa_flags cur) IFF_POINTOPOINT ≠ 0)
      then after [IfVerbose "skipping p2p interface %s." [ArgStr (ifa_name cur)]]
                 (scan next prte_if_list)
      (* skip IPv6 address starting with fe80: *)
      else if IN6_IS_ADDR_LINKLOCAL (sin6_addr sin_addr)
      then after [IfVerbose
                    "skipping link-local ipv6 address on interface %s with scope %d."
                    [ArgStr (ifa_name cur); ArgInt (sin6_scope_id sin_addr)]]
                 (scan next prte_if_list)
      else
        let seen := announce cur sin_addr in
        if negb (PMIX_NEW (length prte_if_list))
        then Some (PRTE_ERR_OUT_OF_RESOURCE, prte_if_list,
                   seen ++ [IfOutput "prte_ifinit: unable to allocate %lu bytes"
                                     [ArgInt sizeof_prte_if_t]])
        else after seen
               (scan next
                  (prte_if_list ++ [new_interface (length prte_if_list) cur sin_addr]))
  end.

(** [if_bsdx_ipv6_open] *)
Definition if_bsdx_ipv6_open (prte_if_list : list prte_if_t) : option result :=
  if PRTE_ENABLE_IPV6
  then
    let searching := IfVerbose "searching for IPv6 interfaces" [] in
    match getifaddrs with
    | inr errno =>
        Some (PRTE_ERROR, prte_if_list,
              [searching;
               IfOutput "prte_ifinit: getifaddrs() failed with error=%d"
                        [ArgInt errno]])
    | inl ifadd_list => after [searching] (scan ifadd_list prte_if_list)
    end
  else Some (PRTE_SUCCESS, prte_if_list, []).

(** The five tests of the loop as one: whether an element with the
    address [sa] is one the function wants. *)
Definition usable (cur : ifaddrs) (sa : sockaddr) : bool :=
  bool_decide (sa_family sa = AF_INET6) &&
  bool_decide (Z.land (ifa_flags cur) IFF_UP ≠ 0) &&
  (prte_if_retain_loopback || bool_decide (Z.land (ifa_flags cur) IFF_LOOPBACK = 0)) &&
  bool_decide (Z.land (ifa_flags cur) IFF_POINTOPOINT = 0) &&
  negb (IN6_IS_ADDR_LINKLOCAL (sin6_addr sa)).

(** The elements of a list that the function wants, with their
    addresses, in the order of the list. *)
Fixpoint wanted (l : list ifaddrs) : list (ifaddrs * sockaddr) :=
  match l with
  | [] => []
  | cur :: next =>
      match ifa_addr cur with
      | Some sa => if usable cur sa then (cur, sa) :: wanted next else wanted next
      | None => wanted next
      end
  end.

(** The interface objects for a list of wanted elements, the first of
    them made when the interface list has [size] elements. *)
Fixpoint interfaces_for (size : nat) (l : list (ifaddrs * sockaddr)) : list prte_if_t :=
  match l with
  | [] => []
  | (cur, sa) :: rest => new_interface size cur sa :: interfaces_for (S size) rest
  end.

(** The lines that announce a list of wanted elements, in their
    order. *)
Definition discovered (l : list (ifaddrs * sockaddr)) : list if_event :=
  l ≫= λ w, announce w.1 w.2.

End Open.

(** An interface list whose elements are numbered 1, 2, ... in the
    order of the list. *)
Definition numbered (l : list prte_if_t) : Prop :=
  ∀ i intf, l !! i = Some intf → if_index intf = Z.of_nat i + 1.

End IfBsdxIpv6.

(* ===================================================================== *)
(** ** Concrete states used by the examples below                         *)
(* ===================================================================== *)

Module Examples.
Import Mem Buffer.

(** Buffer 1 is freshly constructed; block 5 is a region of three bytes
    that belongs to the caller. *)
Definition fresh_buffer_and_region : mem :=
  {| bufs := {[ 1%positive := prrte_buffer_construct ]};
     blocks := {[ 5%positive := Bytes [x0a; x0b; x0c] ]} |}.

(** Buffer 1 holds three bytes of type 1 in block 5, one of them already
    unpacked; buffer 2 is freshly constructed (type 0). *)
Definition half_read : prrte_buffer_t :=
  {| type := 1; base_ptr := Ptr 5 0; pack_ptr := Ptr 5 3; unpack_ptr := Ptr 5 1;
     bytes_allocated := 3; bytes_used := 3 |}.

Definition half_read_and_fresh : mem :=
  {| bufs := {[ 1%positive := half_read; 2%positive := prrte_buffer_construct ]};
     blocks := {[ 5%positive := Bytes [x0a; x0b; x0c] ]} |}.

(** Buffer 1 holds three bytes of type 1, all of them unpacked; buffer 2
    is freshly constructed (type 0); buffer 3 holds two bytes of type 0
    in block 6. *)
Definition all_read : prrte_buffer_t :=
  {| type := 1; base_ptr := Ptr 5 0; pack_ptr := Ptr 5 3; unpack_ptr := Ptr 5 3;
     bytes_allocated := 3; bytes_used := 3 |}.

Definition two_bytes : prrte_buffer_t :=
  {| type := 0; base_ptr := Ptr 6 0; pack_ptr := Ptr 6 2; unpack_ptr := Ptr 6 0;
     bytes_allocated := 2; bytes_used := 2 |}.

Definition all_read_and_others : mem :=
  {| bufs := {[ 1%positive := all_read; 2%positive := prrte_buffer_construct;
                3%positive := two_bytes ]};
     blocks := {[ 5%positive := Bytes [x0a; x0b; x0c];
                  6%positive := Bytes [x01; x02] ]} |}.

(** Values and a heap for the typed-value examples: block 1 holds
    sixteen bytes, block 2 the string "hi" followed by one more byte,
    block 3 a byte object whose two bytes start at the second byte of
    block 2, block 4 sixteen bytes of scratch storage. *)
Definition value_heap : heap :=
  {[ 1%positive := Bytes [xff; xfe; x03; x80; x05; x06; x07; x08;
                          x09; x0a; x0b; x0c; x0d; x0e; x0f; x10];
     2%positive := Bytes [x68; x69; x00; x41];
     3%positive := BoCell 2 (Ptr 2 1);
     4%positive := Bytes (replicate 16 x00) ]}.

Definition fresh_value : Value.prrte_value_t :=
  {| Value.key := NULL; Value.type := Value.PRRTE_OTHER 0; Value.data := Value.Zeroed |}.

Definition int32_value : Value.prrte_value_t :=
  {| Value.key := NULL; Value.type := Value.PRRTE_INT32;
     Value.data := Value.Scalar Value.data_int32 7 |}.

Definition keyed_vpid_value : Value.prrte_value_t :=
  {| Value.key := Ptr 2 0; Value.type := Value.PRRTE_VPID;
     Value.data := Value.Scalar Value.data_name_vpid 3 |}.

End Examples.

Module PlmExamples.
Import PlmTm.

(** Three nodes that need a daemon, with launch ids 10, 20 and 30. *)
Definition node (nm : string) (rank launch_id : Z) : prte_node_t :=
  {| name := nm; node_flags := []; daemon_rank := Some rank;
     node_attributes := [(PRTE_NODE_LAUNCH_ID, launch_id)] |}.

Definition three_nodes : prte_job_map_t :=
  {| nodes := [Some (node "n1" 1 10); Some (node "n2" 2 20); Some (node "n3" 3 30)];
     num_new_daemons := 3 |}.

(** Job 1 is the daemon job, job 2 the job that is being launched. *)
Definition daemon_job : prte_job_t :=
  {| flags := []; attributes := []; map := Some three_nodes;
     state := PRTE_JOB_STATE_OTHER 0 |}.

Definition app_job : prte_job_t :=
  {| flags := []; attributes := []; map := None;
     state := PRTE_JOB_STATE_LAUNCH_DAEMONS |}.

(** The backend state counts the calls made to it. *)
Definition start : world nat :=
  {| jobs := {[ 1%positive := daemon_job; 2%positive := app_job ]};
     my_job := Some 1%positive;
     launched := 0; connected := false; tm := 0%nat; trace := [] |}.

Definition vpid_string (rank : Z) : option string :=
  Some (if decide (rank = 1) then "1" else if decide (rank = 2) then "2" else "3").

(** A backend whose spawn fails for launch id 20, and whose second
    poll reports a failed spawn. *)
Definition backend : externals nat :=
  {| prte_plm_base_setup_virtual_machine := λ _ js, (PRTE_SUCCESS, js);
     tm_events_allocated := λ _, true;
     tm_task_ids_allocated := λ _, true;
     prted_argv := (["prted"; "--rank"; "<template>"], 2%nat);
     daemon_environ := λ _, ["PRTE_MCA_plm=rsh"];
     prte_util_convert_vpid_to_string := vpid_string;
     tm_init := λ t, (TM_SUCCESS, S t);
     tm_spawn := λ _ _ launchid t,
       (if decide (launchid = 20) then TM_FAILURE 17 else TM_SUCCESS, S t);
     tm_poll := λ t,
       (TM_SUCCESS, if decide (t = 1%nat) then TM_FAILURE 5 else TM_SUCCESS, S t) |}.

(** The same start with a second node that has no launch id. *)
Definition nodes_without_id : prte_job_map_t :=
  {| nodes := [Some (node "n1" 1 10);
               Some {| name := "n2"; node_flags := []; daemon_rank := Some 2;
                       node_attributes := [] |};
               Some (node "n3" 3 30)];
     num_new_daemons := 3 |}.

Definition start_without_id : world nat :=
  {| jobs := {[ 1%positive :=
                  {| flags := []; attributes := []; map := Some nodes_without_id;
                     state := PRTE_JOB_STATE_OTHER 0 |};
                2%positive := app_job ]};
     my_job := Some 1%positive;
     launched := 0; connected := false; tm := 0%nat; trace := [] |}.

(** The same with a virtual-machine setup that fails. *)
Definition backend_without_vm : externals nat :=
  {| prte_plm_base_setup_virtual_machine := λ _ js, (PRTE_ERROR, js);
     tm_events_allocated := tm_events_allocated backend;
     tm_task_ids_allocated := tm_task_ids_allocated backend;
     prted_argv := prted_argv backend;
     daemon_environ := daemon_environ backend;
     prte_util_convert_vpid_to_string := vpid_string;
     tm_init := tm_init backend;
     tm_spawn := tm_spawn backend;
     tm_poll := tm_poll backend |}.

(** Both jobs ask not to launch, and no node needs a new daemon. *)
Definition dry_run (j : prte_job_t) : prte_job_t :=
  {| flags := flags j; attributes := [(PRTE_JOB_DO_NOT_LAUNCH, 1)];
     map := Some {| nodes := []; num_new_daemons := 0 |}; state := state j |}.

Definition start_dry_run : world nat :=
  {| jobs := {[ 1%positive := dry_run daemon_job; 2%positive := dry_run app_job ]};
     my_job := Some 1%positive;
     launched := 0; connected := false; tm := 0%nat; trace := [] |}.

(** The state when the loop over the nodes starts. *)
Definition after_setup : world nat :=
  {| jobs := jobs start; my_job := Some 1%positive;
     launched := 0; connected := true; tm := 1%nat;
     trace := [EvTmInit] |}.

(** Two spawns are on record. *)
Definition two_launched : world nat :=
  {| jobs := jobs start; my_job := Some 1%positive;
     launched := 2; connected := true; tm := 0%nat; trace := [] |}.

End PlmExamples.

Module BufferExamples.
Import Mem Buffer.

(** Buffer 1 owns block 5 of three bytes and has a capacity of three,
    but nothing has been packed into it. *)
Definition reserved : prrte_buffer_t :=
  {| type := 1; base_ptr := Ptr 5 0; pack_ptr := Ptr 5 0; unpack_ptr := Ptr 5 0;
     bytes_allocated := 3; bytes_used := 0 |}.

Definition reserved_only : mem :=
  {| bufs := {[ 1%positive := reserved ]};
     blocks := {[ 5%positive := Bytes [x0a; x0b; x0c] ]} |}.

(** Buffer 1 holds three bytes in block 5, one of them unpacked; block 7
    is a region of four bytes that belongs to the caller. *)
Definition half_read_and_region : mem :=
  {| bufs := {[ 1%positive := Examples.half_read ]};
     blocks := {[ 5%positive := Bytes [x0a; x0b; x0c];
                  7%positive := Bytes [x01; x02; x03; x04] ]} |}.

End BufferExamples.

Module ValueExamples.
Import Mem Value.

(** A value that holds the string "hi" of block 2 and is keyed by the
    same characters; a value that owns a string in block 4. *)
Definition string_value : prrte_value_t :=
  {| key := Ptr 2 0; type := PRRTE_STRING; data := StringP (Ptr 2 0) |}.

Definition owner_heap : heap :=
  {[ 2%positive := Bytes [x68; x69; x00; x41];
     4%positive := Bytes [x6f; x6c; x64; x00] ]}.

Definition owner_value : prrte_value_t :=
  {| key := NULL; type := PRRTE_STRING; data := StringP (Ptr 4 0) |}.

(** A value that holds a byte object of two bytes, which start at the
    second byte of block 2. *)
Definition blob_value : prrte_value_t :=
  {| key := NULL; type := PRRTE_BYTE_OBJECT; data := Bo 2 (Ptr 2 1) |}.

End ValueExamples.

Module LaunchExamples.
Import PlmTm PlmExamples.

(** The world in which the launch of [start] ends on [backend], whose
    spawn fails for the second node. *)
Definition after_abort : world nat :=
  {| jobs := jobs start; my_job := Some 1%positive;
     launched := 1; connected := true; tm := 3%nat;
     trace := [EvTmInit;
               EvTmSpawn ["prted"; "--rank"; "1"] ["PRTE_MCA_plm=rsh"] 10 0;
               EvTmSpawn ["prted"; "--rank"; "2"] ["PRTE_MCA_plm=rsh"] 20 1;
               EvShowHelp "help-plm-tm.txt" "tm-spawn-failed" (Some "prted") "n2" 20;
               EvActivate (Some 1%positive) PRTE_JOB_STATE_FAILED_TO_START] |}.

(** A map with an empty entry and a node that has its daemon already:
    two nodes need one, with launch ids the backend accepts. *)
Definition served_node : prte_node_t :=
  {| name := "n2"; node_flags := [PRTE_NODE_FLAG_DAEMON_LAUNCHED];
     daemon_rank := Some 2; node_attributes := [(PRTE_NODE_LAUNCH_ID, 20)] |}.

Definition mixed_nodes : prte_job_map_t :=
  {| nodes := [Some (node "n1" 1 10); None; Some served_node; Some (node "n3" 3 30)];
     num_new_daemons := 2 |}.

Definition start_mixed : world nat :=
  {| jobs := {[ 1%positive :=
                  {| flags := []; attributes := []; map := Some mixed_nodes;
                     state := PRTE_JOB_STATE_OTHER 0 |};
                2%positive := app_job ]};
     my_job := Some 1%positive;
     launched := 0; connected := false; tm := 0%nat; trace := [] |}.

Definition after_setup_mixed : world nat :=
  {| jobs := jobs start_mixed; my_job := Some 1%positive;
     launched := 0; connected := true; tm := 1%nat;
     trace := [EvTmInit] |}.

(** The same launch in a process that has two handles on record from
    an earlier launch. *)
Definition start_crowded : world nat :=
  {| jobs := jobs start_mixed; my_job := Some 1%positive;
     launched := 2; connected := true; tm := 3%nat; trace := [] |}.

Definition after_setup_crowded : world nat := start_crowded.

End LaunchExamples.

Module IfExamples.
Import PlmTm IfBsdxIpv6.

(** The values of FreeBSD: AF_INET6 is 28, IFF_UP 0x1, IFF_LOOPBACK 0x8,
    IFF_POINTOPOINT 0x10. *)
Definition global_addr : list byte :=
  [x20; x01; x0d; xb8; x00; x00; x00; x00; x00; x00; x00; x00; x00; x00; x00; x01].

Definition link_local_addr : list byte :=
  [xfe; x80; x00; x00; x00; x00; x00; x00; x00; x00; x00; x00; x00; x00; x00; x01].

Definition loopback_addr : list byte :=
  [x00; x00; x00; x00; x00; x00; x00; x00; x00; x00; x00; x00; x00; x00; x00; x01].

Definition in6 (a : list byte) (scope : Z) : sockaddr :=
  {| sa_family := 28; sin6_addr := a; sin6_scope_id := scope |}.

(** What [getifaddrs] gives on a host with a loopback device, an
    Ethernet device with an IPv4, a link-local and a global address,
    a tunnel, and a second Ethernet device that is down. *)
Definition host_addrs : list ifaddrs :=
  [ {| ifa_name := "lo0"; ifa_flags := 0x8049; ifa_addr := Some (in6 loopback_addr 0) |};
    {| ifa_name := "em0"; ifa_flags := 0x8843;
       ifa_addr := Some {| sa_family := 2; sin6_addr := []; sin6_scope_id := 0 |} |};
    {| ifa_name := "em0"; ifa_flags := 0x8843; ifa_addr := Some (in6 link_local_addr 2) |};
    {| ifa_name := "em0"; ifa_flags := 0x8843; ifa_addr := Some (in6 global_addr 0) |};
    {| ifa_name := "tun0"; ifa_flags := 0x8051; ifa_addr := Some (in6 global_addr 0) |};
    {| ifa_name := "em1"; ifa_flags := 0x8802; ifa_addr := Some (in6 global_addr 0) |} ].

Definition kernel_index (nm : string) : Z :=
  if decide (nm = "lo0") then 1 else if decide (nm = "em0") then 2 else 3.

Definition addr_text (a : list byte) : string :=
  match a with
  | x20 :: _ => "2001:db8::1"
  | xfe :: _ => "fe80::1"
  | _ => "::1"
  end.

(** The discovery on that host, loopback devices not retained, no
    allocation refused, and a framework verbosity of 1. *)
Definition host_open : list prte_if_t → option result :=
  if_bsdx_ipv6_open 28 0x1 0x8 0x10 true false (inl host_addrs) (λ _, true)
    (λ nm, nm) kernel_index 96 1 addr_text.

(** What that discovery puts out. *)
Definition host_output : list if_event :=
  [IfVerbose "searching for IPv6 interfaces" [];
   IfVerbose "skipping loopback interface %s." [ArgStr "lo0"];
   IfVerbose "skipping non-ipv6 interface %s[%d]." [ArgStr "em0"; ArgInt 2];
   IfVerbose "skipping link-local ipv6 address on interface %s with scope %d."
             [ArgStr "em0"; ArgInt 2];
   IfOutput "ipv6 capable interface %s discovered, address %s."
            [ArgStr "em0"; ArgStr "2001:db8::1"];
   IfVerbose "skipping p2p interface %s." [ArgStr "tun0"];
   IfVerbose "skipping non-up interface %s." [ArgStr "em1"]].

(** An interface the list holds already. *)
Definition first_interface : prte_if_t :=
  {| af_family := 2; if_name := "em0"; if_index := 1;
     if_addr := {| sa_family := 2; sin6_addr := []; sin6_scope_id := 0 |};
     if_mask := 24; if_flags := 0x8843; if_kernel_index := 2 |}.

Definition em0_global : prte_if_t :=
  {| af_family := 28; if_name := "em0"; if_index := 2;
     if_addr := in6 global_addr 0;
     if_mask := 64; if_flags := 0x8843; if_kernel_index := 2 |}.

End IfExamples.

(* ===================================================================== *)
(** ** Facts about the memory model                                       *)
(* ===================================================================== *)

#[global] Arguments Mem.malloc : simpl never.
#[global] Arguments Mem.free : simpl never.
#[global] Arguments Mem.realloc : simpl never.
#[global] Arguments Mem.load_bytes : simpl never.
#[global] Arguments Mem.store_bytes : simpl never.
#[global] Arguments Mem.memcpy : simpl never.
#[global] Arguments Mem.read_cstring : simpl never.
#[global] Arguments Mem.strdup : simpl never.
#[global] Arguments Mem.read_int : simpl never.
#[global] Arguments Mem.to_int32 : simpl never.
#[global] Arguments Mem.to_size_t : simpl never.

Section MemFacts.
Import Mem.

Lemma to_int32_small (z : Z) : - 2 ^ 31 ≤ z < 2 ^ 31 → to_int32 z = z.
Proof. intros Hz. unfold to_int32. rewrite Z.mod_small; lia. Qed.

Lemma to_size_t_small (z : Z) : 0 ≤ z < 2 ^ 64 → to_size_t z = z.
Proof. intros Hz. unfold to_size_t. apply Z.mod_small. done. Qed.

Lemma fresh_block_None (h : heap) : h !! fresh (dom h) = None.
Proof. apply not_elem_of_dom, is_fresh. Qed.

Lemma malloc_spec (n : Z) (h : heap) :
  malloc n h = (Ptr (fresh (dom h)) 0,
                <[fresh (dom h) := Bytes (replicate (Z.to_nat n) x00)]> h).
Proof. reflexivity. Qed.

Lemma free_block (B : block) (c : content) (h : heap) :
  h !! B = Some c → free (Ptr B 0) h = Some (delete B h).
Proof. intros Hb. unfold free. simpl. by rewrite Hb. Qed.

Lemma load_bytes_block (B : block) (ofs n : Z) (bs : list byte) (h : heap) :
  h !! B = Some (Bytes bs) →
  0 ≤ ofs → 0 ≤ n → ofs + n ≤ Z.of_nat (length bs) →
  load_bytes (Ptr B ofs) n h = Some (take (Z.to_nat n) (drop (Z.to_nat ofs) bs)).
Proof.
  intros Hb ? ? ?. unfold load_bytes. rewrite Hb. by rewrite decide_True.
Qed.

Lemma store_bytes_block (B : block) (ofs : Z) (new bs : list byte) (h : heap) :
  h !! B = Some (Bytes bs) →
  0 ≤ ofs → ofs + Z.of_nat (length new) ≤ Z.of_nat (length bs) →
  store_bytes (Ptr B ofs) new h =
    Some (<[B := Bytes (take (Z.to_nat ofs) bs ++ new ++
                        drop (Z.to_nat ofs + length new) bs)]> h).
Proof.
  intros Hb ? ?. unfold store_bytes. rewrite Hb. by rewrite decide_True.
Qed.

(** Overwriting a whole block leaves exactly the new bytes. *)
Lemma store_bytes_whole (B : block) (new bs : list byte) (h : heap) :
  h !! B = Some (Bytes bs) → length new = length bs →
  store_bytes (Ptr B 0) new h = Some (<[B := Bytes new]> h).
Proof.
  intros Hb Hlen. rewrite (store_bytes_block B 0 new bs) by (done || lia).
  do 3 f_equal. simpl. rewrite drop_ge by lia. by rewrite app_nil_r.
Qed.

Lemma length_take_drop (bs : list byte) (ofs n : Z) :
  0 ≤ ofs → 0 ≤ n → ofs + n ≤ Z.of_nat (length bs) →
  Z.of_nat (length (take (Z.to_nat n) (drop (Z.to_nat ofs) bs))) = n.
Proof. intros. rewrite length_take, length_drop. lia. Qed.

Lemma load_bytes_length (p : ptr) (n : Z) (h : heap) (bs : list byte) :
  load_bytes p n h = Some bs → Z.of_nat (length bs) = n.
Proof.
  unfold load_bytes. destruct p as [|B ofs]; [done|].
  destruct (h !! B) as [[l|]|]; try done.
  case_decide; [|done]. intros [= <-]. apply length_take_drop; lia.
Qed.

End MemFacts.

(* ===================================================================== *)
(** ** Buffer operations: load, unload                                    *)
(* ===================================================================== *)

Section BufferFacts.
Import Mem Status Buffer.

Lemma buffer_ok_destruct (h : heap) (b : prrte_buffer_t) :
  buffer_ok h b = true →
  prrte_buffer_destruct b h =
    Some (match base_ptr b with NULL => h | Ptr B _ => delete B h end).
Proof.
  unfold buffer_ok, prrte_buffer_destruct.
  destruct (base_ptr b) as [|B ofs] eqn:Hbase; [done|].
  destruct (h !! B) as [[bs|]|] eqn:HB; try done.
  destruct (unpack_ptr b) as [|B' u]; [done|].
  intros Hok%bool_decide_eq_true. destruct Hok as (-> & _).
  rewrite decide_False by done. by rewrite (free_block B (Bytes bs)).
Qed.

(** C1.  A payload region [P] of [n > 0] bytes is given to
    [prrte_dss_load]; [prrte_dss_unload] is called before anything has
    been unpacked.  Both calls succeed, and unload gives back the very
    pointer that was loaded and the length [n].  The region travels by
    reference: between the two calls and after them the heap is the
    same, so nothing was allocated, copied or released, and the block of
    [P] still holds its bytes.  The buffer ends as a freshly constructed
    empty buffer. *)
Theorem load_unload_zero_copy
    (m : mem) (a : addr) (b : prrte_buffer_t)
    (P : block) (bs : list byte) (slot : ptr) (len_slot : Z) :
  let n := Z.of_nat (length bs) in
  bufs m !! a = Some b →
  buffer_ok (blocks m) b = true →
  blocks m !! P = Some (Bytes bs) →
  base_ptr b ≠ Ptr P 0 →
  0 < n ≤ INT32_MAX →
  ∃ m1 m2,
    prrte_dss_load (Some a) (Ptr P 0) n m = Some (PRRTE_SUCCESS, m1) ∧
    prrte_dss_unload (Some a) (Some slot) len_slot m1 =
      Some (PRRTE_SUCCESS, Some (Ptr P 0), n, m2) ∧
    blocks m1 !! P = Some (Bytes bs) ∧
    blocks m2 = blocks m1 ∧
    bufs m2 !! a = Some prrte_buffer_construct.
Proof.
  intros n Ha Hok HP Hne [Hpos Hmax]. unfold INT32_MAX in Hmax.
  unfold prrte_dss_load. rewrite Ha. simpl.
  rewrite (buffer_ok_destruct _ _ Hok). simpl.
  eexists _, _. split; [reflexivity|].
  unfold prrte_dss_unload. simpl. rewrite lookup_insert_eq. simpl.
  rewrite to_size_t_small by lia.
  rewrite decide_False by (intros [?|?]; [done|lia]).
  rewrite decide_True by done.
  unfold prrte_buffer_destruct. simpl.
  rewrite to_int32_small by lia.
  split; [reflexivity|]. simpl. split; [|split; [done|]].
  - destruct (base_ptr b) as [|B ofs] eqn:Hbase; [done|].
    rewrite lookup_delete_ne; [done|].
    intros ->. apply Hne. f_equal.
    unfold buffer_ok in Hok. rewrite Hbase in Hok.
    destruct (blocks m !! P) as [[l|]|]; try done.
    destruct (unpack_ptr b); [done|].
    apply bool_decide_eq_true in Hok. tauto.
  - by rewrite insert_insert_eq, lookup_insert_eq.
Qed.

(** C5.  Some of the buffer has been unpacked: the unpack cursor is [k]
    bytes past the base, [0 < k <= bytes_used].  Unload succeeds and
    reports [bytes_used - k] bytes.  When that is zero the payload is
    null; otherwise the payload is the start of a block that was not
    live before the call, hence distinct from the buffer's region, and
    it holds exactly the unread tail.  The buffer's own region is
    released and the buffer ends as a freshly constructed one. *)
Theorem unload_partial_copies_tail
    (m : mem) (a : addr) (b : prrte_buffer_t)
    (B : block) (bs : list byte) (k : Z) (slot : ptr) (len_slot : Z) :
  let tail := take (Z.to_nat (bytes_used b - k)) (drop (Z.to_nat k) bs) in
  bufs m !! a = Some b →
  base_ptr b = Ptr B 0 →
  unpack_ptr b = Ptr B k →
  blocks m !! B = Some (Bytes bs) →
  0 < k ≤ bytes_used b →
  bytes_used b ≤ Z.of_nat (length bs) →
  bytes_used b ≤ INT32_MAX →
  ∃ payload m',
    prrte_dss_unload (Some a) (Some slot) len_slot m =
      Some (PRRTE_SUCCESS, Some payload, bytes_used b - k, m') ∧
    Z.of_nat (length tail) = bytes_used b - k ∧
    bufs m' = <[a := prrte_buffer_construct]> (bufs m) ∧
    (if decide (bytes_used b - k = 0)
     then payload = NULL ∧ blocks m' = delete B (blocks m)
     else ∃ B', payload = Ptr B' 0 ∧ B' ≠ B ∧ blocks m !! B' = None ∧
                blocks m' = <[B' := Bytes tail]> (delete B (blocks m))).
Proof.
  intros tail Ha Hbase Hunp HB [Hk0 Hk] Hlen Hmax. unfold INT32_MAX in Hmax.
  assert (Htail : Z.of_nat (length tail) = bytes_used b - k)
    by (apply length_take_drop; lia).
  unfold prrte_dss_unload. rewrite Ha. simpl.
  rewrite decide_False by (rewrite Hbase; intros [?|?]; [done|lia]).
  rewrite decide_False by (rewrite Hbase, Hunp; intros [= ?]; lia).
  rewrite Hunp, Hbase. simpl. rewrite decide_True by done. simpl.
  replace (k - 0) with k by lia.
  rewrite (to_size_t_small (bytes_used b - k)) by lia.
  rewrite (to_int32_small (bytes_used b - k)) by lia.
  unfold prrte_buffer_destruct. rewrite Hbase. simpl.
  destruct (decide (bytes_used b - k = 0)) as [Hz|Hnz]; simpl.
  - rewrite (free_block B (Bytes bs)) by done.
    eexists _, _. split; [reflexivity|]. done.
  - rewrite (to_size_t_small (bytes_used b - k)) by lia.
    rewrite ?malloc_spec.
    set (B' := fresh (dom (blocks m))).
    assert (HB' : blocks m !! B' = None) by apply fresh_block_None.
    assert (HBB : B' ≠ B) by congruence.
    unfold memcpy.
    rewrite (load_bytes_block B k _ bs) by (rewrite ?lookup_insert_ne; done || lia).
    simpl. fold tail.
    rewrite (store_bytes_whole B' tail (replicate (Z.to_nat (bytes_used b - k)) x00))
      by (rewrite ?lookup_insert_eq, ?length_replicate; done || lia).
    simpl. rewrite (free_block B (Bytes bs)) by (by rewrite !lookup_insert_ne).
    eexists _, _. split; [reflexivity|]. split; [done|]. split; [done|].
    exists B'. split; [done|]. split; [done|]. split; [done|]. simpl.
    rewrite insert_insert_eq. by rewrite delete_insert_ne.
Qed.

Lemma load_unload_zero_copy_witness :
  ∃ m1 m2,
    prrte_dss_load (Some 1%positive) (Ptr 5 0) 3 Examples.fresh_buffer_and_region
      = Some (PRRTE_SUCCESS, m1) ∧
    prrte_dss_unload (Some 1%positive) (Some NULL) 0 m1 =
      Some (PRRTE_SUCCESS, Some (Ptr 5 0), 3, m2) ∧
    blocks m1 !! 5%positive = Some (Bytes [x0a; x0b; x0c]) ∧
    blocks m2 = blocks m1 ∧
    bufs m2 !! 1%positive = Some prrte_buffer_construct.
Proof.
  apply (load_unload_zero_copy Examples.fresh_buffer_and_region 1%positive
           prrte_buffer_construct 5%positive [x0a; x0b; x0c] NULL 0).
  - reflexivity.
  - reflexivity.
  - reflexivity.
  - discriminate.
  - vm_compute. split; [reflexivity | discriminate].
Defined.

Lemma unload_partial_copies_tail_witness :
  ∃ payload m',
    prrte_dss_unload (Some 1%positive) (Some NULL) 0 Examples.half_read_and_fresh =
      Some (PRRTE_SUCCESS, Some payload, 2, m') ∧
    Z.of_nat (length [x0b; x0c]) = 2 ∧
    bufs m' = <[1%positive := prrte_buffer_construct]>
                (bufs Examples.half_read_and_fresh) ∧
    ∃ B', payload = Ptr B' 0 ∧ B' ≠ 5%positive ∧
          blocks Examples.half_read_and_fresh !! B' = None ∧
          blocks m' = <[B' := Bytes [x0b; x0c]]>
                        (delete 5%positive (blocks Examples.half_read_and_fresh)).
Proof.
  apply (unload_partial_copies_tail Examples.half_read_and_fresh 1%positive
           Examples.half_read 5%positive [x0a; x0b; x0c] 1 NULL 0).
  - reflexivity.
  - reflexivity.
  - reflexivity.
  - reflexivity.
  - vm_compute. split; [reflexivity | discriminate].
  - vm_compute. discriminate.
  - vm_compute. discriminate.
Defined.

End BufferFacts.

(* ===================================================================== *)
(** ** Buffer operations: copy_payload                                    *)
(* ===================================================================== *)

Section CopyPayloadFacts.
Import Mem Status Buffer.

(** What [buffer_ok] says, case by case. *)
Lemma buffer_ok_inv (h : heap) (b : prrte_buffer_t) :
  buffer_ok h b = true →
  (base_ptr b = NULL ∧ pack_ptr b = NULL ∧ unpack_ptr b = NULL ∧
   bytes_allocated b = 0 ∧ bytes_used b = 0) ∨
  (∃ B bs u,
     base_ptr b = Ptr B 0 ∧ h !! B = Some (Bytes bs) ∧
     unpack_ptr b = Ptr B u ∧ pack_ptr b = Ptr B (bytes_used b) ∧
     0 ≤ u ≤ bytes_used b ∧ bytes_used b ≤ bytes_allocated b ∧
     bytes_allocated b ≤ Z.of_nat (length bs) ∧ bytes_allocated b ≤ INT32_MAX).
Proof.
  unfold buffer_ok. destruct (base_ptr b) as [|B ofs].
  - intros H%bool_decide_eq_true. by left.
  - destruct (h !! B) as [[bs|]|] eqn:HB; try done.
    destruct (unpack_ptr b) as [|B' u]; [done|].
    intros H%bool_decide_eq_true. right.
    destruct H as (-> & -> & ? & ? & ? & ? & ?). by exists B, bs, u.
Qed.

Lemma buffer_ok_block (h : heap) (b : prrte_buffer_t) (B : block)
    (bs : list byte) (u : Z) :
  base_ptr b = Ptr B 0 → h !! B = Some (Bytes bs) →
  unpack_ptr b = Ptr B u → pack_ptr b = Ptr B (bytes_used b) →
  0 ≤ u ≤ bytes_used b → bytes_used b ≤ bytes_allocated b →
  bytes_allocated b ≤ Z.of_nat (length bs) → bytes_allocated b ≤ INT32_MAX →
  buffer_ok h b = true.
Proof.
  intros Hb HB Hu Hp ? ? ? ?. unfold buffer_ok. rewrite Hb, HB, Hu.
  by apply bool_decide_eq_true.
Qed.

(** [buffer_ok] and the two views of the contents only look at the
    block of the base pointer. *)
Lemma buffer_ok_frame (h h' : heap) (b : prrte_buffer_t) :
  (∀ B ofs, base_ptr b = Ptr B ofs → h' !! B = h !! B) →
  buffer_ok h' b = buffer_ok h b.
Proof.
  intros Hfr. unfold buffer_ok. destruct (base_ptr b) as [|B ofs]; [done|].
  by rewrite (Hfr B ofs).
Qed.

Lemma load_bytes_frame (h h' : heap) (B : block) (ofs n : Z) :
  h' !! B = h !! B → load_bytes (Ptr B ofs) n h' = load_bytes (Ptr B ofs) n h.
Proof. intros Hfr. unfold load_bytes. by rewrite Hfr. Qed.

Lemma packed_bytes_frame (m m' : mem) (b : prrte_buffer_t) :
  (∀ B ofs, base_ptr b = Ptr B ofs → blocks m' !! B = blocks m !! B) →
  packed_bytes m' b = packed_bytes m b.
Proof.
  intros Hfr. unfold packed_bytes. case_decide; [done|].
  destruct (base_ptr b) as [|B ofs]; [done|]. by apply load_bytes_frame, (Hfr B ofs).
Qed.

Lemma unread_bytes_frame (m m' : mem) (b : prrte_buffer_t) :
  buffer_ok (blocks m) b = true →
  (∀ B ofs, base_ptr b = Ptr B ofs → blocks m' !! B = blocks m !! B) →
  unread_bytes m' b = unread_bytes m b.
Proof.
  intros Hok Hfr. unfold unread_bytes. case_decide; [done|].
  destruct (buffer_ok_inv _ _ Hok) as [(? & _)|(B & bs & u & Hb & _ & Hu & _)];
    [done|].
  rewrite Hu, Hb. simpl. rewrite decide_True by done. simpl.
  by apply load_bytes_frame, (Hfr B 0).
Qed.

(** The length of the unread tail is the used length minus the
    distance of the unpack cursor from the base. *)
Lemma unread_bytes_ok (m : mem) (b : prrte_buffer_t) :
  buffer_ok (blocks m) b = true →
  ∃ off tail,
    ptr_diff (unpack_ptr b) (base_ptr b) = Some off ∧
    0 ≤ off ≤ bytes_used b ∧
    unread_bytes m b = Some tail ∧
    Z.of_nat (length tail) = bytes_used b - off ∧
    (bytes_used b - off ≠ 0 →
     load_bytes (unpack_ptr b) (bytes_used b - off) (blocks m) = Some tail).
Proof.
  intros Hok. unfold unread_bytes.
  destruct (buffer_ok_inv _ _ Hok)
    as [(Hb & _ & Hu & _ & Hused)|(B & bs & u & Hb & HB & Hu & _ & ? & ? & ? & _)].
  - exists 0, []. rewrite Hb, Hu, Hused. simpl. repeat split; done.
  - rewrite Hb, Hu. rewrite decide_False by done. simpl.
    rewrite decide_True by done. simpl. replace (u - 0) with u by lia.
    rewrite (load_bytes_block B u _ bs) by (done || lia).
    eexists u, _. repeat split; try done; try lia.
    + apply length_take_drop; lia.
    + intros _. apply load_bytes_block; done || lia.
Qed.

Lemma packed_bytes_ok (m : mem) (b : prrte_buffer_t) :
  buffer_ok (blocks m) b = true →
  ∃ old, packed_bytes m b = Some old ∧ Z.of_nat (length old) = bytes_used b.
Proof.
  intros Hok. unfold packed_bytes.
  destruct (buffer_ok_inv _ _ Hok)
    as [(Hb & _ & _ & _ & Hused)|(B & bs & u & Hb & HB & _ & _ & ? & ? & ? & _)].
  - exists []. rewrite Hb, Hused. done.
  - rewrite Hb. rewrite decide_False by done.
    rewrite (load_bytes_block B 0 _ bs) by (done || lia).
    eexists. split; [done|]. apply length_take_drop; lia.
Qed.

(** What the extension of a well-formed buffer by [n > 0] bytes does:
    the contents move to a block that was not live, the old region is
    released, the capacity grows by [n], the packed bytes are kept and
    the result points just behind them. *)
Lemma buffer_extend_ok (m : mem) (d : addr) (db : prrte_buffer_t) (n : Z) :
  bufs m !! d = Some db →
  buffer_ok (blocks m) db = true →
  0 < n → bytes_allocated db + n ≤ INT32_MAX →
  ∃ B' new off,
    blocks m !! B' = None ∧
    ptr_diff (unpack_ptr db) (base_ptr db) = Some off ∧
    0 ≤ off ≤ bytes_used db ∧
    prrte_dss_buffer_extend d n m =
      Some (Ptr B' (bytes_used db),
            {| bufs := <[d := {| type := type db;
                                 base_ptr := Ptr B' 0;
                                 pack_ptr := Ptr B' (bytes_used db);
                                 unpack_ptr := Ptr B' off;
                                 bytes_allocated := bytes_allocated db + n;
                                 bytes_used := bytes_used db |}]> (bufs m);
               blocks := <[B' := Bytes new]>
                           (match base_ptr db with
                            | NULL => blocks m
                            | Ptr Bd _ => delete Bd (blocks m)
                            end) |}) ∧
    Z.of_nat (length new) = bytes_allocated db + n ∧
    (∀ old, packed_bytes m db = Some old →
            take (Z.to_nat (bytes_used db)) new = old).
Proof.
  intros Hd Hok Hn Hmax. unfold INT32_MAX in Hmax.
  unfold prrte_dss_buffer_extend. rewrite Hd. simpl.
  set (B' := fresh (dom (blocks m))).
  assert (HB' : blocks m !! B' = None) by apply fresh_block_None.
  destruct (buffer_ok_inv _ _ Hok)
    as [(Hb & Hp & Hu & Ha & Hused)
       |(B & bs & u & Hb & HB & Hu & Hp & ? & ? & ? & ?)].
  - rewrite Hb, Hp, Hu, Ha, Hused. simpl.
    rewrite to_size_t_small by lia.
    unfold realloc. rewrite ?malloc_spec.
    fold B'. simpl.
    eexists B', _, 0. split; [done|]. split; [done|]. split; [lia|].
    split; [reflexivity|]. rewrite length_replicate. split; [lia|].
    intros old. unfold packed_bytes. rewrite Hb. simpl. by intros [= <-].
  - unfold INT32_MAX in *.
    rewrite Hb, Hp, Hu. simpl. rewrite !decide_True by done. simpl.
    rewrite to_size_t_small by lia.
    unfold realloc. rewrite HB. simpl.
    fold B'. simpl.
    replace (bytes_used db - 0) with (bytes_used db) by lia.
    replace (u - 0) with u by lia.
    eexists B', _, u. split; [done|]. split; [done|]. split; [lia|].
    split; [reflexivity|]. split.
    + rewrite length_app, length_replicate, length_take. lia.
    + intros old. unfold packed_bytes. rewrite Hb.
      rewrite decide_False by done.
      rewrite (load_bytes_block B 0 _ bs) by (done || lia).
      intros [= <-]. simpl. rewrite drop_0.
      rewrite take_app_le by (rewrite length_take; lia).
      rewrite take_take. f_equal. lia.
Qed.

Lemma release_insert_frame (h : heap) (pd : ptr) (B' B : block) (c cB : content) :
  h !! B' = None → h !! B = Some cB →
  (∀ ofs, pd ≠ Ptr B ofs) →
  (<[B' := c]> (match pd with NULL => h | Ptr Bd _ => delete Bd h end)) !! B
  = h !! B.
Proof.
  intros HB' HB Hne.
  rewrite lookup_insert_ne by congruence.
  destruct pd as [|Bd ofs]; [done|].
  rewrite lookup_delete_ne; [done|]. intros ->. by apply (Hne ofs).
Qed.

(** One call of copy_payload on two distinct well-formed buffers with
    separate backing regions, and what it establishes for the next. *)
Lemma copy_payload_step (m : mem) (d s : addr) (db sb : prrte_buffer_t)
    (old tail : list byte) :
  d ≠ s →
  bufs m !! d = Some db → bufs m !! s = Some sb →
  buffer_ok (blocks m) db = true → buffer_ok (blocks m) sb = true →
  (base_ptr db = NULL ∨ base_ptr db ≠ base_ptr sb) →
  (bytes_used db = 0 ∨ type db = type sb) →
  packed_bytes m db = Some old → unread_bytes m sb = Some tail →
  bytes_allocated db + Z.of_nat (length tail) ≤ INT32_MAX →
  ∃ m1 db1,
    prrte_dss_copy_payload (Some d) (Some s) m = Some (PRRTE_SUCCESS, m1) ∧
    bufs m1 = <[d := db1]> (bufs m) ∧
    type db1 = type sb ∧
    packed_bytes m1 db1 = Some (old ++ tail) ∧
    unread_bytes m1 sb = Some tail ∧
    packed_bytes m1 sb = packed_bytes m sb ∧
    buffer_ok (blocks m1) db1 = true ∧
    buffer_ok (blocks m1) sb = true ∧
    (base_ptr db1 = NULL ∨ base_ptr db1 ≠ base_ptr sb) ∧
    bytes_allocated db1 = bytes_allocated db + Z.of_nat (length tail) ∧
    (tail = [] →
       blocks m1 = blocks m ∧
       db1 = {| type := type sb; base_ptr := base_ptr db; pack_ptr := pack_ptr db;
                unpack_ptr := unpack_ptr db;
                bytes_allocated := bytes_allocated db;
                bytes_used := bytes_used db |}).
Proof.
  intros Hds Hd Hs Hokd Hoks Hdisj Hty Hold Htail Hmax.
  destruct (unread_bytes_ok m sb Hoks) as (off & tail' & Hoff & Hoffr & Htail' & Hlen & Hload).
  rewrite Htail in Htail'. injection Htail' as <-.
  destruct (packed_bytes_ok m db Hokd) as (old' & Hold' & Holdlen).
  rewrite Hold in Hold'. injection Hold' as <-.
  assert (Hsmax : bytes_used sb ≤ INT32_MAX).
  { destruct (buffer_ok_inv _ _ Hoks) as [(_ & _ & _ & _ & ->)|(? & ? & ? & _ & _ & _ & _ & ? & ? & ? & ?)];
      unfold INT32_MAX in *; lia. }
  assert (Hdused : 0 ≤ bytes_used db ≤ bytes_allocated db).
  { destruct (buffer_ok_inv _ _ Hokd) as [(_ & _ & _ & -> & ->)|(? & ? & ? & _ & _ & _ & _ & ? & ? & ? & ?)];
      lia. }
  unfold INT32_MAX in Hmax, Hsmax.
  unfold prrte_dss_copy_payload. rewrite Hd, Hs. simpl.
  rewrite decide_False by (intros [? ?]; destruct Hty; done).
  rewrite lookup_insert_ne by done. rewrite Hs. simpl. rewrite Hoff. simpl.
  rewrite (to_size_t_small (bytes_used sb - off)) by lia.
  rewrite (to_int32_small (bytes_used sb - off)) by lia.
  set (db1 := {| type := type sb; base_ptr := base_ptr db; pack_ptr := pack_ptr db;
                 unpack_ptr := unpack_ptr db;
                 bytes_allocated := bytes_allocated db;
                 bytes_used := bytes_used db |}).
  set (m1 := {| bufs := <[d := db1]> (bufs m); blocks := blocks m |}).
  assert (Hokd1 : buffer_ok (blocks m1) db1 = true) by exact Hokd.
  destruct (decide (bytes_used sb - off = 0)) as [Hz|Hnz].
  - (* nothing is left *)
    assert (tail = []) as -> by (apply length_zero_iff_nil; lia).
    exists m1, db1. rewrite app_nil_r. simpl. rewrite Z.add_0_r.
    repeat split; done.
  - specialize (Hload Hnz).
    rewrite (to_size_t_small (bytes_used sb - off)) by lia.
    assert (Hd1 : bufs m1 !! d = Some db1) by (simpl; apply lookup_insert_eq).
    destruct (buffer_extend_ok m1 d db1 (bytes_used sb - off) Hd1 Hokd1)
      as (B' & new & offd & HB' & _ & Hoffd & Hext & Hnewlen & Hkeep); [lia|unfold INT32_MAX; simpl; lia|].
    simpl in HB', Hoffd, Hnewlen.
    rewrite Hext. clear Hext. simpl.
    rewrite insert_insert_eq. rewrite (lookup_insert_ne _ d s) by done. rewrite Hs. simpl.
    (* the source region is live, it is neither the new block nor the
       released one *)
    assert (Hsrc : ∃ Bs bss us, base_ptr sb = Ptr Bs 0 ∧ unpack_ptr sb = Ptr Bs us ∧
                                blocks m !! Bs = Some (Bytes bss)).
    { destruct (buffer_ok_inv _ _ Hoks) as [(Hb & _ & Hu & _ & Hused)|(Bs & bss & us & ? & ? & ? & _)].
      - rewrite Hb, Hu in Hoff. simpl in Hoff. injection Hoff as <-. lia.
      - by exists Bs, bss, us. }
    destruct Hsrc as (Bs & bss & us & Hsb & Hsu & HBs).
    assert (Hfr : ∀ c, (<[B' := c]> (match base_ptr db with
                                    | NULL => blocks m
                                    | Ptr Bd _ => delete Bd (blocks m)
                                    end)) !! Bs = blocks m !! Bs).
    { intros c. apply (release_insert_frame _ _ _ _ _ (Bytes bss)); [done|done|].
      intros ofs Heq. destruct Hdisj as [Hnull|Hne]; [congruence|].
      destruct (buffer_ok_inv _ _ Hokd) as [(Hb & _)|(Bd & ? & ? & Hb & _)]; congruence. }
    unfold memcpy. rewrite Hsu in *.
    rewrite (load_bytes_frame (blocks m)) by apply Hfr.
    rewrite Hload. simpl.
    rewrite (store_bytes_block B' _ tail new) by (rewrite ?lookup_insert_eq; done || lia).
    simpl. rewrite lookup_insert_eq. simpl.
    rewrite !insert_insert_eq.
    rewrite (to_size_t_small (bytes_used db + (bytes_used sb - off))) by lia.
    assert (Hkeep' : take (Z.to_nat (bytes_used db)) new = old) by (by apply Hkeep).
    rewrite Hkeep'.
    eexists _, _. split; [reflexivity|]. simpl.
    split; [done|]. split; [done|].
    assert (Hnewblk : Z.of_nat (length (old ++ tail ++
               drop (Z.to_nat (bytes_used db) + length tail) new))
             = bytes_allocated db + (bytes_used sb - off)).
    { rewrite !length_app, length_drop. lia. }
    split; [|split; [|split; [|split; [|split; [|split; [|split]]]]]].
    + unfold packed_bytes. simpl.
      rewrite (load_bytes_block B' 0 _ _ _ (lookup_insert_eq _ _ _)) by lia.
      f_equal. rewrite drop_0, app_assoc.
      apply take_app_length'. rewrite length_app. lia.
    + rewrite <- Htail. apply unread_bytes_frame; [done|].
      intros B ofs. rewrite Hsb. intros [= <- <-]. simpl. apply Hfr.
    + apply packed_bytes_frame.
      intros B ofs. rewrite Hsb. intros [= <- <-]. simpl. apply Hfr.
    + eapply (buffer_ok_block _ _ B' _ offd); simpl;
        first [done | apply lookup_insert_eq | lia | unfold INT32_MAX; lia].
    + rewrite <- Hoks. apply buffer_ok_frame.
      intros B ofs. rewrite Hsb. intros [= <- <-]. simpl. apply Hfr.
    + right. simpl. rewrite Hsb. intros [= ->]. congruence.
    + simpl. lia.
    + intros ->. simpl in *. lia.
Qed.

(** The unread bytes are what is left of the packed bytes behind the
    consumed prefix. *)
Lemma unread_is_suffix (m : mem) (b : prrte_buffer_t) (off : Z)
    (all tail : list byte) :
  buffer_ok (blocks m) b = true →
  ptr_diff (unpack_ptr b) (base_ptr b) = Some off →
  packed_bytes m b = Some all → unread_bytes m b = Some tail →
  tail = drop (Z.to_nat off) all.
Proof.
  intros Hok Hoff. unfold packed_bytes, unread_bytes. rewrite Hoff.
  destruct (buffer_ok_inv _ _ Hok)
    as [(Hb & _)|(B & bs & u & Hb & HB & Hu & _ & ? & ? & ? & _)].
  - rewrite Hb. simpl. intros [= <-] [= <-]. by rewrite drop_nil.
  - rewrite Hb, Hu in *. simpl in Hoff. rewrite decide_True in Hoff by done.
    injection Hoff as <-. rewrite decide_False by done. simpl.
    rewrite (load_bytes_block B 0 _ bs) by (done || lia).
    rewrite (load_bytes_block B u _ bs) by (done || lia).
    intros [= <-] [= <-]. rewrite drop_0.
    replace (Z.to_nat (u - 0)) with (Z.to_nat u) by lia.
    rewrite take_drop_commute. do 2 f_equal. lia.
Qed.

(** C6, as the code has it.  copy_payload returns BAD_PARAM when
    either argument is null.  When [dest] already holds data and its
    declared type differs from that of [src], the call fails with the
    status PRRTE_ERR_BUFFER, and the whole state is the one before the
    call: [dest] keeps its contents, cursors, counts and type. *)
Theorem copy_payload_rejects (m : mem) :
  (∀ src, prrte_dss_copy_payload None src m = Some (PRRTE_ERR_BAD_PARAM, m)) ∧
  (∀ dest, prrte_dss_copy_payload dest None m = Some (PRRTE_ERR_BAD_PARAM, m)) ∧
  (∀ d s db sb,
     bufs m !! d = Some db → bufs m !! s = Some sb →
     bytes_used db ≠ 0 → type db ≠ type sb →
     prrte_dss_copy_payload (Some d) (Some s) m = Some (PRRTE_ERR_BUFFER, m)).
Proof.
  split; [done|]. split; [by intros [d|]|].
  intros d s db sb Hd Hs Hused Hty.
  unfold prrte_dss_copy_payload. rewrite Hd, Hs. simpl.
  by rewrite decide_True.
Qed.

Lemma copy_payload_rejects_witness :
  prrte_dss_copy_payload None (Some 1%positive) Examples.all_read_and_others
    = Some (PRRTE_ERR_BAD_PARAM, Examples.all_read_and_others) ∧
  prrte_dss_copy_payload (Some 1%positive) None Examples.all_read_and_others
    = Some (PRRTE_ERR_BAD_PARAM, Examples.all_read_and_others) ∧
  prrte_dss_copy_payload (Some 3%positive) (Some 1%positive) Examples.all_read_and_others
    = Some (PRRTE_ERR_BUFFER, Examples.all_read_and_others).
Proof.
  destruct (copy_payload_rejects Examples.all_read_and_others) as (H1 & H2 & H3).
  split; [apply H1|]. split; [apply H2|].
  apply (H3 3%positive 1%positive Examples.two_bytes Examples.all_read).
  - reflexivity.
  - reflexivity.
  - discriminate.
  - discriminate.
Defined.

(** C6 as the claim has it fails in the status it names: buffer 3
    holds two bytes of type 0 and buffer 1 is of type 1; the call
    refuses the copy and leaves the state alone, but what it returns is
    PRRTE_ERR_BUFFER, not PRRTE_ERR_TYPE_MISMATCH. *)
Lemma copy_payload_type_conflict_is_buffer_error :
  bufs Examples.all_read_and_others !! 3%positive = Some Examples.two_bytes ∧
  bufs Examples.all_read_and_others !! 1%positive = Some Examples.all_read ∧
  bytes_used Examples.two_bytes ≠ 0 ∧
  type Examples.two_bytes ≠ type Examples.all_read ∧
  ∃ st m',
    prrte_dss_copy_payload (Some 3%positive) (Some 1%positive)
      Examples.all_read_and_others = Some (st, m') ∧
    st = PRRTE_ERR_BUFFER ∧
    st ≠ PRRTE_ERR_TYPE_MISMATCH.
Proof.
  split; [reflexivity|]. split; [reflexivity|].
  split; [discriminate|]. split; [discriminate|].
  eexists _, _. split; [reflexivity|]. split; [reflexivity|discriminate].
Qed.

(** C7, as the code has it.  [dest] and [src] are two distinct
    well-formed buffers with separate backing regions, and [dest] is
    empty or of the type of [src].  The call succeeds; the packed bytes
    of [dest] become the old ones followed by the unread tail of [src],
    which is the part of the packed bytes of [src] behind the consumed
    prefix; the type of [dest] becomes that of [src].  [src] is not
    changed: neither its structure nor its bytes.  When [src] is fully
    consumed nothing is copied: the heap and every member of [dest]
    but the type tag are as before, and the tag is that of [src].  A
    second call, [src] not having advanced, appends the same tail
    again. *)
Theorem copy_payload_appends_unread_tail
    (m : mem) (d s : addr) (db sb : prrte_buffer_t) (old all tail : list byte) :
  d ≠ s →
  bufs m !! d = Some db → bufs m !! s = Some sb →
  buffer_ok (blocks m) db = true → buffer_ok (blocks m) sb = true →
  (base_ptr db = NULL ∨ base_ptr db ≠ base_ptr sb) →
  (bytes_used db = 0 ∨ type db = type sb) →
  packed_bytes m db = Some old →
  packed_bytes m sb = Some all → unread_bytes m sb = Some tail →
  bytes_allocated db + 2 * Z.of_nat (length tail) ≤ INT32_MAX →
  ∃ off m1 db1 m2 db2,
    (* the tail is what follows the consumed prefix *)
    ptr_diff (unpack_ptr sb) (base_ptr sb) = Some off ∧
    tail = drop (Z.to_nat off) all ∧
    (* first call *)
    prrte_dss_copy_payload (Some d) (Some s) m = Some (PRRTE_SUCCESS, m1) ∧
    bufs m1 !! d = Some db1 ∧
    type db1 = type sb ∧
    packed_bytes m1 db1 = Some (old ++ tail) ∧
    bufs m1 !! s = Some sb ∧
    packed_bytes m1 sb = Some all ∧ unread_bytes m1 sb = Some tail ∧
    (tail = [] →
       blocks m1 = blocks m ∧
       db1 = {| type := type sb; base_ptr := base_ptr db; pack_ptr := pack_ptr db;
                unpack_ptr := unpack_ptr db;
                bytes_allocated := bytes_allocated db;
                bytes_used := bytes_used db |}) ∧
    (* second call *)
    prrte_dss_copy_payload (Some d) (Some s) m1 = Some (PRRTE_SUCCESS, m2) ∧
    bufs m2 !! d = Some db2 ∧
    packed_bytes m2 db2 = Some (old ++ tail ++ tail) ∧
    bufs m2 !! s = Some sb ∧
    packed_bytes m2 sb = Some all ∧ unread_bytes m2 sb = Some tail.
Proof.
  intros Hds Hd Hs Hokd Hoks Hdisj Hty Hold Hall Htail Hmax.
  destruct (unread_bytes_ok m sb Hoks) as (off & tail' & Hoff & _ & _).
  destruct (copy_payload_step m d s db sb old tail)
    as (m1 & db1 & Hcall1 & Hbufs1 & Hty1 & Hpk1 & Hun1 & Hsrc1 & Hokd1 & Hoks1
        & Hdisj1 & Halloc1 & Hnil); try done; [lia|].
  assert (Hd1 : bufs m1 !! d = Some db1) by (rewrite Hbufs1; apply lookup_insert_eq).
  assert (Hs1 : bufs m1 !! s = Some sb) by (by rewrite Hbufs1, lookup_insert_ne).
  destruct (copy_payload_step m1 d s db1 sb (old ++ tail) tail)
    as (m2 & db2 & Hcall2 & Hbufs2 & Hty2 & Hpk2 & Hun2 & Hsrc2 & _);
    try done; [by right|lia|].
  exists off, m1, db1, m2, db2.
  split; [done|]. split; [by apply (unread_is_suffix m sb)|].
  repeat (split; [done|]).
  split; [congruence|]. split; [done|]. split; [done|]. split; [done|].
  split; [rewrite Hbufs2; apply lookup_insert_eq|].
  split; [by rewrite <- app_assoc in Hpk2|].
  split; [by rewrite Hbufs2, lookup_insert_ne|].
  split; [congruence|done].
Qed.

Lemma copy_payload_appends_unread_tail_witness :
  ∃ off m1 db1 m2 db2,
    ptr_diff (Ptr 5 1) (Ptr 5 0) = Some off ∧
    [x0b; x0c] = drop (Z.to_nat off) [x0a; x0b; x0c] ∧
    prrte_dss_copy_payload (Some 2%positive) (Some 1%positive)
      Examples.half_read_and_fresh = Some (PRRTE_SUCCESS, m1) ∧
    bufs m1 !! 2%positive = Some db1 ∧
    type db1 = 1 ∧
    packed_bytes m1 db1 = Some [x0b; x0c] ∧
    bufs m1 !! 1%positive = Some Examples.half_read ∧
    packed_bytes m1 Examples.half_read = Some [x0a; x0b; x0c] ∧
    unread_bytes m1 Examples.half_read = Some [x0b; x0c] ∧
    ([x0b; x0c] = [] →
       blocks m1 = blocks Examples.half_read_and_fresh ∧
       db1 = {| type := 1; base_ptr := NULL; pack_ptr := NULL; unpack_ptr := NULL;
                bytes_allocated := 0; bytes_used := 0 |}) ∧
    prrte_dss_copy_payload (Some 2%positive) (Some 1%positive) m1
      = Some (PRRTE_SUCCESS, m2) ∧
    bufs m2 !! 2%positive = Some db2 ∧
    packed_bytes m2 db2 = Some [x0b; x0c; x0b; x0c] ∧
    bufs m2 !! 1%positive = Some Examples.half_read ∧
    packed_bytes m2 Examples.half_read = Some [x0a; x0b; x0c] ∧
    unread_bytes m2 Examples.half_read = Some [x0b; x0c].
Proof.
  apply (copy_payload_appends_unread_tail Examples.half_read_and_fresh
           2%positive 1%positive prrte_buffer_construct Examples.half_read
           [] [x0a; x0b; x0c] [x0b; x0c]).
  - discriminate.
  - reflexivity.
  - reflexivity.
  - reflexivity.
  - reflexivity.
  - left. reflexivity.
  - left. reflexivity.
  - reflexivity.
  - reflexivity.
  - reflexivity.
  - vm_compute. discriminate.
Defined.

(** C7 as the claim has it fails where it calls the copy from a fully
    consumed [src] a no-op: buffer 2 is empty and of type 0, buffer 1 is
    of type 1 and entirely unpacked; the call succeeds and buffer 2 is
    of type 1 afterwards. *)
Lemma copy_payload_consumed_src_retypes_dest :
  unread_bytes Examples.all_read_and_others Examples.all_read = Some [] ∧
  bufs Examples.all_read_and_others !! 2%positive = Some prrte_buffer_construct ∧
  type prrte_buffer_construct = 0 ∧
  ∃ m',
    prrte_dss_copy_payload (Some 2%positive) (Some 1%positive)
      Examples.all_read_and_others = Some (PRRTE_SUCCESS, m') ∧
    type <$> bufs m' !! 2%positive = Some 1 ∧
    m' ≠ Examples.all_read_and_others.
Proof.
  split; [reflexivity|]. split; [reflexivity|]. split; [reflexivity|].
  eexists. split; [vm_compute; reflexivity|]. split; [reflexivity|].
  intros Heq. apply (f_equal (λ m, type <$> bufs m !! 2%positive)) in Heq.
  vm_compute in Heq. discriminate.
Qed.

End CopyPayloadFacts.

(* ===================================================================== *)
(** ** Integer objects and their bytes                                    *)
(* ===================================================================== *)

Section IntFacts.
Import Mem.

Lemma byte_to_Z_range (c : byte) : 0 ≤ byte_to_Z c < 256.
Proof.
  unfold byte_to_Z. pose proof (Byte.to_N_bounded c) as H.
  split; [apply N2Z.is_nonneg|]. apply N2Z.inj_le in H. simpl in H. lia.
Qed.

Lemma byte_of_to_Z (c : byte) (z : Z) : byte_of_Z (byte_to_Z c + 256 * z) = c.
Proof.
  unfold byte_of_Z.
  replace ((byte_to_Z c + 256 * z) mod 256) with (byte_to_Z c).
  - unfold byte_to_Z. rewrite N2Z.id. by rewrite Byte.of_to_N.
  - pose proof (byte_to_Z_range c).
    rewrite (Z.mul_comm 256 z), Z.mod_add by lia. by rewrite Z.mod_small.
Qed.

Lemma byte_of_Z_shift (z k : Z) : byte_of_Z (z + 256 * k) = byte_of_Z z.
Proof.
  unfold byte_of_Z. by rewrite (Z.mul_comm 256 k), Z.mod_add by lia.
Qed.

Lemma encode_decode_le (bs : list byte) :
  encode_le (length bs) (decode_le bs) = bs.
Proof.
  induction bs as [|c bs IH]; [done|]. simpl.
  rewrite byte_of_to_Z. f_equal.
  pose proof (byte_to_Z_range c).
  replace ((byte_to_Z c + 256 * decode_le bs) / 256) with (decode_le bs); [done|].
  rewrite (Z.mul_comm 256), Z.div_add by lia.
  rewrite Z.div_small by lia. lia.
Qed.

(** Only the low [w] bytes of a number are encoded. *)
Lemma encode_le_shift (w : nat) (z k : Z) :
  encode_le w (z + k * 256 ^ Z.of_nat w) = encode_le w z.
Proof.
  revert z k. induction w as [|w IH]; intros z k; [done|].
  simpl encode_le.
  replace (256 ^ Z.of_nat (S w)) with (256 * 256 ^ Z.of_nat w)
    by (rewrite Nat2Z.inj_succ, Z.pow_succ_r by lia; done).
  replace (z + k * (256 * 256 ^ Z.of_nat w)) with (z + 256 * (k * 256 ^ Z.of_nat w)) by lia.
  rewrite byte_of_Z_shift. f_equal.
  rewrite (Z.mul_comm 256), Z.div_add by lia. apply IH.
Qed.

Lemma encode_le_to_signed (w : nat) (u : Z) :
  encode_le w (to_signed w u) = encode_le w u.
Proof.
  unfold to_signed. case_decide; [done|].
  replace (2 ^ (8 * Z.of_nat w)) with (256 ^ Z.of_nat w)
    by (rewrite Z.pow_mul_r by lia; done).
  replace (u - 256 ^ Z.of_nat w) with (u + (-1) * 256 ^ Z.of_nat w) by lia.
  apply encode_le_shift.
Qed.

(** Reading an integer object and writing the value back gives the
    bytes that were read. *)
Lemma read_int_encode (sg : bool) (w : nat) (p : ptr) (h : heap) (bs : list byte) :
  load_bytes p (Z.of_nat w) h = Some bs →
  ∃ v, read_int sg w p h = Some v ∧ encode_le w v = bs.
Proof.
  intros Hload. unfold read_int. rewrite Hload. simpl.
  pose proof (load_bytes_length _ _ _ _ Hload) as Hlen.
  assert (w = length bs) as -> by lia.
  eexists. split; [done|].
  destruct sg; [rewrite encode_le_to_signed|]; apply encode_decode_le.
Qed.

Lemma length_encode_le (w : nat) (z : Z) : length (encode_le w z) = w.
Proof. revert z. induction w as [|w IH]; intros z; simpl; [done|]. by rewrite IH. Qed.

(** Storing where a load of the same width succeeds, and loading it
    back. *)
Lemma store_then_load (p : ptr) (bs : list byte) (h : heap) :
  is_Some (load_bytes p (Z.of_nat (length bs)) h) →
  ∃ h', store_bytes p bs h = Some h' ∧
        load_bytes p (Z.of_nat (length bs)) h' = Some bs.
Proof.
  intros [old Hold]. unfold load_bytes, store_bytes in *.
  destruct p as [|B ofs]; [done|].
  destruct (h !! B) as [[l|]|] eqn:HB; try done.
  case_decide as Hr; [|done]. destruct Hr as (? & ? & ?).
  rewrite decide_True by lia.
  eexists. split; [done|]. rewrite lookup_insert_eq.
  rewrite decide_True
    by (rewrite !length_app, length_take, length_drop; lia).
  f_equal. rewrite drop_app_length' by (rewrite length_take; lia).
  by rewrite Nat2Z.id, take_app_length.
Qed.

(** A load of [a + b] bytes is a load of [a] bytes and one of [b]
    bytes behind it. *)
Lemma load_bytes_split (p : ptr) (a b : Z) (h : heap) (bs : list byte) :
  0 ≤ a → 0 ≤ b →
  load_bytes p (a + b) h = Some bs →
  load_bytes p a h = Some (take (Z.to_nat a) bs) ∧
  load_bytes (ptr_add p a) b h = Some (drop (Z.to_nat a) bs).
Proof.
  intros Ha Hb. unfold load_bytes. destruct p as [|B ofs]; [done|]. simpl.
  destruct (h !! B) as [[l|]|]; try done.
  case_decide as Hr; [|done]. intros [= <-].
  rewrite !decide_True by lia. split; f_equal.
  - rewrite take_take. f_equal. lia.
  - replace (Z.to_nat (a + b)) with (Z.to_nat a + Z.to_nat b)%nat by lia.
    rewrite <- take_drop_commute, drop_drop.
    do 2 f_equal. lia.
Qed.

End IntFacts.

(* ===================================================================== *)
(** ** Typed values: load, unload, transfer                               *)
(* ===================================================================== *)

#[global] Arguments Mem.encode_le : simpl never.
#[global] Arguments Mem.decode_le : simpl never.
#[global] Arguments Value.timeval_bytes : simpl never.
#[global] Arguments Value.load_scalar : simpl never.
#[global] Arguments Value.unload_scalar : simpl never.
#[global] Arguments Value.dup_bo : simpl never.
#[global] Arguments Value.read_bo : simpl never.
#[global] Arguments Value.write_bo : simpl never.
#[global] Arguments Value.free_if_set : simpl never.
#[global] Arguments Value.read_datum : simpl never.
#[global] Arguments Value.prrte_value_load : simpl never.
#[global] Arguments Value.prrte_value_unload : simpl never.
#[global] Arguments Value.prrte_value_xfer : simpl never.

(** Case analysis on every step of a computation in the option monad
    that a hypothesis says has a result. *)
Ltac break_steps H :=
  repeat (simpl in H;
          match type of H with
          | context [mbind _ ?x] => destruct x eqn:?
          | context [match ?x with _ => _ end] => destruct x eqn:?
          end);
  simpl in H; try discriminate H.

(** Settle the tests of the goal whose outcome the context decides. *)
Ltac settle_tests :=
  repeat match goal with
         | |- context [decide ?P] =>
             assert_fails (has_evar P);
             let HP := fresh in
             destruct (decide P) as [HP|HP]; simpl in HP;
             [ try (exfalso; (tauto || congruence || (intuition congruence)))
             | try (exfalso; (tauto || congruence || (intuition congruence))) ];
             simpl
         end.

Section ValueFacts.
Import Mem Status Value.

Lemma live_not_fresh (h : heap) (B : block) (c : content) :
  h !! B = Some c → B ≠ fresh (dom h).
Proof. intros HB ->. by rewrite fresh_block_None in HB. Qed.

Lemma load_bytes_live (p : ptr) (n : Z) (h : heap) (bs : list byte) :
  load_bytes p n h = Some bs →
  ∃ B ofs l, p = Ptr B ofs ∧ h !! B = Some (Bytes l).
Proof.
  unfold load_bytes. destruct p as [|B ofs]; [done|].
  destruct (h !! B) as [[l|]|] eqn:HB; try done. intros _. by exists B, ofs, l.
Qed.

(** A load is not affected by a block that comes to life. *)
Lemma load_bytes_insert_fresh (p : ptr) (n : Z) (h : heap) (bs : list byte)
    (c : content) :
  load_bytes p n h = Some bs →
  load_bytes p n (<[fresh (dom h) := c]> h) = Some bs.
Proof.
  intros Hl. destruct (load_bytes_live _ _ _ _ Hl) as (B & ofs & l & -> & HB).
  rewrite <- Hl. apply load_bytes_frame.
  apply lookup_insert_ne. symmetry. by apply (live_not_fresh _ _ _ HB).
Qed.

(** [q = malloc(n); memcpy(q, src, n)] *)
Lemma malloc_memcpy (src : ptr) (n : Z) (h : heap) (bs : list byte) :
  load_bytes src n h = Some bs →
  memcpy (Ptr (fresh (dom h)) 0) src n
         (<[fresh (dom h) := Bytes (replicate (Z.to_nat n) x00)]> h)
  = Some (<[fresh (dom h) := Bytes bs]> h).
Proof.
  intros Hl. unfold memcpy. rewrite (load_bytes_insert_fresh _ _ _ _ _ Hl). simpl.
  pose proof (load_bytes_length _ _ _ _ Hl) as Hlen.
  rewrite (store_bytes_whole _ bs (replicate (Z.to_nat n) x00))
    by (rewrite ?lookup_insert_eq, ?length_replicate; done || lia).
  by rewrite insert_insert_eq.
Qed.

Lemma until_nul_terminated (bs s : list byte) :
  until_nul bs = Some s → until_nul (s ++ [x00]) = Some s.
Proof.
  revert s. induction bs as [|c bs IH]; intros s; [done|]. simpl.
  destruct (Byte.eqb c x00) eqn:Hc; [by intros [= <-]|].
  destruct (until_nul bs) as [s'|]; [|done]. intros [= <-]. simpl.
  by rewrite Hc, (IH s').
Qed.

Lemma read_cstring_live (p : ptr) (h : heap) (s : list byte) :
  read_cstring p h = Some s →
  ∃ B ofs l, p = Ptr B ofs ∧ h !! B = Some (Bytes l).
Proof.
  unfold read_cstring. destruct p as [|B ofs]; [done|].
  destruct (h !! B) as [[l|]|] eqn:HB; try done. intros _. by exists B, ofs, l.
Qed.

Lemma read_cstring_frame (h h' : heap) (B : block) (ofs : Z) :
  h' !! B = h !! B → read_cstring (Ptr B ofs) h' = read_cstring (Ptr B ofs) h.
Proof. intros Hfr. unfold read_cstring. by rewrite Hfr. Qed.

Lemma read_cstring_insert_fresh (p : ptr) (h : heap) (s : list byte) (c : content) :
  read_cstring p h = Some s →
  read_cstring p (<[fresh (dom h) := c]> h) = Some s.
Proof.
  intros Hr. destruct (read_cstring_live _ _ _ Hr) as (B & ofs & l & -> & HB).
  rewrite <- Hr. apply read_cstring_frame.
  apply lookup_insert_ne. symmetry. by apply (live_not_fresh _ _ _ HB).
Qed.

(** [strdup] puts the characters and their terminator in a new block,
    where they read as the same string. *)
Lemma strdup_spec (p : ptr) (h : heap) (s : list byte) :
  read_cstring p h = Some s →
  strdup p h = Some (Ptr (fresh (dom h)) 0,
                     <[fresh (dom h) := Bytes (s ++ [x00])]> h) ∧
  read_cstring (Ptr (fresh (dom h)) 0)
               (<[fresh (dom h) := Bytes (s ++ [x00])]> h) = Some s.
Proof.
  intros Hr. split.
  - unfold strdup. rewrite Hr. simpl. rewrite ?malloc_spec.
    rewrite (store_bytes_whole _ _ (replicate (Z.to_nat (Z.of_nat (length s) + 1)) x00))
      by (rewrite ?lookup_insert_eq, ?length_replicate, ?length_app; simpl; done || lia).
    simpl. by rewrite insert_insert_eq.
  - unfold read_cstring. rewrite lookup_insert_eq. simpl. rewrite drop_0.
    unfold read_cstring in Hr. destruct p as [|B ofs]; [done|].
    destruct (h !! B) as [[l|]|]; try done. case_decide; [|done].
    by apply (until_nul_terminated (drop (Z.to_nat ofs) l)).
Qed.

Lemma dup_bo_empty (bytes : ptr) (h : heap) : dup_bo 0 bytes h = Some (0, NULL, h).
Proof. unfold dup_bo. rewrite decide_False; [done|]. intros [_ ?]. lia. Qed.

Lemma dup_bo_copy (size : Z) (bytes : ptr) (h : heap) (bs : list byte) :
  size ≠ 0 → size ≤ INT32_MAX →
  load_bytes bytes size h = Some bs →
  dup_bo size bytes h =
    Some (size, Ptr (fresh (dom h)) 0, <[fresh (dom h) := Bytes bs]> h).
Proof.
  intros Hnz Hmax Hl. unfold INT32_MAX in Hmax.
  pose proof (load_bytes_length _ _ _ _ Hl) as Hlen.
  unfold dup_bo. rewrite decide_True.
  - rewrite to_size_t_small by lia. rewrite ?malloc_spec.
    by rewrite (malloc_memcpy _ _ _ _ Hl).
  - split; [|lia]. intros ->. done.
Qed.

Lemma read_bo_live (p : ptr) (h : heap) (size : Z) (bytes : ptr) :
  read_bo p h = Some (size, bytes) →
  ∃ B, p = Ptr B 0 ∧ h !! B = Some (BoCell size bytes).
Proof.
  unfold read_bo. destruct p as [|B ofs]; [done|].
  destruct ofs; try done.
  destruct (h !! B) as [[|sz b]|] eqn:HB; try done. intros [= -> ->]. by exists B.
Qed.

Lemma read_bo_insert_fresh (p : ptr) (h : heap) (size : Z) (bytes : ptr) (c : content) :
  read_bo p h = Some (size, bytes) →
  read_bo p (<[fresh (dom h) := c]> h) = Some (size, bytes).
Proof.
  intros Hr. destruct (read_bo_live _ _ _ _ Hr) as (B & -> & HB).
  unfold read_bo. rewrite lookup_insert_ne, HB; [done|].
  symmetry. by apply (live_not_fresh _ _ _ HB).
Qed.

(** Reading through pointers is monotone in the heap: what was there
    is still there when blocks have only come to life. *)
Lemma fresh_insert_subseteq (h : heap) (c : content) :
  h ⊆ <[fresh (dom h) := c]> h.
Proof. apply insert_subseteq, fresh_block_None. Qed.

Lemma load_bytes_weaken (p : ptr) (n : Z) (h h' : heap) (bs : list byte) :
  load_bytes p n h = Some bs → h ⊆ h' → load_bytes p n h' = Some bs.
Proof.
  intros Hl Hsub. destruct (load_bytes_live _ _ _ _ Hl) as (B & ofs & l & -> & HB).
  rewrite <- Hl. apply load_bytes_frame.
  by rewrite HB, (lookup_weaken _ _ _ _ HB Hsub).
Qed.

Lemma read_cstring_weaken (p : ptr) (h h' : heap) (s : list byte) :
  read_cstring p h = Some s → h ⊆ h' → read_cstring p h' = Some s.
Proof.
  intros Hr Hsub. destruct (read_cstring_live _ _ _ Hr) as (B & ofs & l & -> & HB).
  rewrite <- Hr. apply read_cstring_frame.
  by rewrite HB, (lookup_weaken _ _ _ _ HB Hsub).
Qed.

Lemma read_bo_weaken (p : ptr) (h h' : heap) (size : Z) (bytes : ptr) :
  read_bo p h = Some (size, bytes) → h ⊆ h' → read_bo p h' = Some (size, bytes).
Proof.
  intros Hr Hsub. destruct (read_bo_live _ _ _ _ Hr) as (B & -> & HB).
  unfold read_bo. by rewrite (lookup_weaken _ _ _ _ HB Hsub).
Qed.

Lemma read_datum_weaken (ty : prrte_data_type_t) (p : ptr) (h h' : heap) (a : datum) :
  read_datum ty h p = Some a → h ⊆ h' → read_datum ty h' p = Some a.
Proof.
  intros Hr Hsub.
  assert (Hfixed : ∀ w, (load_bytes p w h ≫= λ bs, Some (DFixed bs)) = Some a →
                        (load_bytes p w h' ≫= λ bs, Some (DFixed bs)) = Some a).
  { intros w Hw. destruct (load_bytes p w h) as [bs|] eqn:Hl; [|done].
    by rewrite (load_bytes_weaken _ _ _ _ _ Hl Hsub). }
  unfold read_datum in *.
  destruct ty; simpl in *; try done; try (by apply Hfixed).
  - case_decide; [done|].
    destruct (read_cstring p h) as [s|] eqn:Hs; [|done].
    by rewrite (read_cstring_weaken _ _ _ _ Hs Hsub).
  - destruct (read_bo p h) as [[size bytes]|] eqn:Hbo; [|done].
    rewrite (read_bo_weaken _ _ _ _ _ Hbo Hsub). simpl in *.
    case_decide; [done|]. case_decide; [|done].
    destruct (load_bytes bytes size h) as [bs|] eqn:Hl; [|done].
    by rewrite (load_bytes_weaken _ _ _ _ _ Hl Hsub).
Qed.

(** Fixed-width members: what is read from [x] is written to the
    storage the slot points to. *)
Lemma scalar_round_trip (f : member) (kv : prrte_value_t) (x slot : ptr)
    (h : heap) (bs : list byte) :
  load_bytes x (Z.of_nat (width f)) h = Some bs →
  is_Some (load_bytes slot (Z.of_nat (width f)) h) →
  ∃ kv1 h2,
    load_scalar f kv x h = Some (PRRTE_SUCCESS, kv1, h) ∧
    type kv1 = type kv ∧
    unload_scalar f kv1 slot h = Some (PRRTE_SUCCESS, Some slot, h2) ∧
    load_bytes slot (Z.of_nat (width f)) h2 = Some bs.
Proof.
  intros Hl Hslot.
  destruct (read_int_encode (signed f) _ _ _ _ Hl) as (v & Hv & Henc).
  pose proof (load_bytes_length _ _ _ _ Hl) as Hlen.
  assert (Hw : width f = length bs) by lia.
  rewrite Hw in Hslot. destruct (store_then_load _ _ _ Hslot) as (h2 & Hst & Hld).
  exists (set_data kv (Scalar f v)), h2.
  unfold load_scalar, unload_scalar. rewrite Hv. simpl.
  rewrite decide_True by done. simpl. rewrite Henc, Hst. simpl.
  by rewrite Hw.
Qed.

Lemma timeval_round_trip (kv : prrte_value_t) (x slot : ptr) (h : heap)
    (bs : list byte) :
  load_bytes x 16 h = Some bs →
  is_Some (load_bytes slot 16 h) →
  ∃ sec usec h2,
    read_int true 8 x h = Some sec ∧
    read_int true 8 (ptr_add x 8) h = Some usec ∧
    store_bytes slot (timeval_bytes sec usec) h = Some h2 ∧
    load_bytes slot 16 h2 = Some bs.
Proof.
  intros Hl Hslot.
  destruct (load_bytes_split x 8 8 h bs) as [H1 H2]; [lia|lia|done|].
  destruct (read_int_encode true 8 _ _ _ H1) as (sec & Hsec & Hesec).
  destruct (read_int_encode true 8 _ _ _ H2) as (usec & Husec & Heusec).
  pose proof (load_bytes_length _ _ _ _ Hl) as Hlen.
  assert (Hslot' : is_Some (load_bytes slot (Z.of_nat (length bs)) h))
    by (by rewrite Hlen).
  destruct (store_then_load _ _ _ Hslot') as (h2 & Hst & Hld).
  exists sec, usec, h2. unfold timeval_bytes. rewrite Hesec, Heusec, take_drop.
  rewrite Hlen in Hld. done.
Qed.

Lemma string_round_trip (kv : prrte_value_t) (x slot : ptr) (h h0 : heap)
    (a : datum) :
  release_owned PRRTE_STRING kv h = Some h0 →
  read_datum PRRTE_STRING h0 x = Some a →
  ∃ kv1 h1 y h2,
    prrte_value_load kv x PRRTE_STRING h = Some (PRRTE_SUCCESS, kv1, h1) ∧
    prrte_value_unload kv1 (Some slot) PRRTE_STRING h1
      = Some (PRRTE_SUCCESS, Some y, h2) ∧
    read_datum PRRTE_STRING h2 y = Some a ∧
    read_datum PRRTE_STRING h2 x = Some a ∧
    (x = NULL ∧ y = NULL ∨ ∃ B, y = Ptr B 0 ∧ h1 !! B = None).
Proof.
  intros Hrel Hx. pose proof Hx as Hx0.
  unfold release_owned in Hrel. unfold read_datum in Hx.
  destruct (get_string (data kv)) as [old|] eqn:Hold; [|done]. simpl in Hrel.
  unfold prrte_value_load. simpl. rewrite Hold. simpl. rewrite Hrel. simpl.
  destruct (decide (x = NULL)) as [->|Hnn].
  - injection Hx as <-. settle_tests.
    eexists _, h0, NULL, h0. split; [done|].
    unfold prrte_value_unload. simpl. settle_tests.
    repeat split; try done. by left.
  - destruct (read_cstring x h0) as [s|] eqn:Hs; [|done]. injection Hx as <-.
    settle_tests.
    destruct (strdup_spec _ _ _ Hs) as [Hdup1 Hread1]. rewrite Hdup1. simpl.
    set (B1 := fresh (dom h0)) in *.
    set (h1 := <[B1 := Bytes (s ++ [x00])]> h0) in *.
    destruct (strdup_spec _ _ _ Hread1) as [Hdup2 Hread2].
    set (B2 := fresh (dom h1)) in *.
    set (h2 := <[B2 := Bytes (s ++ [x00])]> h1) in *.
    eexists _, h1, (Ptr B2 0), h2. split; [done|].
    unfold prrte_value_unload. simpl. settle_tests.
    rewrite Hdup2. simpl.
    split; [done|]. split; [|split].
    + unfold read_datum. settle_tests. by rewrite Hread2.
    + apply (read_datum_weaken _ _ h0); [done|].
      etrans; apply fresh_insert_subseteq.
    + right. exists B2. split; [done|]. apply fresh_block_None.
Qed.

Lemma bo_round_trip (kv : prrte_value_t) (x slot : ptr) (h h0 : heap)
    (a : datum) :
  release_owned PRRTE_BYTE_OBJECT kv h = Some h0 →
  read_datum PRRTE_BYTE_OBJECT h0 x = Some a →
  ∃ kv1 h1 y h2,
    prrte_value_load kv x PRRTE_BYTE_OBJECT h = Some (PRRTE_SUCCESS, kv1, h1) ∧
    prrte_value_unload kv1 (Some slot) PRRTE_BYTE_OBJECT h1
      = Some (PRRTE_SUCCESS, Some y, h2) ∧
    read_datum PRRTE_BYTE_OBJECT h2 y = Some a ∧
    read_datum PRRTE_BYTE_OBJECT h2 x = Some a ∧
    (x = NULL ∧ y = NULL ∨ ∃ B, y = Ptr B 0 ∧ h1 !! B = None).
Proof.
  intros Hrel Hx. pose proof Hx as Hx0.
  unfold release_owned in Hrel. unfold read_datum in Hx.
  destruct (get_bo (data kv)) as [[sz_old old]|] eqn:Hold; [|done]. simpl in Hrel.
  destruct (read_bo x h0) as [[size bytes]|] eqn:Hbo; [|done]. simpl in Hx.
  destruct (read_bo_live _ _ _ _ Hbo) as (Bx & -> & HBx).
  unfold prrte_value_load. simpl. rewrite Hold. simpl. rewrite Hrel. simpl.
  settle_tests. rewrite Hbo. simpl.
  destruct (decide (size = 0)) as [->|Hnz].
  - (* an empty byte object *)
    injection Hx as <-. rewrite dup_bo_empty. simpl.
    set (B2 := fresh (dom h0)).
    eexists _, h0, (Ptr B2 0), _. split; [done|].
    unfold prrte_value_unload. simpl. settle_tests.
    unfold malloc_bo. rewrite ?dup_bo_empty. simpl. fold B2.
    unfold write_bo. rewrite lookup_insert_eq. rewrite insert_insert_eq.
    split; [done|]. split; [|split].
    + unfold read_datum, read_bo. by rewrite lookup_insert_eq.
    + apply (read_datum_weaken _ _ h0); [done|]. apply fresh_insert_subseteq.
    + right. exists B2. split; [done|]. apply fresh_block_None.
  - case_decide as Hmax; [|done].
    destruct (load_bytes bytes size h0) as [bs|] eqn:Hl; [|done]. injection Hx as <-.
    pose proof (load_bytes_length _ _ _ _ Hl) as Hlen.
    rewrite (dup_bo_copy _ _ _ _ Hnz Hmax Hl). simpl.
    set (B1 := fresh (dom h0)) in *.
    set (h1 := <[B1 := Bytes bs]> h0) in *.
    set (B2 := fresh (dom h1)) in *.
    set (h1' := <[B2 := BoCell 0 NULL]> h1) in *.
    assert (Hl1 : load_bytes (Ptr B1 0) size h1' = Some bs).
    { apply (load_bytes_weaken _ _ h1); [|apply fresh_insert_subseteq].
      rewrite (load_bytes_block B1 0 size bs)
        by (unfold h1; rewrite ?lookup_insert_eq; done || lia).
      rewrite drop_0, take_ge by lia. done. }
    set (B3 := fresh (dom h1')) in *.
    assert (HB23 : B2 ≠ B3).
    { apply (live_not_fresh h1' B2 (BoCell 0 NULL)). apply lookup_insert_eq. }
    eexists _, h1, (Ptr B2 0), _. split; [done|].
    unfold prrte_value_unload. simpl. settle_tests.
    unfold malloc_bo. fold B2. fold h1'.
    rewrite (dup_bo_copy _ _ _ _ Hnz Hmax Hl1). simpl. fold B3.
    unfold write_bo. rewrite lookup_insert_ne by done. unfold h1' at 1.
    rewrite lookup_insert_eq.
    split; [done|]. split; [|split].
    + unfold read_datum, read_bo. rewrite lookup_insert_eq. simpl.
      rewrite decide_False by done. rewrite decide_True by done.
      rewrite (load_bytes_block B3 0 size bs); [| |lia|lia|lia].
      * simpl. rewrite drop_0, take_ge by lia. done.
      * rewrite lookup_insert_ne by done. apply lookup_insert_eq.
    + apply (read_datum_weaken _ _ h0); [done|].
      apply map_subseteq_spec. intros B c HB.
      assert (B ≠ B1) by apply (live_not_fresh _ _ _ HB).
      assert (HB1 : h1 !! B = Some c) by (unfold h1; by rewrite lookup_insert_ne).
      assert (B ≠ B2) by apply (live_not_fresh _ _ _ HB1).
      assert (HB1' : h1' !! B = Some c) by (unfold h1'; by rewrite lookup_insert_ne).
      assert (B ≠ B3) by apply (live_not_fresh _ _ _ HB1').
      by rewrite !lookup_insert_ne.
    + right. exists B2. split; [done|]. apply fresh_block_None.
Qed.

(** The kinds that are one integer-like member [f] of the union. *)
Lemma fixed_kind_round_trip (f : member) (ty : prrte_data_type_t)
    (kv : prrte_value_t) (x slot : ptr) (h : heap) (a : datum) :
  (∀ kv' p h', p ≠ NULL →
     prrte_value_load kv' p ty h' = load_scalar f (set_type kv' ty) p h') →
  (∀ kv' p h', type kv' = ty → p ≠ NULL →
     prrte_value_unload kv' (Some p) ty h' = unload_scalar f kv' p h') →
  (∀ p h', read_datum ty h' p =
           (load_bytes p (Z.of_nat (width f)) h' ≫= λ bs, Some (DFixed bs))) →
  read_datum ty h x = Some a →
  is_Some (load_bytes slot (Z.of_nat (width f)) h) →
  ∃ kv1 h1 y h2,
    prrte_value_load kv x ty h = Some (PRRTE_SUCCESS, kv1, h1) ∧
    prrte_value_unload kv1 (Some slot) ty h1 = Some (PRRTE_SUCCESS, Some y, h2) ∧
    read_datum ty h2 y = Some a ∧ y = slot.
Proof.
  intros Hload Hunload Hdatum Hx Hslot. rewrite Hdatum in Hx.
  destruct (load_bytes x (Z.of_nat (width f)) h) as [bs|] eqn:Hbs; [|done].
  injection Hx as <-.
  destruct (scalar_round_trip f (set_type kv ty) x slot h bs Hbs Hslot)
    as (kv1 & h2 & H1 & H2 & H3 & H4).
  exists kv1, h, slot, h2.
  rewrite Hload by (by intros ->). split; [done|].
  rewrite Hunload; [|done|by intros ->; destruct Hslot].
  split; [done|]. rewrite Hdatum, H4. done.
Qed.

Local Ltac fixed_kind f :=
  apply (fixed_kind_round_trip f);
  [ intros ? ? ? ?; unfold prrte_value_load; by settle_tests
  | intros ? ? ? Hty ?; unfold prrte_value_unload; rewrite Hty; by settle_tests
  | reflexivity
  | done
  | done ].

(** C8.  For a supported kind [ty], a pointer [x] that denotes the
    datum [a] of that kind (once the value has released the string or
    bytes it owned), and a slot that unload accepts for the kind:
    [prrte_value_load] succeeds, [prrte_value_unload] of the loaded
    value succeeds, and the pointer [y] it leaves in the slot denotes
    the same datum [a].  For strings and byte objects, [y] is a copy in
    storage that was not live before the unload (or both are null) and
    [x] still denotes [a]; for the pointer kind [y] is [x] itself and
    the heap is untouched; for the fixed-width kinds [y] is the storage
    the caller gave, now holding the bytes of [x]. *)
Theorem value_load_unload_round_trip
    (kv : prrte_value_t) (ty : prrte_data_type_t) (x slot : ptr)
    (h h0 : heap) (a : datum) :
  supported ty = true →
  release_owned ty kv h = Some h0 →
  read_datum ty h0 x = Some a →
  slot_ok ty h0 slot = true →
  ∃ kv1 h1 y h2,
    prrte_value_load kv x ty h = Some (PRRTE_SUCCESS, kv1, h1) ∧
    prrte_value_unload kv1 (Some slot) ty h1 = Some (PRRTE_SUCCESS, Some y, h2) ∧
    read_datum ty h2 y = Some a ∧
    match ty with
    | PRRTE_STRING | PRRTE_BYTE_OBJECT =>
        read_datum ty h2 x = Some a ∧
        (x = NULL ∧ y = NULL ∨ ∃ B, y = Ptr B 0 ∧ h1 !! B = None)
    | PRRTE_PTR => y = x ∧ h2 = h
    | _ => y = slot
    end.
Proof.
  intros Hsup Hrel Hx Hslot.
  destruct ty; try discriminate Hsup.
  all: try (simpl in Hrel; injection Hrel as <-).
  all: try by eapply string_round_trip.
  all: try by eapply bo_round_trip.
  all: try (apply bool_decide_eq_true in Hslot).
  1: fixed_kind data_flag.
  1: fixed_kind data_byte.
  1: fixed_kind data_size.
  1: fixed_kind data_pid.
  1: fixed_kind data_integer.
  1: fixed_kind data_int8.
  1: fixed_kind data_int16.
  1: fixed_kind data_int32.
  1: fixed_kind data_int64.
  1: fixed_kind data_uint.
  1: fixed_kind data_uint8.
  1: fixed_kind data_uint16.
  1: fixed_kind data_uint32.
  1: fixed_kind data_uint64.
  1: fixed_kind data_fval.
  - (* PRRTE_TIMEVAL *)
    unfold read_datum in Hx. simpl in Hx.
    destruct (load_bytes x 16 h) as [bs|] eqn:Hbs; [|done].
    injection Hx as <-.
    destruct (timeval_round_trip kv x slot h bs Hbs Hslot)
      as (sec & usec & h2 & Hsec & Husec & Hst & Hld).
    eexists _, h, slot, h2. unfold prrte_value_load, prrte_value_unload.
    assert (x ≠ NULL) by (by intros ->).
    assert (slot ≠ NULL) by (intros ->; by destruct Hslot).
    settle_tests.
    rewrite Hsec. simpl. rewrite Husec. simpl. split; [done|].
    settle_tests.
    rewrite Hst. simpl. unfold read_datum. simpl. by rewrite Hld.
  - (* PRRTE_PTR *)
    unfold read_datum in Hx. simpl in Hx. injection Hx as <-.
    unfold prrte_value_load, prrte_value_unload.
    destruct (decide (x = NULL)) as [->|Hnn].
    + settle_tests. eexists _, h, NULL, h. split; [done|]. simpl. by settle_tests.
    + settle_tests. eexists _, h, x, h. split; [done|]. simpl. by settle_tests.
Qed.

Lemma value_load_unload_round_trip_witness :
  ∃ kv1 h1 y h2,
    prrte_value_load Examples.fresh_value (Ptr 3 0) PRRTE_BYTE_OBJECT
      Examples.value_heap = Some (PRRTE_SUCCESS, kv1, h1) ∧
    prrte_value_unload kv1 (Some NULL) PRRTE_BYTE_OBJECT h1
      = Some (PRRTE_SUCCESS, Some y, h2) ∧
    read_datum PRRTE_BYTE_OBJECT h2 y = Some (DBlob [x69; x00]) ∧
    read_datum PRRTE_BYTE_OBJECT h2 (Ptr 3 0) = Some (DBlob [x69; x00]) ∧
    (Ptr 3 0 = NULL ∧ y = NULL ∨ ∃ B, y = Ptr B 0 ∧ h1 !! B = None).
Proof.
  apply (value_load_unload_round_trip Examples.fresh_value PRRTE_BYTE_OBJECT
           (Ptr 3 0) NULL Examples.value_heap Examples.value_heap
           (DBlob [x69; x00])).
  - reflexivity.
  - reflexivity.
  - reflexivity.
  - reflexivity.
Defined.

(** The same on a signed integer, a string and a pointer, by
    evaluation: the four bytes ff fe 03 80 of block 1 arrive in
    block 4; the string "hi" arrives in a new block; the pointer comes
    back as it went in. *)
Example round_trip_int32 :
  ∃ kv1 h2,
    prrte_value_load Examples.fresh_value (Ptr 1 0) PRRTE_INT32 Examples.value_heap
      = Some (PRRTE_SUCCESS, kv1, Examples.value_heap) ∧
    data kv1 = Scalar data_int32 (-2147221761) ∧
    prrte_value_unload kv1 (Some (Ptr 4 0)) PRRTE_INT32 Examples.value_heap
      = Some (PRRTE_SUCCESS, Some (Ptr 4 0), h2) ∧
    load_bytes (Ptr 4 0) 4 h2 = Some [xff; xfe; x03; x80].
Proof.
  eexists _, _. split; [vm_compute; reflexivity|]. split; [reflexivity|].
  split; [vm_compute; reflexivity|]. vm_compute. reflexivity.
Qed.

Example round_trip_string :
  ∃ kv1 h1 h2,
    prrte_value_load Examples.fresh_value (Ptr 2 0) PRRTE_STRING Examples.value_heap
      = Some (PRRTE_SUCCESS, kv1, h1) ∧
    prrte_value_unload kv1 (Some NULL) PRRTE_STRING h1
      = Some (PRRTE_SUCCESS, Some (Ptr 6 0), h2) ∧
    read_cstring (Ptr 6 0) h2 = Some [x68; x69].
Proof.
  eexists _, _, _. split; [vm_compute; reflexivity|].
  split; [vm_compute; reflexivity|]. vm_compute. reflexivity.
Qed.

(** For the pointer kind the slot has to hold something that is not
    null, although unload only overwrites it. *)
Example round_trip_ptr_needs_slot :
  ∃ kv1,
    prrte_value_load Examples.fresh_value (Ptr 3 0) PRRTE_PTR Examples.value_heap
      = Some (PRRTE_SUCCESS, kv1, Examples.value_heap) ∧
    prrte_value_unload kv1 (Some (Ptr 4 0)) PRRTE_PTR Examples.value_heap
      = Some (PRRTE_SUCCESS, Some (Ptr 3 0), Examples.value_heap) ∧
    prrte_value_unload kv1 (Some NULL) PRRTE_PTR Examples.value_heap
      = Some (PRRTE_ERR_BAD_PARAM, Some NULL, Examples.value_heap).
Proof.
  eexists. split; [vm_compute; reflexivity|].
  split; vm_compute; reflexivity.
Qed.

(** [PRRTE_VPID] has a case in unload but none in load: a load of a
    vpid is refused, and the tag is stamped all the same. *)
Example vpid_is_not_loaded :
  prrte_value_load Examples.int32_value (Ptr 1 0) PRRTE_VPID Examples.value_heap
  = Some (PRRTE_ERR_NOT_SUPPORTED,
          {| key := NULL; type := PRRTE_VPID; data := Scalar data_int32 7 |},
          Examples.value_heap).
Proof. reflexivity. Qed.

(** C9, as the code has it.  With a tag outside the supported set,
    [prrte_value_load] stamps the tag, leaves the payload and the heap
    alone and returns NOT_SUPPORTED when the raw data argument is not
    null; when it is null the function zeroes the payload and returns
    success. *)
Theorem value_load_unsupported
    (kv : prrte_value_t) (data_arg : ptr) (ty : prrte_data_type_t) (h : heap) :
  supported ty = false →
  prrte_value_load kv data_arg ty h =
    if decide (data_arg = NULL)
    then Some (PRRTE_SUCCESS, set_data (set_type kv ty) Zeroed, h)
    else Some (PRRTE_ERR_NOT_SUPPORTED, set_type kv ty, h).
Proof.
  intros Hty. unfold prrte_value_load.
  destruct (decide (data_arg = NULL)) as [->|Hnn].
  - rewrite decide_True; [done|]. by destruct ty.
  - rewrite decide_False by tauto. by destruct ty.
Qed.

Lemma value_load_unsupported_witness :
  prrte_value_load Examples.int32_value (Ptr 1 0) (PRRTE_OTHER 200) Examples.value_heap
  = Some (PRRTE_ERR_NOT_SUPPORTED,
          {| key := NULL; type := PRRTE_OTHER 200; data := Scalar data_int32 7 |},
          Examples.value_heap).
Proof.
  apply (value_load_unsupported Examples.int32_value (Ptr 1 0) (PRRTE_OTHER 200)
           Examples.value_heap).
  reflexivity.
Defined.

(** C9 as the claim has it fails for a null raw data argument: the tag
    200 is not supported, and the load succeeds. *)
Lemma value_load_unsupported_null_succeeds :
  supported (PRRTE_OTHER 200) = false ∧
  prrte_value_load Examples.int32_value NULL (PRRTE_OTHER 200) Examples.value_heap
  = Some (PRRTE_SUCCESS,
          {| key := NULL; type := PRRTE_OTHER 200; data := Zeroed |},
          Examples.value_heap) ∧
  ∀ kv' h',
    prrte_value_load Examples.int32_value NULL (PRRTE_OTHER 200) Examples.value_heap
    ≠ Some (PRRTE_ERR_NOT_SUPPORTED, kv', h').
Proof. split; [reflexivity|]. split; [reflexivity|]. intros kv' h'. discriminate. Qed.

(** C10.  Whenever [prrte_value_xfer] returns NOT_SUPPORTED, the tag of
    [src] is outside the supported set, and [dest] has already taken
    that tag while its payload is the one it had: tag and payload of
    [dest] no longer belong together.  The key of [dest] is the one it
    had when [src] has none; otherwise it is a fresh copy of the key of
    [src], and that copy is the only change to the heap. *)
Theorem value_xfer_not_supported
    (dest src dest' : prrte_value_t) (h h' : heap) :
  prrte_value_xfer dest src h = Some (PRRTE_ERR_NOT_SUPPORTED, dest', h') →
  supported (type src) = false ∧
  type dest' = type src ∧
  data dest' = data dest ∧
  if decide (key src = NULL)
  then key dest' = key dest ∧ h' = h
  else ∃ ks B, read_cstring (key src) h = Some ks ∧
               key dest' = Ptr B 0 ∧ h !! B = None ∧
               h' = <[B := Bytes (ks ++ [x00])]> h ∧
               read_cstring (key dest') h' = Some ks.
Proof.
  unfold prrte_value_xfer.
  destruct (decide (key src = NULL)) as [Hk|Hk].
  - rewrite decide_False by tauto. simpl.
    destruct (type src) eqn:Hty; unfold xfer_scalar; simpl; intros H;
      break_steps H; simplify_eq; done.
  - rewrite decide_True by done.
    destruct (read_cstring (key src) h) as [ks|] eqn:Hks.
    + destruct (strdup_spec _ _ _ Hks) as [Hdup Hread]. rewrite Hdup. simpl.
      destruct (type src) eqn:Hty; unfold xfer_scalar; simpl; intros H;
        break_steps H; simplify_eq;
        (split; [done|]; split; [done|]; split; [done|];
         exists ks, (fresh (dom h)); repeat split; try done;
         apply fresh_block_None).
    + unfold strdup. rewrite Hks. done.
Qed.

Lemma value_xfer_not_supported_witness :
  supported PRRTE_VPID = false ∧
  type (set_type (set_key Examples.int32_value (Ptr 5 0)) PRRTE_VPID) = PRRTE_VPID ∧
  data (set_type (set_key Examples.int32_value (Ptr 5 0)) PRRTE_VPID) = Scalar data_int32 7 ∧
  ∃ ks B, read_cstring (Ptr 2 0) Examples.value_heap = Some ks ∧
          Ptr 5 0 = Ptr B 0 ∧ Examples.value_heap !! B = None ∧
          <[5%positive := Bytes [x68; x69; x00]]> Examples.value_heap
            = <[B := Bytes (ks ++ [x00])]> Examples.value_heap ∧
          read_cstring (Ptr 5 0)
            (<[5%positive := Bytes [x68; x69; x00]]> Examples.value_heap) = Some ks.
Proof.
  apply (value_xfer_not_supported Examples.int32_value Examples.keyed_vpid_value
           (set_type (set_key Examples.int32_value (Ptr 5 0)) PRRTE_VPID)
           Examples.value_heap
           (<[5%positive := Bytes [x68; x69; x00]]> Examples.value_heap)).
  vm_compute. reflexivity.
Defined.

(** The other direction: with an unsupported tag in [src], and a key
    that is null or a string, the transfer does return NOT_SUPPORTED. *)
Lemma value_xfer_unsupported_returns (dest src : prrte_value_t) (h : heap) :
  supported (type src) = false →
  key src = NULL ∨ is_Some (read_cstring (key src) h) →
  ∃ dest' h', prrte_value_xfer dest src h = Some (PRRTE_ERR_NOT_SUPPORTED, dest', h').
Proof.
  intros Hty Hkey. unfold prrte_value_xfer.
  destruct (decide (key src = NULL)) as [Hk|Hk].
  - rewrite decide_False by tauto. simpl.
    destruct (type src); try done; by eexists _, _.
  - rewrite decide_True by done. destruct Hkey as [?|[ks Hks]]; [done|].
    destruct (strdup_spec _ _ _ Hks) as [-> _]. simpl.
    destruct (type src); try done; by eexists _, _.
Qed.

End ValueFacts.

(* ===================================================================== *)
(** ** The TM launcher: the steps of a launch                             *)
(* ===================================================================== *)

Section PlmConnectFacts.
Import PlmTm PlmView.
Context {TM : Type}.
Variable E : externals TM.

(** What the attempts to connect do, from any state. *)
Lemma connect_attempts_spec (count : nat) (w : world TM) :
  jobs (connect_attempts E count w).2 = jobs w ∧
  my_job (connect_attempts E count w).2 = my_job w ∧
  launched (connect_attempts E count w).2 = launched w ∧
  connected (connect_attempts E count w).2 = connected w ∧
  match first_init_success E count (tm w) with
  | Some k =>
      (connect_attempts E count w).1 = PRTE_SUCCESS ∧ (k < count)%nat ∧
      trace (connect_attempts E count w).2 = trace w ++ replicate (S k) EvTmInit
  | None =>
      (connect_attempts E count w).1 = PRTE_ERR_RESOURCE_BUSY ∧
      trace (connect_attempts E count w).2 = trace w ++ replicate count EvTmInit
  end.
Proof.
  revert w. induction count as [|count IH]; intros w; simpl.
  - by rewrite app_nil_r.
  - destruct (tm_init E (tm w)) as [ret t].
    destruct (decide (ret = TM_SUCCESS)) as [Hret|Hret]; simpl.
    { repeat split; try done. lia. }
    specialize (IH (log EvTmInit (with_tm t w))). simpl in IH.
    destruct IH as (Hj & Hm & Hl & Hc & IH). repeat split; try done.
    destruct (first_init_success E count t) as [k|]; simpl.
    + destruct IH as (Hr & Hk & Ht). split; [done|]. split; [lia|].
      rewrite Ht, <- app_assoc. done.
    + destruct IH as (Hr & Ht). split; [done|]. rewrite Ht, <- app_assoc. done.
Qed.

End PlmConnectFacts.

#[global] Arguments PlmView.first_init_success : simpl never.
#[global] Arguments PlmTm.connect_attempts : simpl never.

Section PlmSteps.
Import PlmTm PlmView.
Context {TM : Type}.
Variable E : externals TM.

(** *** The loop over the nodes *)

Lemma spawn_calls_insert (env : list string) (idx : nat) (argv : list string)
    (v : string) (slot : Z) (ns : list prte_node_t) :
  spawn_calls E env idx (<[idx := v]> argv) slot ns
  = spawn_calls E env idx argv slot ns.
Proof.
  revert slot. induction ns as [|node ns IH]; intros slot; simpl; [done|].
  unfold spawn_call.
  destruct (daemon_rank node) as [rank|]; [|done]. simpl.
  destruct (prte_util_convert_vpid_to_string E rank) as [vs|]; [|done]. simpl.
  destruct (prte_get_attribute _ _) as [l|]; [|done]. simpl.
  by rewrite list_insert_insert_eq, IH.
Qed.

Lemma spawn_calls_are_spawns (env : list string) (idx : nat) (argv : list string)
    (slot : Z) (ns : list prte_node_t) :
  Forall (λ e, is_spawn e = true) (spawn_calls E env idx argv slot ns).
Proof.
  revert slot. induction ns as [|node ns IH]; intros slot; simpl; [done|].
  destruct (spawn_call E env idx argv slot node) as [e|] eqn:He; [|done].
  constructor; [|apply IH].
  unfold spawn_call in He.
  destruct (daemon_rank node) as [rank|]; [|done]. simpl in He.
  destruct (prte_util_convert_vpid_to_string E rank) as [vs|]; [|done]. simpl in He.
  destruct (prte_get_attribute _ _) as [l|]; [|done]. by injection He as <-.
Qed.

(** The three ways a turn of the loop ends. *)
Lemma spawn_step_next (env : list string) (idx : nat) (num_new : Z)
    (argv argv' : list string) (node : prte_node_t) (w w' : world TM) :
  spawn_step E env idx num_new argv node w = Some (StepNext argv' w') →
  ∃ e vs,
    spawn_call E env idx argv (launched w) node = Some e ∧
    argv' = <[idx := vs]> argv ∧
    trace w' = trace w ++ [e] ∧
    launched w' = launched w + 1 ∧ 0 ≤ launched w < num_new ∧
    jobs w' = jobs w ∧ connected w' = connected w ∧ my_job w' = my_job w.
Proof.
  unfold spawn_step, spawn_call. intros H.
  destruct (daemon_rank node) as [rank|]; [|done]. simpl in *.
  destruct (prte_util_convert_vpid_to_string E rank) as [vs|]; [|done]. simpl.
  case_decide; [|done].
  destruct (prte_get_attribute _ _) as [l|]; [|done]. simpl.
  case_decide; [|done].
  destruct (tm_spawn E _ env l (tm w)) as [rc t].
  case_decide; [done|]. injection H as <- <-. simpl.
  eexists _, vs. done.
Qed.

Lemma spawn_step_fail_call (env : list string) (idx : nat) (num_new : Z)
    (argv : list string) (node : prte_node_t) (w w2 : world TM) :
  spawn_step E env idx num_new argv node w = Some (StepFail w2) →
  jobs w2 = jobs w ∧ launched w2 = launched w ∧ connected w2 = connected w ∧
  my_job w2 = my_job w ∧
  ∃ sp a0 l,
    trace w2 = trace w ++ sp ++
      [EvShowHelp "help-plm-tm.txt" "tm-spawn-failed" a0 (name node) l] ∧
    (sp = [] ∨ ∃ e, sp = [e] ∧
                    spawn_call E env idx argv (launched w) node = Some e).
Proof.
  unfold spawn_step, spawn_call. intros H.
  destruct (daemon_rank node) as [rank|]; [|done]. simpl in *.
  destruct (prte_util_convert_vpid_to_string E rank) as [vs|]; [|done]. simpl.
  case_decide; [|done].
  destruct (prte_get_attribute _ _) as [l|]; simpl.
  - case_decide; [|done].
    destruct (tm_spawn E _ env l (tm w)) as [rc t].
    case_decide; [|done]. injection H as <-. simpl.
    repeat split; try done.
    eexists [_], _, l. split; [by rewrite <- app_assoc|]. right. by eexists.
  - injection H as <-. simpl. repeat split; try done.
    eexists [], _, 0. split; [done|]. by left.
Qed.

Lemma spawn_step_exit (env : list string) (idx : nat) (num_new : Z)
    (argv : list string) (node : prte_node_t) (w w2 : world TM) :
  spawn_step E env idx num_new argv node w = Some (StepExit w2) →
  jobs w2 = jobs w ∧ launched w2 = launched w ∧ connected w2 = connected w ∧
  my_job w2 = my_job w ∧
  trace w2 = trace w ++
    [EvOutput "plm:tm: unable to get daemon vpid as string" 0; EvExit (-1)].
Proof.
  unfold spawn_step. intros H.
  destruct (daemon_rank node) as [rank|]; [|done]. simpl in *.
  destruct (prte_util_convert_vpid_to_string E rank) as [vs|].
  - case_decide; [|done].
    destruct (prte_get_attribute _ _) as [l|]; [|done].
    case_decide; [|done].
    destruct (tm_spawn E _ env l (tm w)) as [rc t]. by case_decide.
  - injection H as <-. simpl. by rewrite <- app_assoc.
Qed.

(** Every run of the loop: the calls of [tm_spawn] it makes are the
    calls for the nodes that need a daemon, in the order of the map and
    one slot after the other, up to the node where it stops. *)
Lemma spawn_loop_calls (env : list string) (idx : nat) (num_new : Z)
    (items : list (option prte_node_t)) (argv : list string)
    (w : world TM) (r : loop_result TM) :
  spawn_loop E env idx num_new items argv w = Some r →
  jobs (loop_world r) = jobs w ∧ connected (loop_world r) = connected w ∧
  my_job (loop_world r) = my_job w ∧
  ∃ sp rest,
    trace (loop_world r) = trace w ++ sp ++ rest ∧
    sp `prefix_of` spawn_calls E env idx argv (launched w) (eligible items) ∧
    launched w ≤ launched (loop_world r) ≤ launched w + Z.of_nat (length sp) ∧
    match r with
    | LoopDone _ _ =>
        rest = [] ∧
        sp = spawn_calls E env idx argv (launched w) (eligible items) ∧
        length sp = length (eligible items) ∧
        launched (loop_world r) = launched w + Z.of_nat (length sp)
    | LoopFail _ =>
        ∃ a0 nm l, rest = [EvShowHelp "help-plm-tm.txt" "tm-spawn-failed" a0 nm l]
    | LoopExit _ =>
        rest = [EvOutput "plm:tm: unable to get daemon vpid as string" 0;
                EvExit (-1)]
    end.
Proof.
  revert argv w. induction items as [|[node|] items IH]; intros argv w; simpl.
  - intros [= <-]. simpl. repeat split; try done. exists [], [].
    rewrite app_nil_r. simpl. repeat split; try done; lia.
  - destruct (PRTE_FLAG_TEST _ _); [apply IH|].
    destruct (spawn_step E env idx num_new argv node w) as [[argv' w'|w'|w']|] eqn:Hstep;
      simpl; try done.
    + intros Hrest.
      destruct (spawn_step_next _ _ _ _ _ _ _ _ Hstep)
        as (e & vs & He & -> & Ht & Hl & Hcap & Hj & Hc & Hm).
      destruct (IH _ _ Hrest) as (Hj' & Hc' & Hm' & sp & rest & Ht' & Hpre & Hlr & Hr).
      rewrite spawn_calls_insert, Hl in *.
      split; [congruence|]. split; [congruence|]. split; [congruence|].
      exists (e :: sp), rest. rewrite He.
      split; [rewrite Ht', Ht, <- app_assoc; done|].
      split; [by apply prefix_cons|].
      split; [simpl; lia|].
      destruct r as [argv1 w1|w1|w1]; simpl in *; try done.
      destruct Hr as (-> & -> & Hlen & Hl1). rewrite Hlen.
      repeat split; try done. lia.
    + intros [= <-]. simpl.
      destruct (spawn_step_fail_call _ _ _ _ _ _ _ Hstep)
        as (Hj & Hl & Hc & Hm & sp & a0 & l & Ht & Hsp).
      repeat split; try done.
      exists sp, [EvShowHelp "help-plm-tm.txt" "tm-spawn-failed" a0 (name node) l].
      split; [done|]. split; [|split; [lia|by eauto]].
      destruct Hsp as [->|(e & -> & He)]; [apply prefix_nil|].
      rewrite He. apply prefix_cons, prefix_nil.
    + intros [= <-]. simpl.
      destruct (spawn_step_exit _ _ _ _ _ _ _ Hstep) as (Hj & Hl & Hc & Hm & Ht).
      repeat split; try done.
      exists [], [EvOutput "plm:tm: unable to get daemon vpid as string" 0; EvExit (-1)].
      split; [done|]. split; [apply prefix_nil|]. split; [simpl; lia|done].
  - apply IH.
Qed.

(** *** The part of [launch_daemons] before the loop *)

Lemma nothing_to_launch_spec (jdata : jobid) (w w' : world TM) :
  nothing_to_launch jdata w = Some w' →
  ∃ jd, jobs w !! jdata = Some jd ∧
        jobs w' = <[jdata := set_state jd PRTE_JOB_STATE_DAEMONS_LAUNCHED]> (jobs w) ∧
        trace w' = trace w ++ [EvActivate (Some jdata) PRTE_JOB_STATE_DAEMONS_REPORTED] ∧
        launched w' = launched w ∧ connected w' = connected w ∧
        tm w' = tm w ∧ my_job w' = my_job w.
Proof.
  unfold nothing_to_launch, assign_state. intros H.
  destruct (jobs w !! jdata) as [jd|]; [|done]. simpl in H. injection H as <-.
  by exists jd.
Qed.

(** Every way the setup ends. *)
Lemma launch_setup_cases (jdata : jobid) (w : world TM) (r : setup_result TM) :
  launch_setup E jdata w = Some r →
  let vm := prte_plm_base_setup_virtual_machine E jdata (jobs w) in
  my_job (setup_world r) = my_job w ∧
  launched (setup_world r) = launched w ∧
  match r with
  | SetupReturn w' =>
      ∃ js jd, (js = jobs w ∨ js = vm.2) ∧
        js !! jdata = Some jd ∧
        jobs w' = <[jdata := set_state jd PRTE_JOB_STATE_DAEMONS_LAUNCHED]> js ∧
        trace w' = trace w ++ [EvActivate (Some jdata) PRTE_JOB_STATE_DAEMONS_REPORTED] ∧
        connected w' = connected w ∧ tm w' = tm w
  | SetupCleanup daemons w' =>
      daemons = my_job w ∧ jobs w' = vm.2 ∧
      ((∃ rc, trace w' = trace w ++ [EvErrorLog rc] ∧
              connected w' = connected w ∧ tm w' = tm w) ∨
       (connected w = false ∧ connected w' = false ∧
        first_init_success E 10 (tm w) = None ∧
        trace w' = trace w ++ replicate 10 EvTmInit))
  | SetupProceed d m argv idx env w0 =>
      my_job w = Some d ∧ vm.1 = PRTE_SUCCESS ∧ jobs w0 = vm.2 ∧
      (∃ dj, vm.2 !! d = Some dj ∧ map dj = Some m) ∧
      num_new_daemons m ≠ 0 ∧
      (∃ jd, vm.2 !! jdata = Some jd ∧ env = daemon_environ E jd) ∧
      prted_argv E = (argv, idx) ∧
      connected w0 = true ∧
      (if connected w then trace w0 = trace w ∧ tm w0 = tm w
       else ∃ k, first_init_success E 10 (tm w) = Some k ∧
                 trace w0 = trace w ++ replicate (S k) EvTmInit)
  end.
Proof.
  intros H vm. subst vm. unfold launch_setup in H.
  destruct (jobs w !! jdata) as [jd|] eqn:Hjd; [|done]. simpl in H.
  destruct (PRTE_FLAG_TEST (flags jd) PRTE_JOB_FLAG_DEBUGGER_DAEMON).
  { destruct (nothing_to_launch jdata w) as [w'|] eqn:Hn; [|done].
    injection H as <-.
    destruct (nothing_to_launch_spec _ _ _ Hn) as (jd' & ? & ? & ? & ? & ? & ? & ?).
    simpl. split; [done|]. split; [done|]. exists (jobs w), jd'. by eauto 10. }
  destruct (prte_plm_base_setup_virtual_machine E jdata (jobs w)) as [rc js] eqn:Hvm.
  simpl in *.
  destruct (decide (rc ≠ PRTE_SUCCESS)) as [Hrc|Hrc].
  { injection H as <-. simpl. split; [done|]. split; [done|].
    split; [done|]. split; [done|]. left. by exists rc. }
  assert (rc = PRTE_SUCCESS) as -> by (by destruct (decide (rc = PRTE_SUCCESS))).
  destruct (my_job w) as [d|] eqn:Hme; [|done]. simpl in H.
  destruct (js !! d) as [dj|] eqn:Hdj; [|done]. simpl in H.
  destruct (decide (is_Some (prte_get_attribute (attributes dj) PRTE_JOB_DO_NOT_LAUNCH))).
  { destruct (nothing_to_launch jdata (with_jobs js w)) as [w'|] eqn:Hn; [|done].
    injection H as <-.
    destruct (nothing_to_launch_spec _ _ _ Hn) as (jd' & ? & ? & ? & ? & ? & ? & ?).
    simpl in *. split; [congruence|]. split; [done|]. exists js, jd'. by eauto 10. }
  destruct (map dj) as [m|] eqn:Hm.
  2:{ injection H as <-. simpl. split; [done|]. split; [done|].
      split; [done|]. split; [done|]. left. by eexists. }
  destruct (decide (num_new_daemons m = 0)) as [Hz|Hnz].
  { destruct (nothing_to_launch jdata (with_jobs js w)) as [w'|] eqn:Hn; [|done].
    injection H as <-.
    destruct (nothing_to_launch_spec _ _ _ Hn) as (jd' & ? & ? & ? & ? & ? & ? & ?).
    simpl in *. split; [congruence|]. split; [done|]. exists js, jd'. by eauto 10. }
  destruct (tm_events_allocated E (num_new_daemons m)); simpl in H.
  2:{ injection H as <-. simpl. split; [done|]. split; [done|].
      split; [done|]. split; [done|]. left. by eexists. }
  destruct (tm_task_ids_allocated E (num_new_daemons m)); simpl in H.
  2:{ injection H as <-. simpl. split; [done|]. split; [done|].
      split; [done|]. split; [done|]. left. by eexists. }
  destruct (prted_argv E) as [argv0 idx0].
  destruct (connected w) eqn:Hconn.
  - rewrite decide_False in H by (intros ?; done).
    simpl in H. destruct (js !! jdata) as [jd1|] eqn:Hjd1; [|done]. simpl in H.
    injection H as <-. simpl.
    split; [done|]. split; [done|]. split; [done|]. split; [done|].
    split; [done|]. split; [by exists dj|]. split; [done|].
    split; [by exists jd1|]. done.
  - unfold plm_tm_connect in H.
    pose proof (connect_attempts_spec E 10 (with_jobs js w)) as Hspec.
    destruct (connect_attempts E 10 (with_jobs js w)) as [rc1 w1].
    cbn [fst snd tm trace jobs my_job launched connected with_jobs] in Hspec.
    destruct Hspec as (Hj1 & Hm1 & Hl1 & Hc1 & Hspec).
    destruct (first_init_success E 10 (tm w)) as [k|].
    + destruct Hspec as (-> & Hk & Ht1).
      simpl in H. rewrite Hj1 in H.
      destruct (js !! jdata) as [jd1|] eqn:Hjd1; [|done]. simpl in H.
      injection H as <-. simpl.
      split; [congruence|]. split; [done|]. split; [done|]. split; [done|].
      split; [done|]. split; [by exists dj|]. split; [done|].
      split; [by exists jd1|]. split; [done|]. split; [done|]. by exists k.
    + destruct Hspec as (-> & Ht1).
      simpl in H. injection H as <-. simpl.
      split; [congruence|]. split; [done|]. split; [done|]. split; [done|].
      right. split; [done|]. split; [congruence|]. done.
Qed.

Lemma Forall_prefix {A} (P : A → Prop) (l1 l2 : list A) :
  l1 `prefix_of` l2 → Forall P l2 → Forall P l1.
Proof. intros [k ->] H. by apply Forall_app in H as [? _]. Qed.

Lemma assign_state_spec (j : jobid) (s : prte_job_state_t) (w : world TM)
    (jd : prte_job_t) :
  jobs w !! j = Some jd →
  assign_state j s w = Some (with_jobs (<[j := set_state jd s]> (jobs w)) w).
Proof. intros Hj. unfold assign_state. by rewrite Hj. Qed.

(** The loop cannot fail on nodes that are all spawnable, as long as
    there is room for their handles. *)
Lemma spawn_loop_succeeds (env : list string) (idx : nat) (num_new : Z)
    (items : list (option prte_node_t)) (argv : list string) (w : world TM) :
  Forall (spawnable E env) (eligible items) →
  (idx < length argv)%nat →
  0 ≤ launched w →
  launched w + Z.of_nat (length (eligible items)) ≤ num_new →
  ∃ argv1 w1,
    spawn_loop E env idx num_new items argv w = Some (LoopDone argv1 w1).
Proof.
  revert argv w. induction items as [|[node|] items IH]; intros argv w; simpl.
  - by eexists _, _.
  - destruct (PRTE_FLAG_TEST _ _); [apply IH|].
    intros Hall Hidx H0 Hcap. apply Forall_cons in Hall as [Hnode Hall].
    destruct Hnode as (rank & vs & l & Hrank & Hvs & Hid & Hsp).
    simpl in Hcap.
    unfold spawn_step. rewrite Hrank. simpl. rewrite Hvs.
    rewrite decide_True by done. rewrite Hid.
    rewrite decide_True by lia.
    specialize (Hsp (<[idx := vs]> argv) (tm w)).
    destruct (tm_spawn E (<[idx := vs]> argv) env l (tm w)) as [rc t].
    simpl in Hsp. subst rc. simpl.
    apply IH; simpl; try done; try lia.
    by rewrite length_insert.
  - apply IH.
Qed.

End PlmSteps.

(* ===================================================================== *)
(** ** The TM launcher: launch_daemons and poll_spawns                    *)
(* ===================================================================== *)

Section PlmFacts.
Import PlmTm PlmView.
Context {TM : Type}.
Variable E : externals TM.

(** The loop over a list of nodes that ends normally goes on with what
    follows. *)
Lemma spawn_loop_app (env : list string) (idx : nat) (num_new : Z)
    (pre rest : list (option prte_node_t)) (argv argv1 : list string)
    (w w1 : world TM) :
  spawn_loop E env idx num_new pre argv w = Some (LoopDone argv1 w1) →
  spawn_loop E env idx num_new (pre ++ rest) argv w
  = spawn_loop E env idx num_new rest argv1 w1.
Proof.
  revert argv w. induction pre as [|[node|] pre IH]; intros argv w; simpl.
  - by intros [= -> ->].
  - destruct (PRTE_FLAG_TEST _ _); [apply IH|].
    destruct (spawn_step E env idx num_new argv node w) as [[argv' w'|w'|w']|];
      simpl; try done. apply IH.
  - apply IH.
Qed.

(** The loop over a list of nodes that ends normally leaves the
    backend in the state after the calls for the nodes that need a
    daemon, and the argument vector differs from the one it started
    with at most by the rank. *)
Lemma tm_after_spawns_insert (env : list string) (idx : nat) (argv : list string)
    (v : string) (t : TM) (ns : list prte_node_t) :
  tm_after_spawns E env idx (<[idx := v]> argv) t ns
  = tm_after_spawns E env idx argv t ns.
Proof.
  revert t. induction ns as [|node ns IH]; intros t; simpl; [done|].
  unfold spawn_call.
  destruct (daemon_rank node) as [rank|]; [|done]. simpl.
  destruct (prte_util_convert_vpid_to_string E rank) as [vs|]; [|done]. simpl.
  destruct (prte_get_attribute _ _) as [l|]; [|done]. simpl.
  by rewrite list_insert_insert_eq, IH.
Qed.

Lemma spawns_pass_insert (env : list string) (idx : nat) (argv : list string)
    (v : string) (t : TM) (ns : list prte_node_t) :
  spawns_pass E env idx (<[idx := v]> argv) t ns = spawns_pass E env idx argv t ns.
Proof.
  revert t. induction ns as [|node ns IH]; intros t; simpl; [done|].
  unfold spawn_call.
  destruct (daemon_rank node) as [rank|]; [|done]. simpl.
  destruct (prte_util_convert_vpid_to_string E rank) as [vs|]; [|done]. simpl.
  destruct (prte_get_attribute _ _) as [l|]; [|done]. simpl.
  by rewrite list_insert_insert_eq, IH.
Qed.

(** The loop ends normally on nodes whose turns all pass, as long as
    there is room for their handles. *)
Lemma spawn_loop_passes (env : list string) (idx : nat) (num_new : Z)
    (items : list (option prte_node_t)) (argv : list string) (w : world TM) :
  spawns_pass E env idx argv (tm w) (eligible items) = true →
  (idx < length argv)%nat →
  0 ≤ launched w →
  launched w + Z.of_nat (length (eligible items)) ≤ num_new →
  ∃ argv1 w1,
    spawn_loop E env idx num_new items argv w = Some (LoopDone argv1 w1).
Proof.
  revert argv w. induction items as [|[node|] items IH]; intros argv w; simpl.
  - by eexists _, _.
  - destruct (PRTE_FLAG_TEST _ _); [apply IH|]. simpl.
    unfold spawn_call, spawn_step.
    destruct (daemon_rank node) as [rank|]; [|done]. simpl.
    destruct (prte_util_convert_vpid_to_string E rank) as [vs|]; [|done]. simpl.
    destruct (prte_get_attribute _ _) as [l|]; [|done]. simpl.
    intros Hpass Hidx H0 Hcap.
    apply andb_true_iff in Hpass as [Hrc Hpass]. apply bool_decide_eq_true in Hrc.
    rewrite decide_True by done. rewrite decide_True by lia.
    destruct (tm_spawn E (<[idx := vs]> argv) env l (tm w)) as [rc t].
    simpl in Hrc, Hpass. subst rc. simpl.
    apply IH; simpl; try done; try lia.
    + by rewrite spawns_pass_insert.
    + by rewrite length_insert.
  - apply IH.
Qed.

Lemma spawn_loop_done_state (env : list string) (idx : nat) (num_new : Z)
    (items : list (option prte_node_t)) (argv argv1 : list string)
    (w w1 : world TM) :
  spawn_loop E env idx num_new items argv w = Some (LoopDone argv1 w1) →
  tm w1 = tm_after_spawns E env idx argv (tm w) (eligible items) ∧
  length argv1 = length argv ∧
  ∀ v, <[idx := v]> argv1 = <[idx := v]> argv.
Proof.
  revert argv w. induction items as [|[node|] items IH]; intros argv w; simpl.
  - by intros [= -> ->].
  - destruct (PRTE_FLAG_TEST _ _); [apply IH|].
    destruct (spawn_step E env idx num_new argv node w) as [[argv' w'|w'|w']|] eqn:Hstep;
      simpl; try done.
    intros Hrest. destruct (IH _ _ Hrest) as (Htm & Hlen & Hins).
    unfold spawn_step in Hstep. unfold spawn_call.
    destruct (daemon_rank node) as [rank|]; [|done]. simpl in *.
    destruct (prte_util_convert_vpid_to_string E rank) as [vs|]; [|done]. simpl.
    case_decide; [|done].
    destruct (prte_get_attribute _ _) as [l|]; [|done]. simpl.
    case_decide; [|done].
    destruct (tm_spawn E _ env l (tm w)) as [rc t] eqn:Hsp.
    case_decide; [done|]. injection Hstep as <- <-. simpl in *.
    rewrite tm_after_spawns_insert in Htm. rewrite length_insert in Hlen.
    split; [done|]. split; [done|].
    intros v. by rewrite Hins, list_insert_insert_eq.
  - apply IH.
Qed.

(** A turn of the loop fails when the node has no launch id, and when
    [tm_spawn] does not return TM_SUCCESS for it. *)
Lemma spawn_step_fails (env : list string) (idx : nat) (num_new : Z)
    (argv : list string) (node : prte_node_t) (w : world TM)
    (rank : Z) (vs : string) :
  daemon_rank node = Some rank →
  prte_util_convert_vpid_to_string E rank = Some vs →
  (idx < length argv)%nat →
  0 ≤ launched w < num_new →
  let id := prte_get_attribute (node_attributes node) PRTE_NODE_LAUNCH_ID in
  (∀ l, id = Some l → (tm_spawn E (<[idx := vs]> argv) env l (tm w)).1 ≠ TM_SUCCESS) →
  ∃ w2,
    spawn_step E env idx num_new argv node w = Some (StepFail w2) ∧
    jobs w2 = jobs w ∧ launched w2 = launched w ∧
    trace w2 = trace w ++
      match id with
      | Some l => [EvTmSpawn (<[idx := vs]> argv) env l (launched w)]
      | None => []
      end ++
      [EvShowHelp "help-plm-tm.txt" "tm-spawn-failed" (<[idx := vs]> argv !! 0%nat)
                  (name node) (default 0 id)].
Proof.
  intros Hrank Hvs Hidx Hroom id Hcause. subst id.
  unfold spawn_step. rewrite Hrank. simpl. rewrite Hvs.
  rewrite decide_True by done.
  destruct (prte_get_attribute _ _) as [l|].
  - rewrite decide_True by done.
    specialize (Hcause l eq_refl).
    destruct (tm_spawn E _ env l (tm w)) as [rc t]. simpl in Hcause.
    rewrite decide_True by done.
    eexists. split; [done|]. simpl. by rewrite <- app_assoc.
  - eexists. split; [done|]. done.
Qed.

(** C2.  [launch_daemons] has reached the loop, and the turn of each
    node before [node] that needs a daemon has passed.  [node] needs a
    daemon, its daemon has a rank that converts to a string, and there
    is room for its handles; but its launch id cannot be resolved, or
    [tm_spawn], called for it in the state in which the earlier spawns
    left the backend, does not return TM_SUCCESS.  Then the handler
    returns (it has no status to give back), and what it did after the
    setup is exactly this: one call of [tm_spawn] for each earlier node
    that needs a daemon; the call of [tm_spawn] that failed, if the
    launch id was resolved; the diagnostic with the name of [node] and
    with its launch id (0 when it could not be resolved); the
    activation of FAILED_TO_START for the daemon job.  There is no call
    for the nodes behind [node].  Nothing is taken back: the earlier
    calls stay on record, the counter of recorded handles has grown by
    their number, and the jobs are as the setup left them, so no job is
    marked as launched. *)
Theorem launch_daemons_aborts_on_failed_spawn
    (jdata daemons : jobid) (w w0 : world TM) (m : prte_job_map_t)
    (argv env : list string) (idx : nat)
    (pre post : list (option prte_node_t)) (node : prte_node_t)
    (rank : Z) (vpid_string : string) :
  launch_setup E jdata w = Some (SetupProceed daemons m argv idx env w0) →
  nodes m = pre ++ Some node :: post →
  spawns_pass E env idx argv (tm w0) (eligible pre) = true →
  PRTE_FLAG_TEST (node_flags node) PRTE_NODE_FLAG_DAEMON_LAUNCHED = false →
  daemon_rank node = Some rank →
  prte_util_convert_vpid_to_string E rank = Some vpid_string →
  (idx < length argv)%nat →
  0 ≤ launched w →
  launched w + Z.of_nat (length (eligible pre)) < num_new_daemons m →
  let slot := launched w + Z.of_nat (length (eligible pre)) in
  let argv' := <[idx := vpid_string]> argv in
  let t := tm_after_spawns E env idx argv (tm w0) (eligible pre) in
  let id := prte_get_attribute (node_attributes node) PRTE_NODE_LAUNCH_ID in
  (∀ l, id = Some l → (tm_spawn E argv' env l t).1 ≠ TM_SUCCESS) →
  ∃ w',
    launch_daemons E jdata w = Some (Returned w') ∧
    trace w' = trace w0 ++
      spawn_calls E env idx argv (launched w) (eligible pre) ++
      match id with
      | Some l => [EvTmSpawn argv' env l slot]
      | None => []
      end ++
      [EvShowHelp "help-plm-tm.txt" "tm-spawn-failed" (argv' !! 0%nat)
                  (name node) (default 0 id);
       EvActivate (Some daemons) PRTE_JOB_STATE_FAILED_TO_START] ∧
    length (spawn_calls E env idx argv (launched w) (eligible pre))
      = length (eligible pre) ∧
    launched w' = slot ∧
    jobs w' = jobs w0.
Proof.
  intros Hsetup Hnodes Hpre Hflag Hrank Hvs Hidx H0 Hroom slot argv' t id Hcause.
  destruct (launch_setup_cases E _ _ _ Hsetup) as (_ & Hl0 & _).
  simpl in Hl0.
  destruct (spawn_loop_passes env idx (num_new_daemons m) pre argv w0)
    as (argv1 & w1 & Hloop); [done|done|lia|lia|].
  destruct (spawn_loop_calls E _ _ _ _ _ _ _ Hloop)
    as (Hj1 & _ & _ & sp & rest & Ht1 & _ & _ & Hr).
  simpl in Hj1, Ht1, Hr. destruct Hr as (-> & Hsp & Hlen & Hl1).
  rewrite app_nil_r in Ht1. rewrite Hl0 in Hsp, Hl1.
  destruct (spawn_loop_done_state _ _ _ _ _ _ _ _ Hloop) as (Htm & Hlen1 & Hins).
  destruct (spawn_step_fails env idx (num_new_daemons m) argv1 node w1 rank vpid_string)
    as (w2 & Hstep & Hj2 & Hl2 & Ht2); [done|done|lia|lia| |].
  { rewrite Hins, Htm. exact Hcause. }
  rewrite Hins in Ht2.
  exists (PRTE_ACTIVATE_JOB_STATE (Some daemons) PRTE_JOB_STATE_FAILED_TO_START w2).
  split.
  - unfold launch_daemons. rewrite Hsetup. simpl. rewrite Hnodes.
    rewrite (spawn_loop_app _ _ _ _ _ _ _ _ _ Hloop). simpl.
    rewrite Hflag, Hstep. done.
  - simpl. rewrite <- Hsp, Hlen.
    split; [|split; [done|split; [subst slot; lia|congruence]]].
    rewrite Ht2, Ht1, Hl1, Hlen. subst slot argv' id.
    destruct (prte_get_attribute _ _); simpl; by rewrite <- !app_assoc.
Qed.

(** C3, as the code has it.  The job is a debugger-daemon request; or
    the setup of the virtual machine succeeds, the job and the daemon
    job are there after it, and the daemon job carries the
    do-not-launch attribute or has a map with no new daemon.  Then the
    handler returns without a call of [tm_spawn]: all it does is to set
    the state of the job to DAEMONS_LAUNCHED and to activate
    DAEMONS_REPORTED for it. *)
Theorem launch_daemons_nothing_to_launch
    (jdata : jobid) (w : world TM) (jd : prte_job_t) :
  jobs w !! jdata = Some jd →
  PRTE_FLAG_TEST (flags jd) PRTE_JOB_FLAG_DEBUGGER_DAEMON = true ∨
  (∃ js d dj,
     prte_plm_base_setup_virtual_machine E jdata (jobs w) = (PRTE_SUCCESS, js) ∧
     is_Some (js !! jdata) ∧
     my_job w = Some d ∧ js !! d = Some dj ∧
     (is_Some (prte_get_attribute (attributes dj) PRTE_JOB_DO_NOT_LAUNCH) ∨
      ∃ m, map dj = Some m ∧ num_new_daemons m = 0)) →
  ∃ w',
    launch_daemons E jdata w = Some (Returned w') ∧
    trace w' = trace w ++ [EvActivate (Some jdata) PRTE_JOB_STATE_DAEMONS_REPORTED] ∧
    count_events is_spawn (trace w') = count_events is_spawn (trace w) ∧
    state <$> jobs w' !! jdata = Some PRTE_JOB_STATE_DAEMONS_LAUNCHED ∧
    tm w' = tm w ∧ launched w' = launched w.
Proof.
  intros Hjd Hcase.
  assert (Hdone : ∀ (w1 : world TM) jd1,
    jobs w1 !! jdata = Some jd1 → trace w1 = trace w → tm w1 = tm w →
    launched w1 = launched w →
    ∃ w', nothing_to_launch jdata w1 = Some w' ∧
      trace w' = trace w ++ [EvActivate (Some jdata) PRTE_JOB_STATE_DAEMONS_REPORTED] ∧
      count_events is_spawn (trace w') = count_events is_spawn (trace w) ∧
      state <$> jobs w' !! jdata = Some PRTE_JOB_STATE_DAEMONS_LAUNCHED ∧
      tm w' = tm w ∧ launched w' = launched w).
  { intros w1 jd1 H1 Ht Htm Hl. unfold nothing_to_launch, assign_state.
    rewrite H1. simpl. eexists. split; [done|]. simpl. rewrite Ht.
    split; [done|]. split.
    - unfold count_events. rewrite filter_app. simpl.
      rewrite length_app. simpl. lia.
    - by rewrite lookup_insert_eq. }
  unfold launch_daemons, launch_setup. rewrite Hjd. simpl.
  destruct Hcase as [Hdbg|(js & d & dj & Hvm & [jd1 Hjd1] & Hme & Hdj & Hcase)].
  - rewrite Hdbg.
    destruct (Hdone w jd Hjd) as (w' & -> & Hw'); try done. by exists w'.
  - destruct (PRTE_FLAG_TEST (flags jd) PRTE_JOB_FLAG_DEBUGGER_DAEMON).
    { destruct (Hdone w jd Hjd) as (w' & -> & Hw'); try done. by exists w'. }
    rewrite Hvm. rewrite decide_False by (intros ?; done).
    rewrite Hme. simpl. rewrite Hdj. simpl.
    destruct (Hdone (with_jobs js w) jd1 Hjd1) as (w' & Hntl & Hw'); try done.
    destruct (decide (is_Some (prte_get_attribute (attributes dj) PRTE_JOB_DO_NOT_LAUNCH)))
      as [Hdnl|Hdnl].
    { rewrite Hntl. by exists w'. }
    destruct Hcase as [?|(m & Hm & Hzero)]; [done|].
    rewrite Hm. rewrite decide_True by done. rewrite Hntl. by exists w'.
Qed.

(** What the polling loop does, from any state. *)
Lemma poll_loop_spec (count : nat) (w : world TM) :
  jobs (poll_loop E count w).2 = jobs w ∧
  launched (poll_loop E count w).2 = launched w ∧
  match first_failed_poll E count (tm w) with
  | None =>
      (poll_loop E count w).1 = false ∧
      trace (poll_loop E count w).2 = trace w ++ replicate count EvTmPoll
  | Some k =>
      (poll_loop E count w).1 = true ∧ (k < count)%nat ∧
      ∃ msg code,
        trace (poll_loop E count w).2
        = trace w ++ replicate (S k) EvTmPoll ++ [EvOutput msg code]
  end.
Proof.
  revert w. induction count as [|count IH]; intros w; simpl.
  - by rewrite app_nil_r.
  - destruct (tm_poll E (tm w)) as [[rc local_err] t].
    destruct (decide (rc ≠ TM_SUCCESS)) as [Hrc|Hrc].
    { rewrite decide_False by tauto. simpl. repeat split; try done; [lia|].
      eexists _, _. by rewrite <- app_assoc. }
    destruct (decide (local_err ≠ TM_SUCCESS)) as [Hle|Hle].
    { rewrite decide_False by tauto. simpl. repeat split; try done; [lia|].
      eexists _, _. by rewrite <- app_assoc. }
    rewrite decide_True by (split; [by destruct (decide (rc = TM_SUCCESS)) | by destruct (decide (local_err = TM_SUCCESS))]).
    specialize (IH (log EvTmPoll (with_tm t w))). simpl in IH.
    destruct IH as (Hj & Hl & IH). split; [done|]. split; [done|].
    destruct (first_failed_poll E count t) as [k|]; simpl.
    + destruct IH as (Hf & Hk & msg & code & Ht). split; [done|]. split; [lia|].
      exists msg, code. rewrite Ht, <- !app_assoc. done.
    + destruct IH as (Hf & Ht). split; [done|]. rewrite Ht, <- app_assoc. done.
Qed.

(** C4.  With [N] handles on record, [poll_spawns] calls [tm_poll]
    once for each of them as long as the polls confirm.  When all [N]
    confirm, the [N] calls are all the handler does: no job changes
    and nothing is activated.  When the poll of index [k] is the first
    that does not confirm (the call fails, or it reports a failed
    spawn), the handler has made [k + 1] calls, makes no further one,
    reports the failure and activates FAILED_TO_START for the job. *)
Theorem poll_spawns_polls_each_handle (jdata : jobid) (w : world TM) :
  let N := Z.to_nat (launched w) in
  let w' := poll_spawns E jdata w in
  jobs w' = jobs w ∧ launched w' = launched w ∧
  match first_failed_poll E N (tm w) with
  | None =>
      trace w' = trace w ++ replicate N EvTmPoll ∧
      count_events is_poll (trace w') = (count_events is_poll (trace w) + N)%nat
  | Some k =>
      (k < N)%nat ∧
      (∃ msg code,
         trace w' = trace w ++ replicate (S k) EvTmPoll ++
           [EvOutput msg code;
            EvActivate (Some jdata) PRTE_JOB_STATE_FAILED_TO_START]) ∧
      count_events is_poll (trace w') = (count_events is_poll (trace w) + S k)%nat
  end.
Proof.
  intros N w'. subst w'. unfold poll_spawns. fold N.
  assert (Hcount : ∀ t n rest,
    count_events is_poll rest = 0%nat →
    count_events is_poll (t ++ replicate n EvTmPoll ++ rest)
    = (count_events is_poll t + n)%nat).
  { intros t n rest Hrest. unfold count_events in *.
    rewrite !filter_app, !length_app, Hrest.
    assert (length (filter (λ e, is_poll e = true) (replicate n EvTmPoll)) = n) as ->; [|lia].
    induction n as [|n IH]; simpl; [done|]. by rewrite IH. }
  destruct (poll_loop_spec N w) as (Hj & Hl & Hspec).
  destruct (poll_loop E N w) as [failed w1]. cbn [fst snd] in *.
  destruct (first_failed_poll E N (tm w)) as [k|].
  - destruct Hspec as (-> & Hk & msg & code & Ht).
    cbn [PRTE_ACTIVATE_JOB_STATE log jobs launched trace].
    split; [done|]. split; [done|]. split; [done|]. rewrite Ht. split.
    + exists msg, code. by rewrite <- !app_assoc.
    + rewrite <- !app_assoc. by apply Hcount.
  - destruct Hspec as (-> & Ht). split; [done|]. split; [done|].
    split; [done|]. rewrite Ht.
    rewrite <- (app_nil_r (replicate N EvTmPoll)). by apply Hcount.
Qed.

End PlmFacts.

Section PlmScenarios.
Import PlmTm PlmView PlmExamples.

(** Three nodes need a daemon and the spawn for the second one fails:
    [tm_spawn] is called for the first and the second node only, the
    diagnostic names "n2" and its launch id 20, and the daemon job is
    sent to FAILED_TO_START. *)
Lemma launch_daemons_aborts_on_failed_spawn_witness :
  ∃ w',
    launch_daemons backend 2%positive start = Some (Returned w') ∧
    trace w' = [EvTmInit] ++
      [EvTmSpawn ["prted"; "--rank"; "1"] ["PRTE_MCA_plm=rsh"] 10 0] ++
      [EvTmSpawn ["prted"; "--rank"; "2"] ["PRTE_MCA_plm=rsh"] 20 1] ++
      [EvShowHelp "help-plm-tm.txt" "tm-spawn-failed" (Some "prted") "n2" 20;
       EvActivate (Some 1%positive) PRTE_JOB_STATE_FAILED_TO_START] ∧
    length [EvTmSpawn ["prted"; "--rank"; "1"] ["PRTE_MCA_plm=rsh"] 10 0] = 1%nat ∧
    launched w' = 1 ∧
    jobs w' = jobs after_setup.
Proof.
  apply (launch_daemons_aborts_on_failed_spawn backend 2%positive 1%positive
           start after_setup three_nodes
           ["prted"; "--rank"; "<template>"] ["PRTE_MCA_plm=rsh"] 2%nat
           [Some (node "n1" 1 10)] [Some (node "n3" 3 30)] (node "n2" 2 20)
           2 "2").
  - reflexivity.
  - reflexivity.
  - reflexivity.
  - reflexivity.
  - reflexivity.
  - reflexivity.
  - simpl. lia.
  - simpl. lia.
  - simpl. lia.
  - intros l [= <-]. vm_compute. discriminate.
Defined.

Example three_nodes_second_spawn_fails :
  ∃ w',
    launch_daemons backend 2%positive start = Some (Returned w') ∧
    trace w' =
      [EvTmInit;
       EvTmSpawn ["prted"; "--rank"; "1"] ["PRTE_MCA_plm=rsh"] 10 0;
       EvTmSpawn ["prted"; "--rank"; "2"] ["PRTE_MCA_plm=rsh"] 20 1;
       EvShowHelp "help-plm-tm.txt" "tm-spawn-failed" (Some "prted") "n2" 20;
       EvActivate (Some 1%positive) PRTE_JOB_STATE_FAILED_TO_START] ∧
    launched w' = 1 ∧
    state <$> jobs w' !! 2%positive = Some PRTE_JOB_STATE_LAUNCH_DAEMONS.
Proof.
  eexists. split; [vm_compute; reflexivity|].
  split; [reflexivity|]. split; reflexivity.
Qed.

(** The second node has no launch id: no [tm_spawn] for it or for the
    third node, and the diagnostic carries the id 0. *)
Example second_node_without_launch_id :
  ∃ w',
    launch_daemons backend 2%positive start_without_id = Some (Returned w') ∧
    trace w' =
      [EvTmInit;
       EvTmSpawn ["prted"; "--rank"; "1"] ["PRTE_MCA_plm=rsh"] 10 0;
       EvShowHelp "help-plm-tm.txt" "tm-spawn-failed" (Some "prted") "n2" 0;
       EvActivate (Some 1%positive) PRTE_JOB_STATE_FAILED_TO_START] ∧
    launched w' = 1.
Proof.
  eexists. split; [vm_compute; reflexivity|]. split; reflexivity.
Qed.

(** All three spawns succeed on a backend that refuses nothing: three
    calls with three rank arguments, both jobs marked as launched, and
    nothing activated. *)
Example three_nodes_all_spawned :
  ∃ w',
    launch_daemons backend 2%positive
      {| jobs := {[ 1%positive :=
                      {| flags := []; attributes := [];
                         map := Some {| nodes := [Some (node "n1" 1 10);
                                                  Some (node "n2" 2 21);
                                                  Some (node "n3" 3 30)];
                                        num_new_daemons := 3 |};
                         state := PRTE_JOB_STATE_OTHER 0 |};
                    2%positive := app_job ]};
         my_job := Some 1%positive;
         launched := 0; connected := false; tm := 0%nat; trace := [] |}
      = Some (Returned w') ∧
    trace w' =
      [EvTmInit;
       EvTmSpawn ["prted"; "--rank"; "1"] ["PRTE_MCA_plm=rsh"] 10 0;
       EvTmSpawn ["prted"; "--rank"; "2"] ["PRTE_MCA_plm=rsh"] 21 1;
       EvTmSpawn ["prted"; "--rank"; "3"] ["PRTE_MCA_plm=rsh"] 30 2] ∧
    launched w' = 3 ∧
    state <$> jobs w' !! 2%positive = Some PRTE_JOB_STATE_DAEMONS_LAUNCHED ∧
    state <$> jobs w' !! 1%positive = Some PRTE_JOB_STATE_DAEMONS_LAUNCHED.
Proof.
  eexists. split; [vm_compute; reflexivity|].
  split; [reflexivity|]. split; [reflexivity|]. split; reflexivity.
Qed.

Lemma launch_daemons_nothing_to_launch_witness :
  ∃ w',
    launch_daemons backend 2%positive start_dry_run = Some (Returned w') ∧
    trace w' = trace start_dry_run ++
               [EvActivate (Some 2%positive) PRTE_JOB_STATE_DAEMONS_REPORTED] ∧
    count_events is_spawn (trace w') = count_events is_spawn (trace start_dry_run) ∧
    state <$> jobs w' !! 2%positive = Some PRTE_JOB_STATE_DAEMONS_LAUNCHED ∧
    tm w' = tm start_dry_run ∧ launched w' = launched start_dry_run.
Proof.
  apply (launch_daemons_nothing_to_launch backend 2%positive start_dry_run
           (dry_run app_job)).
  - reflexivity.
  - right. exists (jobs start_dry_run), 1%positive, (dry_run daemon_job).
    split; [reflexivity|]. split; [by eexists|]. split; [reflexivity|].
    split; [reflexivity|]. left. by eexists.
Defined.

(** C3 as the claim has it fails when the setup of the virtual
    machine fails: the daemon job (and the job) carries the
    do-not-launch attribute and its map has no new daemon, yet the job
    is not set to DAEMONS_LAUNCHED and DAEMONS_REPORTED is not
    activated; the daemon job is sent to FAILED_TO_START instead. *)
Lemma launch_daemons_dry_run_with_failed_vm_setup :
  jobs start_dry_run !! 1%positive = Some (dry_run daemon_job) ∧
  jobs start_dry_run !! 2%positive = Some (dry_run app_job) ∧
  my_job start_dry_run = Some 1%positive ∧
  (∀ j, prte_get_attribute (attributes (dry_run j)) PRTE_JOB_DO_NOT_LAUNCH = Some 1) ∧
  (∀ j, num_new_daemons <$> map (dry_run j) = Some 0) ∧
  ∃ w',
    launch_daemons backend_without_vm 2%positive start_dry_run = Some (Returned w') ∧
    trace w' = [EvErrorLog PRTE_ERROR;
                EvActivate (Some 1%positive) PRTE_JOB_STATE_FAILED_TO_START] ∧
    state <$> jobs w' !! 2%positive = Some PRTE_JOB_STATE_LAUNCH_DAEMONS ∧
    state <$> jobs w' !! 2%positive ≠ Some PRTE_JOB_STATE_DAEMONS_LAUNCHED ∧
    EvActivate (Some 2%positive) PRTE_JOB_STATE_DAEMONS_REPORTED ∉ trace w'.
Proof.
  split; [reflexivity|]. split; [reflexivity|]. split; [reflexivity|].
  split; [reflexivity|]. split; [reflexivity|].
  eexists. split; [vm_compute; reflexivity|].
  split; [reflexivity|]. split; [reflexivity|]. split; [discriminate|].
  cbn [trace]. intros Hin. apply list_elem_of_In in Hin. simpl in Hin.
  destruct Hin as [?|[?|[]]]; discriminate.
Qed.

(** Two handles are on record and the second poll reports a failed
    spawn: two polls, the report, the activation. *)
Example second_poll_reports_failure :
  first_failed_poll backend 2 (tm two_launched) = Some 1%nat ∧
  trace (poll_spawns backend 2%positive two_launched) =
    [EvTmPoll; EvTmPoll;
     EvOutput "plm:tm: failed to spawn daemon, error code = %d" 5;
     EvActivate (Some 2%positive) PRTE_JOB_STATE_FAILED_TO_START].
Proof. split; reflexivity. Qed.

End PlmScenarios.
(* ===================================================================== *)
(** ** Buffer operations: what unload and load do to a well-formed buffer *)
(* ===================================================================== *)

Section BufferInvariant.
Import Mem Status Buffer.

(** The heap without the region of a base pointer. *)
Lemma destruct_ok (h : heap) (b : prrte_buffer_t) :
  buffer_ok h b = true →
  ∃ h', prrte_buffer_destruct b h = Some h' ∧
        (∀ B ofs, base_ptr b = Ptr B ofs → h' = delete B h) ∧
        (base_ptr b = NULL → h' = h).
Proof.
  intros Hok. rewrite (buffer_ok_destruct _ _ Hok).
  eexists. split; [done|]. destruct (base_ptr b); split; congruence.
Qed.

(** Every case of unload on a well-formed buffer at once. *)
Lemma unload_cases (m : mem) (a : addr) (b : prrte_buffer_t)
    (tail : list byte) (slot : ptr) (len_slot : Z) :
  bufs m !! a = Some b →
  buffer_ok (blocks m) b = true →
  unread_bytes m b = Some tail →
  ∃ p m1,
    prrte_dss_unload (Some a) (Some slot) len_slot m =
      Some (PRRTE_SUCCESS, Some p, Z.of_nat (length tail), m1) ∧
    (* nothing to give *)
    ((tail = [] ∧ p = NULL ∧
      ((bytes_used b = 0 ∧ m1 = m) ∨
       (∃ B, base_ptr b = Ptr B 0 ∧ bytes_used b ≠ 0 ∧
             bufs m1 = <[a := prrte_buffer_construct]> (bufs m) ∧
             blocks m1 = delete B (blocks m)))) ∨
     (* the region itself *)
     (tail ≠ [] ∧ p = base_ptr b ∧ unpack_ptr b = base_ptr b ∧
      (∃ B bs, p = Ptr B 0 ∧ blocks m !! B = Some (Bytes bs) ∧
               tail = take (length tail) bs) ∧
      bufs m1 = <[a := prrte_buffer_construct]> (bufs m) ∧
      blocks m1 = blocks m) ∨
     (* a copy of the tail *)
     (tail ≠ [] ∧ unpack_ptr b ≠ base_ptr b ∧
      ∃ B B', base_ptr b = Ptr B 0 ∧ p = Ptr B' 0 ∧ blocks m !! B' = None ∧
              bufs m1 = <[a := prrte_buffer_construct]> (bufs m) ∧
              blocks m1 = <[B' := Bytes tail]> (delete B (blocks m)))).
Proof.
  intros Ha Hok Htail.
  destruct (unread_bytes_ok m b Hok)
    as (off & tail' & Hoff & Hoffr & Htail' & Hlen & Hload).
  rewrite Htail in Htail'. injection Htail' as <-.
  unfold prrte_dss_unload. rewrite Ha. simpl.
  destruct (buffer_ok_inv _ _ Hok)
    as [(Hb & Hp & Hu & Hal & Hused)
       |(B & bs & u & Hb & HB & Hu & Hp & Hur & Hua & Hlenbs & Hmax)].
  - (* no region *)
    rewrite decide_True by (by left).
    assert (tail = []) as ->.
    { apply length_zero_iff_nil. rewrite Hb, Hu in Hoff. simpl in Hoff. lia. }
    eexists _, _. split; [reflexivity|]. left. by eauto.
  - unfold INT32_MAX in Hmax.
    rewrite Hb, Hu in Hoff. simpl in Hoff. rewrite decide_True in Hoff by done.
    injection Hoff as <-. replace (u - 0) with u in * by lia.
    destruct (decide (bytes_used b = 0)) as [Hz|Hnz].
    + (* capacity, but nothing in it *)
      rewrite decide_True by (by right).
      assert (tail = []) as -> by (apply length_zero_iff_nil; lia).
      eexists _, _. split; [reflexivity|]. left. by eauto.
    + rewrite decide_False by (rewrite Hb; intros [?|?]; done).
      destruct (decide (u = 0)) as [->|Hu0].
      * (* nothing unpacked *)
        rewrite decide_True by congruence.
        unfold prrte_buffer_destruct. simpl.
        rewrite to_int32_small by lia.
        replace (bytes_used b - 0) with (bytes_used b) in * by lia.
        rewrite <- Hlen.
        eexists _, _. split; [reflexivity|].
        assert (tail ≠ []) by (intros ->; simpl in Hlen; lia).
        right. left. split; [done|]. split; [done|]. split; [congruence|].
        split; [|done]. exists B, bs. split; [done|]. split; [done|].
        specialize (Hload ltac:(lia)). rewrite Hu in Hload.
        rewrite (load_bytes_block B 0 _ bs) in Hload by (done || lia).
        injection Hload as Hload. rewrite drop_0 in Hload.
        rewrite <- Hload at 1. f_equal. lia.
      * rewrite decide_False by (rewrite Hb, Hu; intros [= ?]; lia).
        rewrite Hu, Hb. simpl. rewrite decide_True by done. simpl.
        replace (u - 0) with u by lia.
        rewrite (to_size_t_small (bytes_used b - u)) by lia.
        rewrite (to_int32_small (bytes_used b - u)) by lia.
        unfold prrte_buffer_destruct. rewrite Hb. simpl.
        rewrite <- Hlen.
        destruct (decide (Z.of_nat (length tail) = 0)) as [Hz|Hnz']; simpl.
        -- rewrite (free_block B (Bytes bs)) by done.
           assert (tail = []) as -> by (apply length_zero_iff_nil; lia).
           eexists _, _. split; [reflexivity|]. left.
           split; [done|]. split; [done|]. right. exists B. done.
        -- rewrite (to_size_t_small (Z.of_nat (length tail))) by lia.
           rewrite ?malloc_spec.
           set (B' := fresh (dom (blocks m))).
           assert (HB' : blocks m !! B' = None) by apply fresh_block_None.
           assert (HBB : B' ≠ B) by congruence.
           specialize (Hload ltac:(lia)). rewrite Hu in Hload.
           rewrite <- Hlen in Hload.
           unfold memcpy.
           rewrite (load_bytes_frame (blocks m)) by (by rewrite lookup_insert_ne).
           rewrite Hload. simpl.
           rewrite (store_bytes_whole B' tail
                      (replicate (Z.to_nat (Z.of_nat (length tail))) x00))
             by (rewrite ?lookup_insert_eq, ?length_replicate; done || lia).
           simpl. rewrite (free_block B (Bytes bs)) by (by rewrite !lookup_insert_ne).
           eexists _, _. split; [reflexivity|]. right. right.
           split; [by intros ->|]. split; [rewrite ?Hb, ?Hu; intros [= ?]; lia|].
           exists B, B'. split; [done|]. split; [done|]. split; [done|].
           split; [done|]. simpl.
           rewrite insert_insert_eq. by rewrite delete_insert_ne.
Qed.

(** X1.  The calls that unload does not serve.  A null buffer gives
    BAD_PARAM whatever the other arguments are, and so does a null
    payload slot whatever the buffer is: neither out slot nor the state
    changes.  A buffer without a region, or with a region and a used
    length of zero, gives success with a null payload and length 0, and
    the buffer is left exactly as it was: a buffer that has capacity but
    no data keeps its region, its cursors and its type, it is not
    reset. *)
Theorem unload_of_nothing (m : mem) :
  (∀ payload len_slot,
     prrte_dss_unload None payload len_slot m =
       Some (PRRTE_ERR_BAD_PARAM, payload, len_slot, m)) ∧
  (∀ buffer len_slot,
     prrte_dss_unload buffer None len_slot m =
       Some (PRRTE_ERR_BAD_PARAM, None, len_slot, m)) ∧
  (∀ a b slot len_slot,
     bufs m !! a = Some b →
     base_ptr b = NULL ∨ bytes_used b = 0 →
     prrte_dss_unload (Some a) (Some slot) len_slot m =
       Some (PRRTE_SUCCESS, Some NULL, 0, m)).
Proof.
  split; [done|]. split; [by intros [a|]|].
  intros a b slot len_slot Ha Hempty.
  unfold prrte_dss_unload. rewrite Ha. simpl. by rewrite decide_True.
Qed.

(** X2.  Unload of a well-formed buffer always succeeds and hands out
    exactly the bytes that have not been unpacked: the reported length
    is their number, and the payload is null when there is none and
    otherwise points to memory that holds them. *)
Theorem unload_returns_unread_bytes (m : mem) (a : addr) (b : prrte_buffer_t)
    (tail : list byte) (slot : ptr) (len_slot : Z) :
  bufs m !! a = Some b →
  buffer_ok (blocks m) b = true →
  unread_bytes m b = Some tail →
  ∃ p m1,
    prrte_dss_unload (Some a) (Some slot) len_slot m =
      Some (PRRTE_SUCCESS, Some p, Z.of_nat (length tail), m1) ∧
    (tail = [] → p = NULL) ∧
    (tail ≠ [] → load_bytes p (Z.of_nat (length tail)) (blocks m1) = Some tail) ∧
    (∀ a', a' ≠ a → bufs m1 !! a' = bufs m !! a').
Proof.
  intros Ha Hok Htail.
  destruct (unload_cases m a b tail slot len_slot Ha Hok Htail)
    as (p & m1 & Hrun & Hcases).
  exists p, m1. split; [done|].
  destruct Hcases
    as [(-> & -> & Hst)
       |[(Hne & -> & _ & (B & bs & HpB & HB & Htk) & Hbufs & Hblocks)
        |(Hne & _ & B & B' & _ & -> & _ & Hbufs & Hblocks)]].
  - split; [done|]. split; [done|]. intros a' Ha'.
    destruct Hst as [(_ & ->)|(B & _ & _ & -> & _)]; [done|].
    by rewrite lookup_insert_ne.
  - split; [done|]. split.
    + intros _. rewrite Hblocks, HpB.
      assert (length tail ≤ length bs)%nat.
      { rewrite Htk, length_take. lia. }
      rewrite (load_bytes_block B 0 _ bs) by (done || lia).
      rewrite drop_0, Nat2Z.id. by rewrite <- Htk.
    + intros a' Ha'. by rewrite Hbufs, lookup_insert_ne.
  - split; [done|]. split.
    + intros _. rewrite Hblocks.
      rewrite (load_bytes_block B' 0 _ tail) by (rewrite ?lookup_insert_eq; done || lia).
      rewrite drop_0, Nat2Z.id. by rewrite firstn_all.
    + intros a' Ha'. by rewrite Hbufs, lookup_insert_ne.
Qed.

(** X3.  After unload of a well-formed buffer that held data, the
    buffer is the freshly constructed one, and its old region is either
    the very payload that was handed out (nothing was unpacked, the heap
    is unchanged) or no longer live.  Whatever the buffer held, one more
    unload gives a null payload and length 0 and changes nothing. *)
Theorem unload_drains_buffer (m : mem) (a : addr) (b : prrte_buffer_t)
    (slot : ptr) (len_slot : Z) :
  bufs m !! a = Some b →
  buffer_ok (blocks m) b = true →
  ∃ p n m1,
    prrte_dss_unload (Some a) (Some slot) len_slot m =
      Some (PRRTE_SUCCESS, Some p, n, m1) ∧
    (bytes_used b ≠ 0 →
       bufs m1 !! a = Some prrte_buffer_construct ∧
       ∀ B ofs, base_ptr b = Ptr B ofs →
         (p = Ptr B 0 ∧ unpack_ptr b = base_ptr b ∧ blocks m1 = blocks m) ∨
         (p ≠ Ptr B 0 ∧ blocks m1 !! B = None)) ∧
    (∀ slot' len_slot',
       prrte_dss_unload (Some a) (Some slot') len_slot' m1 =
         Some (PRRTE_SUCCESS, Some NULL, 0, m1)).
Proof.
  intros Ha Hok.
  destruct (unread_bytes_ok m b Hok) as (off & tail & _ & _ & Htail & _).
  destruct (unload_cases m a b tail slot len_slot Ha Hok Htail)
    as (p & m1 & Hrun & Hcases).
  exists p, (Z.of_nat (length tail)), m1. split; [done|].
  assert (Hagain : bufs m1 !! a = Some prrte_buffer_construct →
            ∀ slot' len_slot',
              prrte_dss_unload (Some a) (Some slot') len_slot' m1 =
                Some (PRRTE_SUCCESS, Some NULL, 0, m1)).
  { intros Hc slot' len_slot'. unfold prrte_dss_unload. rewrite Hc. done. }
  destruct Hcases
    as [(-> & -> & Hst)
       |[(Hne & -> & Hunp & (B & bs & HpB & HB & Htk) & Hbufs & Hblocks)
        |(Hne & Hunp & B & B' & Hb & -> & HB' & Hbufs & Hblocks)]].
  - destruct Hst as [(Hz & ->)|(B & Hb & Hnz & Hbufs & Hblocks)].
    + split; [done|]. intros slot' len_slot'.
      unfold prrte_dss_unload. rewrite Ha. simpl. rewrite decide_True by (by right).
      done.
    + split.
      * intros _. split; [by rewrite Hbufs, lookup_insert_eq|].
        intros B0 ofs. rewrite Hb. intros [= <- <-]. right.
        split; [done|]. by rewrite Hblocks, lookup_delete_eq.
      * apply Hagain. by rewrite Hbufs, lookup_insert_eq.
  - split.
    + intros _. split; [by rewrite Hbufs, lookup_insert_eq|].
      intros B0 ofs Hb. left. rewrite Hb in HpB. injection HpB as -> ->.
      done.
    + apply Hagain. by rewrite Hbufs, lookup_insert_eq.
  - split.
    + intros _. split; [by rewrite Hbufs, lookup_insert_eq|].
      intros B0 ofs. rewrite Hb. intros [= <- <-]. right.
      assert (B' ≠ B).
      { intros ->. destruct (buffer_ok_inv _ _ Hok) as [(? & _)|(? & ? & ? & ? & ? & _)];
          congruence. }
      split; [congruence|].
      rewrite Hblocks, lookup_insert_ne by done. apply lookup_delete_eq.
    + apply Hagain. by rewrite Hbufs, lookup_insert_eq.
Qed.

(** What load does to a well-formed buffer. *)
Lemma load_spec (m : mem) (a : addr) (b : prrte_buffer_t) (p : ptr) (n : Z) :
  bufs m !! a = Some b →
  buffer_ok (blocks m) b = true →
  ∃ h',
    prrte_buffer_destruct b (blocks m) = Some h' ∧
    (∀ B ofs, base_ptr b = Ptr B ofs → h' = delete B (blocks m)) ∧
    (base_ptr b = NULL → h' = blocks m) ∧
    prrte_dss_load (Some a) p n m =
      Some (PRRTE_SUCCESS,
            {| bufs := <[a := if decide (p = NULL) then prrte_buffer_construct
                              else {| type := default_buf_type;
                                      base_ptr := p;
                                      pack_ptr := ptr_add p n;
                                      unpack_ptr := p;
                                      bytes_allocated := to_size_t n;
                                      bytes_used := to_size_t n |}]> (bufs m);
               blocks := h' |}).
Proof.
  intros Ha Hok. destruct (destruct_ok _ _ Hok) as (h' & Hd & Hdel & Hsame).
  exists h'. split; [done|]. split; [done|]. split; [done|].
  unfold prrte_dss_load. rewrite Ha. simpl. rewrite Hd. simpl.
  by destruct (decide (p = NULL)).
Qed.

(** X4.  Load makes a well-formed buffer out of any region: given the
    start of a live block of at least [n] bytes that is not the
    buffer's own, the buffer afterwards satisfies the buffer invariant,
    has the default type, holds exactly the first [n] bytes of the
    region with nothing unpacked, and has a capacity of [n].  What the
    buffer held before is gone: its old region is no longer live.
    Nothing else changes. *)
Theorem load_makes_well_formed_buffer
    (m : mem) (a : addr) (b : prrte_buffer_t) (P : block) (bs : list byte) (n : Z) :
  bufs m !! a = Some b →
  buffer_ok (blocks m) b = true →
  blocks m !! P = Some (Bytes bs) →
  base_ptr b ≠ Ptr P 0 →
  0 ≤ n ≤ Z.of_nat (length bs) → n ≤ INT32_MAX →
  ∃ m1 b1,
    prrte_dss_load (Some a) (Ptr P 0) n m = Some (PRRTE_SUCCESS, m1) ∧
    bufs m1 = <[a := b1]> (bufs m) ∧
    buffer_ok (blocks m1) b1 = true ∧
    type b1 = default_buf_type ∧
    bytes_allocated b1 = n ∧
    packed_bytes m1 b1 = Some (take (Z.to_nat n) bs) ∧
    unread_bytes m1 b1 = Some (take (Z.to_nat n) bs) ∧
    (∀ B ofs, base_ptr b = Ptr B ofs → blocks m1 !! B = None) ∧
    (∀ B, (∀ ofs, base_ptr b ≠ Ptr B ofs) → blocks m1 !! B = blocks m !! B).
Proof.
  intros Ha Hok HP Hne [Hn0 Hn] Hmax. unfold INT32_MAX in Hmax.
  destruct (load_spec m a b (Ptr P 0) n Ha Hok) as (h' & _ & Hdel & Hsame & Hrun).
  rewrite Hrun. simpl. rewrite to_size_t_small by lia.
  assert (HP' : h' !! P = Some (Bytes bs)).
  { destruct (base_ptr b) as [|B ofs] eqn:Hb.
    - by rewrite Hsame.
    - rewrite (Hdel B ofs eq_refl). rewrite lookup_delete_ne; [done|].
      intros ->. apply Hne. f_equal.
      destruct (buffer_ok_inv _ _ Hok) as [(? & _)|(? & ? & ? & ? & _)]; congruence. }
  eexists _, _. split; [reflexivity|]. simpl. split; [done|].
  split; [|split; [done|split; [done|split; [|split; [|split]]]]].
  - eapply (buffer_ok_block _ _ P bs 0); simpl;
      first [done | lia | by rewrite Z.add_0_l | unfold INT32_MAX; lia].
  - unfold packed_bytes. simpl.
    rewrite (load_bytes_block P 0 _ bs) by (done || lia). by rewrite drop_0.
  - unfold unread_bytes. simpl. rewrite decide_True by done. simpl.
    replace (n - (0 - 0)) with n by lia.
    rewrite (load_bytes_block P 0 _ bs) by (done || lia). by rewrite drop_0.
  - intros B ofs Hb. rewrite (Hdel B ofs Hb). apply lookup_delete_eq.
  - intros B HB. destruct (base_ptr b) as [|B0 ofs] eqn:Hb.
    + by rewrite Hsame.
    + rewrite (Hdel B0 ofs eq_refl). rewrite lookup_delete_ne; [done|].
      intros ->. by apply (HB ofs).
Qed.

(** X5.  Load with a null payload empties the buffer, whatever length
    is passed along: the call succeeds, the buffer is the freshly
    constructed one and the region it owned is released.  Nothing else
    changes. *)
Theorem load_null_empties_buffer
    (m : mem) (a : addr) (b : prrte_buffer_t) (n : Z) :
  bufs m !! a = Some b →
  buffer_ok (blocks m) b = true →
  ∃ m1,
    prrte_dss_load (Some a) NULL n m = Some (PRRTE_SUCCESS, m1) ∧
    bufs m1 = <[a := prrte_buffer_construct]> (bufs m) ∧
    (∀ B ofs, base_ptr b = Ptr B ofs → blocks m1 = delete B (blocks m)) ∧
    (base_ptr b = NULL → blocks m1 = blocks m) ∧
    (∀ slot len_slot,
       prrte_dss_unload (Some a) (Some slot) len_slot m1 =
         Some (PRRTE_SUCCESS, Some NULL, 0, m1)).
Proof.
  intros Ha Hok.
  destruct (load_spec m a b NULL n Ha Hok) as (h' & _ & Hdel & Hsame & Hrun).
  rewrite Hrun. simpl. eexists. split; [reflexivity|]. simpl.
  split; [done|]. split; [done|]. split; [done|].
  intros slot len_slot. unfold prrte_dss_unload. simpl.
  by rewrite lookup_insert_eq.
Qed.

End BufferInvariant.

Section BufferComposition.
Import Mem Status Buffer.

(** The helper behind X4: a region loaded into a well-formed buffer. *)
Lemma load_region_ok
    (m : mem) (a : addr) (b : prrte_buffer_t) (P : block) (bs : list byte) (n : Z) :
  bufs m !! a = Some b →
  buffer_ok (blocks m) b = true →
  blocks m !! P = Some (Bytes bs) →
  base_ptr b ≠ Ptr P 0 →
  0 ≤ n ≤ Z.of_nat (length bs) → n ≤ INT32_MAX →
  ∃ m1 b1,
    prrte_dss_load (Some a) (Ptr P 0) n m = Some (PRRTE_SUCCESS, m1) ∧
    bufs m1 = <[a := b1]> (bufs m) ∧
    buffer_ok (blocks m1) b1 = true ∧
    packed_bytes m1 b1 = Some (take (Z.to_nat n) bs) ∧
    unread_bytes m1 b1 = Some (take (Z.to_nat n) bs).
Proof.
  intros Ha Hok HP Hne [Hn0 Hn] Hmax. unfold INT32_MAX in Hmax.
  destruct (load_spec m a b (Ptr P 0) n Ha Hok) as (h' & _ & Hdel & Hsame & Hrun).
  rewrite Hrun. simpl. rewrite to_size_t_small by lia.
  assert (HP' : h' !! P = Some (Bytes bs)).
  { destruct (base_ptr b) as [|B ofs] eqn:Hb.
    - by rewrite Hsame.
    - rewrite (Hdel B ofs eq_refl). rewrite lookup_delete_ne; [done|].
      intros ->. apply Hne. f_equal.
      destruct (buffer_ok_inv _ _ Hok) as [(? & _)|(? & ? & ? & ? & _)]; congruence. }
  eexists _, _. split; [reflexivity|]. simpl. split; [done|].
  split; [|split].
  - eapply (buffer_ok_block _ _ P bs 0); simpl;
      first [done | lia | by rewrite Z.add_0_l | unfold INT32_MAX; lia].
  - unfold packed_bytes. simpl.
    rewrite (load_bytes_block P 0 _ bs) by (done || lia). by rewrite drop_0.
  - unfold unread_bytes. simpl. rewrite decide_True by done. simpl.
    replace (n - (0 - 0)) with n by lia.
    rewrite (load_bytes_block P 0 _ bs) by (done || lia). by rewrite drop_0.
Qed.

Lemma buffer_ok_used_max (h : heap) (b : prrte_buffer_t) :
  buffer_ok h b = true → 0 ≤ bytes_used b ≤ INT32_MAX.
Proof.
  intros Hok. unfold INT32_MAX.
  destruct (buffer_ok_inv _ _ Hok)
    as [(_ & _ & _ & _ & ->)|(? & ? & ? & _ & _ & _ & _ & ? & ? & ? & ?)];
    unfold INT32_MAX in *; lia.
Qed.

(** X6.  The contents of a buffer move to another buffer by unload and
    load: after unloading a well-formed buffer and loading what came
    out into a second well-formed buffer with a region of its own, both
    calls have succeeded, the second buffer is well formed and holds
    exactly the bytes the first had not yet unpacked, none of them
    unpacked. *)
Theorem unload_then_load_moves_unread_bytes
    (m : mem) (a a2 : addr) (b b2 : prrte_buffer_t) (tail : list byte)
    (slot : ptr) (len_slot : Z) :
  a ≠ a2 →
  bufs m !! a = Some b → bufs m !! a2 = Some b2 →
  buffer_ok (blocks m) b = true → buffer_ok (blocks m) b2 = true →
  (base_ptr b2 = NULL ∨ base_ptr b2 ≠ base_ptr b) →
  unread_bytes m b = Some tail →
  ∃ p n m1 m2 b2',
    prrte_dss_unload (Some a) (Some slot) len_slot m =
      Some (PRRTE_SUCCESS, Some p, n, m1) ∧
    prrte_dss_load (Some a2) p n m1 = Some (PRRTE_SUCCESS, m2) ∧
    bufs m2 !! a2 = Some b2' ∧
    buffer_ok (blocks m2) b2' = true ∧
    packed_bytes m2 b2' = Some tail ∧
    unread_bytes m2 b2' = Some tail.
Proof.
  intros Hne Ha Ha2 Hok Hok2 Hsep Htail.
  destruct (unload_cases m a b tail slot len_slot Ha Hok Htail)
    as (p & m1 & Hrun & Hcases).
  exists p, (Z.of_nat (length tail)), m1.
  destruct (unread_bytes_ok m b Hok) as (off & tail' & _ & Hoffr & Htail' & Hlen & _).
  rewrite Htail in Htail'. injection Htail' as <-.
  pose proof (buffer_ok_used_max _ _ Hok) as Hmax.
  (* the second buffer is untouched by the unload *)
  assert (Hsep' : ∀ B ofs, base_ptr b = Ptr B ofs → ∀ B2 ofs2,
            base_ptr b2 = Ptr B2 ofs2 → B2 ≠ B).
  { intros B ofs Hb B2 ofs2 Hb2 ->. destruct Hsep as [?|Hd]; [congruence|].
    apply Hd.
    destruct (buffer_ok_inv _ _ Hok) as [(? & _)|(? & ? & ? & ? & _)]; [congruence|].
    destruct (buffer_ok_inv _ _ Hok2) as [(? & _)|(? & ? & ? & ? & _)]; congruence. }
  assert (Hlive2 : ∀ B2 ofs2, base_ptr b2 = Ptr B2 ofs2 → is_Some (blocks m !! B2)).
  { intros B2 ofs2 Hb2.
    destruct (buffer_ok_inv _ _ Hok2) as [(? & _)|(B0 & bs0 & ? & Hb0 & HB0 & _)];
      [congruence|].
    rewrite Hb2 in Hb0. injection Hb0 as -> ->. eauto. }
  assert (Hm1 : bufs m1 !! a2 = Some b2 ∧ buffer_ok (blocks m1) b2 = true ∧
                (∀ B ofs, base_ptr b2 = Ptr B ofs → is_Some (blocks m1 !! B))).
  { destruct Hcases
      as [(_ & _ & [(_ & ->)|(B & Hb & _ & Hbufs & Hblocks)])
         |[(_ & _ & _ & _ & Hbufs & Hblocks)
          |(_ & _ & B & B' & Hb & _ & HB' & Hbufs & Hblocks)]].
    - eauto.
    - rewrite Hbufs, lookup_insert_ne by done.
      assert (∀ B2 ofs2, base_ptr b2 = Ptr B2 ofs2 → blocks m1 !! B2 = blocks m !! B2).
      { intros B2 ofs2 Hb2. rewrite Hblocks. apply lookup_delete_ne.
        intros ->. by eapply Hsep'. }
      split; [done|]. split.
      + rewrite <- Hok2. by apply buffer_ok_frame.
      + intros B2 ofs2 Hb2. rewrite (H B2 ofs2 Hb2). eauto.
    - rewrite Hbufs, lookup_insert_ne by done. rewrite Hblocks. eauto.
    - rewrite Hbufs, lookup_insert_ne by done.
      assert (∀ B2 ofs2, base_ptr b2 = Ptr B2 ofs2 → blocks m1 !! B2 = blocks m !! B2).
      { intros B2 ofs2 Hb2. rewrite Hblocks.
        destruct (Hlive2 B2 ofs2 Hb2) as (c & Hc).
        rewrite lookup_insert_ne by congruence. apply lookup_delete_ne.
        intros ->. by eapply Hsep'. }
      split; [done|]. split.
      + rewrite <- Hok2. by apply buffer_ok_frame.
      + intros B2 ofs2 Hb2. rewrite (H B2 ofs2 Hb2). eauto. }
  destruct Hm1 as (Ha2' & Hok2' & Hlive2').
  destruct Hcases
    as [(-> & -> & _)
       |[(_ & -> & _ & (B & bs & HpB & HB & Htk) & Hbufs & Hblocks)
        |(_ & _ & B & B' & Hb & -> & HB' & Hbufs & Hblocks)]].
  - (* nothing came out *)
    destruct (load_spec m1 a2 b2 NULL (Z.of_nat (length (@nil byte))) Ha2' Hok2')
      as (h' & _ & _ & _ & Hload).
    simpl in Hload. eexists _, _. split; [done|]. split; [exact Hload|].
    simpl. rewrite lookup_insert_eq. done.
  - (* the region itself *)
    rewrite HpB in Hrun |- *.
    assert (length tail ≤ length bs)%nat by (rewrite Htk, length_take; lia).
    destruct (load_region_ok m1 a2 b2 B bs (Z.of_nat (length tail)))
      as (m2 & b2' & Hload & Hbufs2 & Hok2'' & Hpk & Hun);
      [done|done|by rewrite Hblocks| |lia|lia|].
    { intros Heq. destruct Hsep as [?|Hd]; [congruence|]. apply Hd. congruence. }
    rewrite Nat2Z.id, <- Htk in Hpk, Hun.
    exists m2, b2'. split; [done|]. split; [done|].
    split; [by rewrite Hbufs2, lookup_insert_eq|]. done.
  - (* the copy *)
    destruct (load_region_ok m1 a2 b2 B' tail (Z.of_nat (length tail)))
      as (m2 & b2' & Hload & Hbufs2 & Hok2'' & Hpk & Hun);
      [done|done|by rewrite Hblocks, lookup_insert_eq| |lia|lia|].
    { intros Heq. destruct (Hlive2 B' 0 Heq) as (c & Hc). congruence. }
    rewrite Nat2Z.id, firstn_all in Hpk, Hun.
    exists m2, b2'. split; [done|]. split; [done|].
    split; [by rewrite Hbufs2, lookup_insert_eq|]. done.
Qed.

(** Where copy_payload leaves the cursors of [dest]: the unpack cursor
    keeps its distance from the base, the used length grows by the
    length of the tail. *)
Lemma copy_payload_cursor (m : mem) (d s : addr) (db sb : prrte_buffer_t)
    (tail : list byte) :
  d ≠ s →
  bufs m !! d = Some db → bufs m !! s = Some sb →
  buffer_ok (blocks m) db = true → buffer_ok (blocks m) sb = true →
  (base_ptr db = NULL ∨ base_ptr db ≠ base_ptr sb) →
  (bytes_used db = 0 ∨ type db = type sb) →
  unread_bytes m sb = Some tail →
  bytes_allocated db + Z.of_nat (length tail) ≤ INT32_MAX →
  ∃ m1 db1,
    prrte_dss_copy_payload (Some d) (Some s) m = Some (PRRTE_SUCCESS, m1) ∧
    bufs m1 !! d = Some db1 ∧
    ptr_diff (unpack_ptr db1) (base_ptr db1) =
      ptr_diff (unpack_ptr db) (base_ptr db) ∧
    bytes_used db1 = bytes_used db + Z.of_nat (length tail).
Proof.
  intros Hds Hd Hs Hokd Hoks Hdisj Hty Htail Hmax.
  destruct (unread_bytes_ok m sb Hoks)
    as (off & tail' & Hoff & Hoffr & Htail' & Hlen & Hload).
  rewrite Htail in Htail'. injection Htail' as <-.
  pose proof (buffer_ok_used_max _ _ Hoks) as Hsmax.
  assert (Hdused : 0 ≤ bytes_used db ≤ bytes_allocated db).
  { destruct (buffer_ok_inv _ _ Hokd)
      as [(_ & _ & _ & -> & ->)|(? & ? & ? & _ & _ & _ & _ & ? & ? & ? & ?)]; lia. }
  unfold INT32_MAX in Hmax, Hsmax.
  unfold prrte_dss_copy_payload. rewrite Hd, Hs. simpl.
  rewrite decide_False by (intros [? ?]; destruct Hty; done).
  rewrite lookup_insert_ne by done. rewrite Hs. simpl. rewrite Hoff. simpl.
  rewrite (to_size_t_small (bytes_used sb - off)) by lia.
  rewrite (to_int32_small (bytes_used sb - off)) by lia.
  set (db1 := {| type := type sb; base_ptr := base_ptr db; pack_ptr := pack_ptr db;
                 unpack_ptr := unpack_ptr db;
                 bytes_allocated := bytes_allocated db;
                 bytes_used := bytes_used db |}).
  set (m1 := {| bufs := <[d := db1]> (bufs m); blocks := blocks m |}).
  assert (Hokd1 : buffer_ok (blocks m1) db1 = true) by exact Hokd.
  destruct (decide (bytes_used sb - off = 0)) as [Hz|Hnz].
  - exists m1, db1. split; [done|]. simpl. rewrite lookup_insert_eq.
    split; [done|]. split; [done|]. lia.
  - specialize (Hload Hnz).
    rewrite (to_size_t_small (bytes_used sb - off)) by lia.
    assert (Hd1 : bufs m1 !! d = Some db1) by (simpl; apply lookup_insert_eq).
    destruct (buffer_extend_ok m1 d db1 (bytes_used sb - off) Hd1 Hokd1)
      as (B' & new & offd & HB' & Hpd & Hoffd & Hext & Hnewlen & Hkeep);
      [lia|unfold INT32_MAX; simpl; lia|].
    simpl in HB', Hpd, Hoffd, Hnewlen.
    rewrite Hext. clear Hext. simpl.
    rewrite insert_insert_eq. rewrite (lookup_insert_ne _ d s) by done.
    rewrite Hs. simpl.
    assert (Hsrc : ∃ Bs bss us, base_ptr sb = Ptr Bs 0 ∧ unpack_ptr sb = Ptr Bs us ∧
                                blocks m !! Bs = Some (Bytes bss)).
    { destruct (buffer_ok_inv _ _ Hoks)
        as [(Hb & _ & Hu & _ & Hused)|(Bs & bss & us & ? & ? & ? & _)].
      - rewrite Hb, Hu in Hoff. simpl in Hoff. injection Hoff as <-. lia.
      - by exists Bs, bss, us. }
    destruct Hsrc as (Bs & bss & us & Hsb & Hsu & HBs).
    assert (Hfr : ∀ c, (<[B' := c]> (match base_ptr db with
                                    | NULL => blocks m
                                    | Ptr Bd _ => delete Bd (blocks m)
                                    end)) !! Bs = blocks m !! Bs).
    { intros c. apply (release_insert_frame _ _ _ _ _ (Bytes bss)); [done|done|].
      intros ofs Heq. destruct Hdisj as [Hnull|Hne]; [congruence|].
      destruct (buffer_ok_inv _ _ Hokd) as [(Hb & _)|(Bd & ? & ? & Hb & _)]; congruence. }
    unfold memcpy. rewrite Hsu in *.
    rewrite (load_bytes_frame (blocks m)) by apply Hfr.
    rewrite Hload. simpl.
    rewrite (store_bytes_block B' _ tail new) by (rewrite ?lookup_insert_eq; done || lia).
    simpl. rewrite lookup_insert_eq. simpl.
    rewrite !insert_insert_eq.
    rewrite (to_size_t_small (bytes_used db + (bytes_used sb - off))) by lia.
    eexists _, _. split; [reflexivity|]. simpl. rewrite lookup_insert_eq.
    split; [done|]. simpl. rewrite decide_True by done.
    split; [|lia]. rewrite Hpd. f_equal. lia.
Qed.

(** The helper behind X7 and X8: copy_payload between two well-formed
    buffers, with everything the next operation needs. *)
Lemma copy_payload_ok (m : mem) (d s : addr) (db sb : prrte_buffer_t)
    (old dtail tail : list byte) :
  d ≠ s →
  bufs m !! d = Some db → bufs m !! s = Some sb →
  buffer_ok (blocks m) db = true → buffer_ok (blocks m) sb = true →
  (base_ptr db = NULL ∨ base_ptr db ≠ base_ptr sb) →
  (bytes_used db = 0 ∨ type db = type sb) →
  packed_bytes m db = Some old → unread_bytes m db = Some dtail →
  unread_bytes m sb = Some tail →
  bytes_allocated db + Z.of_nat (length tail) ≤ INT32_MAX →
  ∃ m1 db1,
    prrte_dss_copy_payload (Some d) (Some s) m = Some (PRRTE_SUCCESS, m1) ∧
    bufs m1 = <[d := db1]> (bufs m) ∧
    buffer_ok (blocks m1) db1 = true ∧
    buffer_ok (blocks m1) sb = true ∧
    (base_ptr db1 = NULL ∨ base_ptr db1 ≠ base_ptr sb) ∧
    type db1 = type sb ∧
    bytes_allocated db1 = bytes_allocated db + Z.of_nat (length tail) ∧
    bytes_used db1 = bytes_used db + Z.of_nat (length tail) ∧
    packed_bytes m1 db1 = Some (old ++ tail) ∧
    unread_bytes m1 db1 = Some (dtail ++ tail) ∧
    unread_bytes m1 sb = Some tail.
Proof.
  intros Hds Hd Hs Hokd Hoks Hdisj Hty Hold Hdtail Htail Hmax.
  destruct (copy_payload_step m d s db sb old tail)
    as (m1 & db1 & Hrun & Hbufs & Htyp & Hpk & Hun & _ & Hokd1 & Hoks1 & Hsep1 & Hal & _);
    try done.
  destruct (copy_payload_cursor m d s db sb tail)
    as (m1' & db1' & Hrun' & Hd1' & Hcur & Hused); try done.
  rewrite Hrun in Hrun'. injection Hrun' as <-.
  rewrite Hbufs, lookup_insert_eq in Hd1'. injection Hd1' as <-.
  exists m1, db1. split; [done|]. split; [done|]. split; [done|]. split; [done|].
  split; [done|]. split; [done|]. split; [done|]. split; [done|].
  split; [done|]. split; [|done].
  destruct (unread_bytes_ok m db Hokd) as (offd & dtail' & Hoffd & Hoffdr & Hdt & Hdlen & _).
  rewrite Hdtail in Hdt. injection Hdt as <-.
  destruct (unread_bytes_ok m1 db1 Hokd1) as (offd1 & dtail1 & Hoffd1 & _ & Hdt1 & _).
  rewrite Hcur, Hoffd in Hoffd1. injection Hoffd1 as <-.
  rewrite Hdt1. f_equal.
  rewrite (unread_is_suffix m1 db1 offd (old ++ tail) dtail1 Hokd1) by congruence.
  rewrite (unread_is_suffix m db offd old dtail Hokd Hoffd Hold Hdtail).
  destruct (packed_bytes_ok m db Hokd) as (old' & Hold' & Holdlen).
  rewrite Hold in Hold'. injection Hold' as <-.
  rewrite drop_app_le by lia. done.
Qed.

(** X7.  copy_payload keeps the buffer invariant.  For two distinct
    well-formed buffers with separate regions ([dest] empty or of the
    type of [src]) the call succeeds and both buffers are well formed
    afterwards, still with separate regions; [src] is the buffer it
    was, and [dest] has its type.  The used length of [dest] grows by exactly the number of
    unread bytes of [src], and the unpack position of [dest] is not
    disturbed: what it had not unpacked is still unread, followed by
    the bytes that were appended. *)
Theorem copy_payload_keeps_invariant (m : mem) (d s : addr) (db sb : prrte_buffer_t)
    (old dtail tail : list byte) :
  d ≠ s →
  bufs m !! d = Some db → bufs m !! s = Some sb →
  buffer_ok (blocks m) db = true → buffer_ok (blocks m) sb = true →
  (base_ptr db = NULL ∨ base_ptr db ≠ base_ptr sb) →
  (bytes_used db = 0 ∨ type db = type sb) →
  packed_bytes m db = Some old → unread_bytes m db = Some dtail →
  unread_bytes m sb = Some tail →
  bytes_allocated db + Z.of_nat (length tail) ≤ INT32_MAX →
  ∃ m1 db1,
    prrte_dss_copy_payload (Some d) (Some s) m = Some (PRRTE_SUCCESS, m1) ∧
    bufs m1 !! d = Some db1 ∧ bufs m1 !! s = Some sb ∧
    buffer_ok (blocks m1) db1 = true ∧
    buffer_ok (blocks m1) sb = true ∧
    (base_ptr db1 = NULL ∨ base_ptr db1 ≠ base_ptr sb) ∧
    type db1 = type sb ∧
    bytes_used db1 = bytes_used db + Z.of_nat (length tail) ∧
    unread_bytes m1 db1 = Some (dtail ++ tail).
Proof.
  intros Hds Hd Hs Hokd Hoks Hdisj Hty Hold Hdtail Htail Hmax.
  destruct (copy_payload_ok m d s db sb old dtail tail)
    as (m1 & db1 & Hrun & Hbufs & Hokd1 & Hoks1 & Hsep1 & Htyp & _ & Hused & _ & Hun & _);
    try done.
  exists m1, db1. split; [done|].
  split; [by rewrite Hbufs, lookup_insert_eq|].
  split; [by rewrite Hbufs, lookup_insert_ne|]. done.
Qed.


(** X9.  copy_payload of a buffer onto itself.  [dest] and [src] are
    the same object: the call succeeds and appends to the buffer the
    bytes it had not unpacked itself, so that they are now there twice
    behind the consumed prefix; the buffer, which is the source as
    well, is changed by the call.  The region that is read and the
    region that is written are adjacent, they do not overlap. *)
Theorem copy_payload_onto_itself (m : mem) (d : addr) (db : prrte_buffer_t)
    (all tail : list byte) :
  bufs m !! d = Some db →
  buffer_ok (blocks m) db = true →
  packed_bytes m db = Some all → unread_bytes m db = Some tail →
  bytes_allocated db + Z.of_nat (length tail) ≤ INT32_MAX →
  ∃ m1 db1,
    prrte_dss_copy_payload (Some d) (Some d) m = Some (PRRTE_SUCCESS, m1) ∧
    bufs m1 = <[d := db1]> (bufs m) ∧
    type db1 = type db ∧
    buffer_ok (blocks m1) db1 = true ∧
    packed_bytes m1 db1 = Some (all ++ tail) ∧
    unread_bytes m1 db1 = Some (tail ++ tail).
Proof.
  intros Hd Hok Hall Htail Hmax.
  destruct (unread_bytes_ok m db Hok)
    as (off & tail' & Hoff & Hoffr & Htail' & Hlen & Hload).
  rewrite Htail in Htail'. injection Htail' as <-.
  destruct (packed_bytes_ok m db Hok) as (all' & Hall' & Halllen).
  rewrite Hall in Hall'. injection Hall' as <-.
  pose proof (unread_is_suffix m db off all tail Hok Hoff Hall Htail) as Hsuf.
  pose proof (buffer_ok_used_max _ _ Hok) as Humax.
  assert (Hdused : bytes_used db ≤ bytes_allocated db).
  { destruct (buffer_ok_inv _ _ Hok)
      as [(_ & _ & _ & -> & ->)|(? & ? & ? & _ & _ & _ & _ & ? & ? & ? & ?)]; lia. }
  unfold INT32_MAX in Hmax, Humax.
  unfold prrte_dss_copy_payload. rewrite Hd. simpl.
  rewrite decide_False by (intros [? ?]; done).
  rewrite lookup_insert_eq. simpl. rewrite Hoff. simpl.
  rewrite (to_size_t_small (bytes_used db - off)) by lia.
  rewrite (to_int32_small (bytes_used db - off)) by lia.
  set (db1 := {| type := type db; base_ptr := base_ptr db; pack_ptr := pack_ptr db;
                 unpack_ptr := unpack_ptr db;
                 bytes_allocated := bytes_allocated db;
                 bytes_used := bytes_used db |}).
  set (m1 := {| bufs := <[d := db1]> (bufs m); blocks := blocks m |}).
  assert (Hok1 : buffer_ok (blocks m1) db1 = true) by exact Hok.
  destruct (decide (bytes_used db - off = 0)) as [Hz|Hnz].
  - assert (tail = []) as -> by (apply length_zero_iff_nil; lia).
    exists m1, db1. rewrite app_nil_r. simpl. done.
  - specialize (Hload Hnz).
    rewrite (to_size_t_small (bytes_used db - off)) by lia.
    assert (Hd1 : bufs m1 !! d = Some db1) by (simpl; apply lookup_insert_eq).
    destruct (buffer_extend_ok m1 d db1 (bytes_used db - off) Hd1 Hok1)
      as (B' & new & offd & HB' & Hpd & Hoffd & Hext & Hnewlen & Hkeep);
      [lia|unfold INT32_MAX; simpl; lia|].
    simpl in HB', Hpd, Hoffd, Hnewlen.
    rewrite Hoff in Hpd. injection Hpd as <-.
    rewrite Hext. clear Hext. simpl.
    rewrite insert_insert_eq, lookup_insert_eq. simpl.
    assert (Hkeep' : take (Z.to_nat (bytes_used db)) new = all) by (by apply Hkeep).
    (* the bytes that are read are the unread tail, now in the new block *)
    assert (Hsrc : take (Z.to_nat (bytes_used db - off)) (drop (Z.to_nat off) new) = tail).
    { rewrite Hsuf, <- Hkeep'. rewrite take_drop_commute. do 2 f_equal. lia. }
    unfold memcpy.
    rewrite (load_bytes_block B' off _ new) by (rewrite ?lookup_insert_eq; done || lia).
    rewrite Hsrc. simpl.
    rewrite (store_bytes_block B' _ tail new) by (rewrite ?lookup_insert_eq; done || lia).
    simpl. rewrite !insert_insert_eq.
    rewrite (to_size_t_small (bytes_used db + (bytes_used db - off))) by lia.
    rewrite Hkeep'.
    eexists _, _. split; [reflexivity|]. simpl.
    split; [done|]. split; [done|].
    set (db2 := {| type := type db; base_ptr := Ptr B' 0;
                   pack_ptr := Ptr B' (bytes_used db + (bytes_used db - off));
                   unpack_ptr := Ptr B' off;
                   bytes_allocated := bytes_allocated db + (bytes_used db - off);
                   bytes_used := bytes_used db + (bytes_used db - off) |}).
    set (m2 := {| bufs := <[d := db2]> (bufs m); blocks := _ |}).
    assert (Hok2 : buffer_ok (blocks m2) db2 = true).
    { eapply (buffer_ok_block _ _ B' _ off); simpl;
        first [done | apply lookup_insert_eq | lia | unfold INT32_MAX; lia
              | rewrite !length_app, length_drop; lia]. }
    assert (Hpk2 : packed_bytes m2 db2 = Some (all ++ tail)).
    { unfold packed_bytes. simpl.
      rewrite (load_bytes_block B' 0 _ _ _ (lookup_insert_eq _ _ _))
        by (rewrite ?length_app, ?length_drop; lia).
      f_equal. rewrite drop_0, app_assoc.
      apply take_app_length'. rewrite length_app. lia. }
    split; [done|]. split; [done|].
    destruct (unread_bytes_ok m2 db2 Hok2) as (off2 & tail2 & Hoff2 & _ & Htail2 & _).
    simpl in Hoff2. rewrite decide_True in Hoff2 by done. injection Hoff2 as <-.
    rewrite Htail2. f_equal.
    rewrite (unread_is_suffix m2 db2 (off - 0) (all ++ tail) tail2 Hok2); try done.
    + rewrite drop_app_le by lia. rewrite Hsuf. do 2 f_equal. lia.
    + simpl. by rewrite decide_True.
Qed.

End BufferComposition.

Section BufferScenarios.
Import Mem Status Buffer.

Lemma unload_of_nothing_witness :
  prrte_dss_unload None (Some NULL) 9 BufferExamples.reserved_only =
    Some (PRRTE_ERR_BAD_PARAM, Some NULL, 9, BufferExamples.reserved_only) ∧
  prrte_dss_unload (Some 1%positive) None 9 BufferExamples.reserved_only =
    Some (PRRTE_ERR_BAD_PARAM, None, 9, BufferExamples.reserved_only) ∧
  prrte_dss_unload (Some 1%positive) (Some (Ptr 7 0)) 9 BufferExamples.reserved_only =
    Some (PRRTE_SUCCESS, Some NULL, 0, BufferExamples.reserved_only).
Proof.
  destruct (unload_of_nothing BufferExamples.reserved_only) as (H1 & H2 & H3).
  split; [apply H1|]. split; [apply H2|].
  apply (H3 1%positive BufferExamples.reserved).
  - reflexivity.
  - right. reflexivity.
Defined.

Lemma unload_returns_unread_bytes_witness :
  ∃ p m1,
    prrte_dss_unload (Some 1%positive) (Some NULL) 0 Examples.half_read_and_fresh =
      Some (PRRTE_SUCCESS, Some p, 2, m1) ∧
    ([x0b; x0c] = [] → p = NULL) ∧
    ([x0b; x0c] ≠ [] → load_bytes p 2 (blocks m1) = Some [x0b; x0c]) ∧
    (∀ a', a' ≠ 1%positive →
           bufs m1 !! a' = bufs Examples.half_read_and_fresh !! a').
Proof.
  apply (unload_returns_unread_bytes Examples.half_read_and_fresh 1%positive
           Examples.half_read [x0b; x0c] NULL 0).
  - reflexivity.
  - reflexivity.
  - reflexivity.
Defined.

Lemma unload_drains_buffer_witness :
  ∃ p n m1,
    prrte_dss_unload (Some 1%positive) (Some NULL) 0 Examples.half_read_and_fresh =
      Some (PRRTE_SUCCESS, Some p, n, m1) ∧
    (3 ≠ 0 →
       bufs m1 !! 1%positive = Some prrte_buffer_construct ∧
       ∀ B ofs, Ptr 5 0 = Ptr B ofs →
         (p = Ptr B 0 ∧ Ptr 5 1 = Ptr 5 0 ∧
          blocks m1 = blocks Examples.half_read_and_fresh) ∨
         (p ≠ Ptr B 0 ∧ blocks m1 !! B = None)) ∧
    (∀ slot' len_slot',
       prrte_dss_unload (Some 1%positive) (Some slot') len_slot' m1 =
         Some (PRRTE_SUCCESS, Some NULL, 0, m1)).
Proof.
  apply (unload_drains_buffer Examples.half_read_and_fresh 1%positive
           Examples.half_read NULL 0).
  - reflexivity.
  - reflexivity.
Defined.

Lemma load_makes_well_formed_buffer_witness :
  ∃ m1 b1,
    prrte_dss_load (Some 1%positive) (Ptr 7 0) 3 BufferExamples.half_read_and_region
      = Some (PRRTE_SUCCESS, m1) ∧
    bufs m1 = <[1%positive := b1]> (bufs BufferExamples.half_read_and_region) ∧
    buffer_ok (blocks m1) b1 = true ∧
    type b1 = default_buf_type ∧
    bytes_allocated b1 = 3 ∧
    packed_bytes m1 b1 = Some [x01; x02; x03] ∧
    unread_bytes m1 b1 = Some [x01; x02; x03] ∧
    (∀ B ofs, Ptr 5 0 = Ptr B ofs → blocks m1 !! B = None) ∧
    (∀ B, (∀ ofs, Ptr 5 0 ≠ Ptr B ofs) →
          blocks m1 !! B = blocks BufferExamples.half_read_and_region !! B).
Proof.
  apply (load_makes_well_formed_buffer BufferExamples.half_read_and_region 1%positive
           Examples.half_read 7%positive [x01; x02; x03; x04] 3).
  - reflexivity.
  - reflexivity.
  - reflexivity.
  - discriminate.
  - simpl. lia.
  - vm_compute. discriminate.
Defined.

Lemma load_null_empties_buffer_witness :
  ∃ m1,
    prrte_dss_load (Some 1%positive) NULL 3 Examples.half_read_and_fresh
      = Some (PRRTE_SUCCESS, m1) ∧
    bufs m1 = <[1%positive := prrte_buffer_construct]>
                (bufs Examples.half_read_and_fresh) ∧
    (∀ B ofs, Ptr 5 0 = Ptr B ofs →
              blocks m1 = delete B (blocks Examples.half_read_and_fresh)) ∧
    (Ptr 5 0 = NULL → blocks m1 = blocks Examples.half_read_and_fresh) ∧
    (∀ slot len_slot,
       prrte_dss_unload (Some 1%positive) (Some slot) len_slot m1 =
         Some (PRRTE_SUCCESS, Some NULL, 0, m1)).
Proof.
  apply (load_null_empties_buffer Examples.half_read_and_fresh 1%positive
           Examples.half_read 3).
  - reflexivity.
  - reflexivity.
Defined.

Lemma unload_then_load_moves_unread_bytes_witness :
  ∃ p n m1 m2 b2',
    prrte_dss_unload (Some 1%positive) (Some NULL) 0 Examples.half_read_and_fresh =
      Some (PRRTE_SUCCESS, Some p, n, m1) ∧
    prrte_dss_load (Some 2%positive) p n m1 = Some (PRRTE_SUCCESS, m2) ∧
    bufs m2 !! 2%positive = Some b2' ∧
    buffer_ok (blocks m2) b2' = true ∧
    packed_bytes m2 b2' = Some [x0b; x0c] ∧
    unread_bytes m2 b2' = Some [x0b; x0c].
Proof.
  apply (unload_then_load_moves_unread_bytes Examples.half_read_and_fresh
           1%positive 2%positive Examples.half_read prrte_buffer_construct
           [x0b; x0c] NULL 0).
  - discriminate.
  - reflexivity.
  - reflexivity.
  - reflexivity.
  - reflexivity.
  - left. reflexivity.
  - reflexivity.
Defined.

Lemma copy_payload_keeps_invariant_witness :
  ∃ m1 db1,
    prrte_dss_copy_payload (Some 2%positive) (Some 1%positive)
      Examples.half_read_and_fresh = Some (PRRTE_SUCCESS, m1) ∧
    bufs m1 !! 2%positive = Some db1 ∧
    bufs m1 !! 1%positive = Some Examples.half_read ∧
    buffer_ok (blocks m1) db1 = true ∧
    buffer_ok (blocks m1) Examples.half_read = true ∧
    (base_ptr db1 = NULL ∨ base_ptr db1 ≠ Ptr 5 0) ∧
    type db1 = 1 ∧
    bytes_used db1 = 0 + 2 ∧
    unread_bytes m1 db1 = Some [x0b; x0c].
Proof.
  apply (copy_payload_keeps_invariant Examples.half_read_and_fresh
           2%positive 1%positive prrte_buffer_construct Examples.half_read
           [] [] [x0b; x0c]).
  - discriminate.
  - reflexivity.
  - reflexivity.
  - reflexivity.
  - reflexivity.
  - left. reflexivity.
  - left. reflexivity.
  - reflexivity.
  - reflexivity.
  - reflexivity.
  - vm_compute. discriminate.
Defined.


Lemma copy_payload_onto_itself_witness :
  ∃ m1 db1,
    prrte_dss_copy_payload (Some 1%positive) (Some 1%positive)
      Examples.half_read_and_fresh = Some (PRRTE_SUCCESS, m1) ∧
    bufs m1 = <[1%positive := db1]> (bufs Examples.half_read_and_fresh) ∧
    type db1 = 1 ∧
    buffer_ok (blocks m1) db1 = true ∧
    packed_bytes m1 db1 = Some [x0a; x0b; x0c; x0b; x0c] ∧
    unread_bytes m1 db1 = Some [x0b; x0c; x0b; x0c].
Proof.
  apply (copy_payload_onto_itself Examples.half_read_and_fresh 1%positive
           Examples.half_read [x0a; x0b; x0c] [x0b; x0c]).
  - reflexivity.
  - reflexivity.
  - reflexivity.
  - reflexivity.
  - vm_compute. discriminate.
Defined.

End BufferScenarios.

(* ===================================================================== *)
(** ** Typed values: what a value holds, and where it goes                *)
(* ===================================================================== *)

#[global] Arguments ValueView.held_datum : simpl never.

Section ValueHeld.
Import Mem Status Value ValueView.

Lemma held_datum_weaken (ty : prrte_data_type_t) (kv : prrte_value_t)
    (h h' : heap) (a : datum) :
  held_datum ty h kv = Some a → h ⊆ h' → held_datum ty h' kv = Some a.
Proof.
  intros Hh Hsub. unfold held_datum in *.
  destruct ty; try done.
  - destruct (get_string (data kv)) as [s|]; [|done]. simpl in *.
    by apply (read_datum_weaken _ _ h).
  - destruct (get_bo (data kv)) as [[size bytes]|]; [|done]. simpl in *.
    case_decide; [|done]. case_decide; [|done].
    destruct (load_bytes bytes size h) as [bs|] eqn:Hl; [|done].
    by rewrite (load_bytes_weaken _ _ _ _ _ Hl Hsub).
Qed.

Lemma lookup_None_subseteq (h0 h1 : heap) (B : block) :
  h0 ⊆ h1 → h1 !! B = None → h0 !! B = None.
Proof.
  intros Hsub HB. destruct (h0 !! B) as [c|] eqn:Hc; [|done].
  by rewrite (lookup_weaken _ _ _ _ Hc Hsub) in HB.
Qed.

Lemma unload_scalar_held (f : member) (kv : prrte_value_t) (slot : ptr)
    (h : heap) (v : Z) :
  get_scalar f (data kv) = Some v →
  is_Some (load_bytes slot (Z.of_nat (width f)) h) →
  ∃ h2, unload_scalar f kv slot h = Some (PRRTE_SUCCESS, Some slot, h2) ∧
        load_bytes slot (Z.of_nat (width f)) h2 = Some (encode_le (width f) v).
Proof.
  intros Hv Hslot. unfold unload_scalar. rewrite Hv. simpl.
  rewrite <- (length_encode_le (width f) v) in Hslot.
  destruct (store_then_load _ _ _ Hslot) as (h2 & Hst & Hld).
  rewrite Hst. simpl. exists h2. split; [done|].
  by rewrite length_encode_le in Hld.
Qed.

(** The kinds that are one integer-like member [f] of the union. *)
Lemma fixed_kind_unload (f : member) (ty : prrte_data_type_t)
    (kv : prrte_value_t) (slot : ptr) (h : heap) (a : datum) :
  (∀ kv' p h', type kv' = ty → p ≠ NULL →
     prrte_value_unload kv' (Some p) ty h' = unload_scalar f kv' p h') →
  (∀ p h', read_datum ty h' p =
           (load_bytes p (Z.of_nat (width f)) h' ≫= λ bs, Some (DFixed bs))) →
  (∀ kv' h', held_datum ty h' kv' =
             (get_scalar f (data kv') ≫= λ v, Some (DFixed (encode_le (width f) v)))) →
  type kv = ty →
  held_datum ty h kv = Some a →
  is_Some (load_bytes slot (Z.of_nat (width f)) h) →
  ∃ y h2,
    prrte_value_unload kv (Some slot) ty h = Some (PRRTE_SUCCESS, Some y, h2) ∧
    read_datum ty h2 y = Some a ∧
    held_datum ty h2 kv = Some a ∧ y = slot.
Proof.
  intros Hunload Hdatum Hheld Hty Ha Hslot. rewrite Hheld in Ha.
  destruct (get_scalar f (data kv)) as [v|] eqn:Hv; [|done].
  injection Ha as <-.
  destruct (unload_scalar_held f kv slot h v Hv Hslot) as (h2 & Hrun & Hld).
  exists slot, h2.
  rewrite Hunload; [|done|by intros ->; destruct Hslot].
  split; [done|]. rewrite Hdatum, Hld, Hheld, Hv. done.
Qed.

Local Ltac fixed_unload f :=
  apply (fixed_kind_unload f);
  [ intros ? ? ? Hty' ?; unfold prrte_value_unload; rewrite Hty'; by settle_tests
  | reflexivity
  | reflexivity
  | done
  | done
  | done ].

(** The helper behind the theorems on unload: a value that holds a
    datum of a supported kind gives it to unload. *)
Lemma unload_held (kv : prrte_value_t) (ty : prrte_data_type_t) (slot : ptr)
    (h : heap) (a : datum) :
  supported ty = true →
  type kv = ty →
  held_datum ty h kv = Some a →
  slot_ok ty h slot = true →
  ∃ y h2,
    prrte_value_unload kv (Some slot) ty h = Some (PRRTE_SUCCESS, Some y, h2) ∧
    read_datum ty h2 y = Some a ∧
    held_datum ty h2 kv = Some a ∧
    match ty with
    | PRRTE_STRING =>
        h ⊆ h2 ∧ (y = NULL ∨ ∃ B, y = Ptr B 0 ∧ h !! B = None)
    | PRRTE_BYTE_OBJECT =>
        h ⊆ h2 ∧
        ∃ B size q,
          y = Ptr B 0 ∧ h !! B = None ∧
          read_bo y h2 = Some (size, q) ∧
          (q = NULL ∨ ∃ B', q = Ptr B' 0 ∧ B' ≠ B ∧ h !! B' = None)
    | PRRTE_PTR => h2 = h
    | _ => y = slot
    end.
Proof.
  intros Hsup Hty Ha Hslot.
  destruct ty; try discriminate Hsup.
  all: try (apply bool_decide_eq_true in Hslot).
  1: fixed_unload data_flag.
  1: fixed_unload data_byte.
  2: fixed_unload data_size.
  2: fixed_unload data_pid.
  2: fixed_unload data_integer.
  2: fixed_unload data_int8.
  2: fixed_unload data_int16.
  2: fixed_unload data_int32.
  2: fixed_unload data_int64.
  2: fixed_unload data_uint.
  2: fixed_unload data_uint8.
  2: fixed_unload data_uint16.
  2: fixed_unload data_uint32.
  2: fixed_unload data_uint64.
  3: fixed_unload data_fval.
  - (* PRRTE_STRING *)
    unfold held_datum in Ha.
    destruct (get_string (data kv)) as [s|] eqn:Hs; [|done]. simpl in Ha.
    pose proof Ha as Ha0. unfold read_datum in Ha.
    unfold prrte_value_unload. rewrite Hty. settle_tests. rewrite Hs. simpl.
    destruct (decide (s = NULL)) as [->|Hnn].
    + injection Ha as <-. settle_tests.
      eexists NULL, h. split; [done|]. split; [done|].
      split; [unfold held_datum; by rewrite Hs|]. split; [done|by left].
    + simpl in Ha.
      destruct (read_cstring s h) as [str|] eqn:Hstr; [|done]. injection Ha as <-.
      settle_tests.
      destruct (strdup_spec _ _ _ Hstr) as [Hdup Hread]. rewrite Hdup. simpl.
      eexists _, _. split; [done|]. split; [|split; [|split]].
      * unfold read_datum. settle_tests. by rewrite Hread.
      * unfold held_datum. rewrite Hs. simpl.
        apply (read_datum_weaken _ _ h); [done|]. apply fresh_insert_subseteq.
      * apply fresh_insert_subseteq.
      * right. eexists. split; [done|]. apply fresh_block_None.
  - (* PRRTE_BYTE_OBJECT *)
    unfold held_datum in Ha.
    destruct (get_bo (data kv)) as [[size bytes]|] eqn:Hbo; [|done]. simpl in Ha.
    unfold prrte_value_unload. rewrite Hty. settle_tests.
    unfold malloc_bo. rewrite Hbo. simpl.
    set (B2 := fresh (dom h)) in *.
    set (h1 := <[B2 := BoCell 0 NULL]> h) in *.
    assert (Hsub1 : h ⊆ h1) by apply fresh_insert_subseteq.
    destruct (decide (bytes ≠ NULL ∧ 0 < size)) as [[Hnn Hpos]|Hempty].
    + case_decide as Hmax; [|done].
      destruct (load_bytes bytes size h) as [bs|] eqn:Hl; [|done]. injection Ha as <-.
      pose proof (load_bytes_length _ _ _ _ Hl) as Hlen.
      assert (Hl1 : load_bytes bytes size h1 = Some bs)
        by (by apply (load_bytes_weaken _ _ h)).
      rewrite (dup_bo_copy size bytes h1 bs) by (done || lia). simpl.
      set (B3 := fresh (dom h1)) in *.
      assert (HB23 : B2 ≠ B3).
      { apply (live_not_fresh h1 B2 (BoCell 0 NULL)). apply lookup_insert_eq. }
      unfold write_bo. rewrite lookup_insert_ne by done. unfold h1 at 1.
      rewrite lookup_insert_eq.
      assert (Hsub2 : h1 ⊆ <[B3 := Bytes bs]> h1) by apply fresh_insert_subseteq.
      assert (Hsub3 : h ⊆ <[B2 := BoCell size (Ptr B3 0)]> (<[B3 := Bytes bs]> h1)).
      { apply map_subseteq_spec. intros B c HB.
        assert (B ≠ B2) by apply (live_not_fresh _ _ _ HB).
        assert (HB1 : h1 !! B = Some c) by (unfold h1; by rewrite lookup_insert_ne).
        assert (B ≠ B3) by apply (live_not_fresh _ _ _ HB1).
        by rewrite !lookup_insert_ne. }
      eexists _, _. split; [done|]. split; [|split; [|split]].
      * unfold read_datum, read_bo. rewrite lookup_insert_eq. simpl.
        rewrite decide_False by lia. rewrite decide_True by done.
        rewrite (load_bytes_block B3 0 size bs); [| |lia|lia|lia].
        -- simpl. rewrite drop_0, take_ge by lia. done.
        -- rewrite lookup_insert_ne by done. apply lookup_insert_eq.
      * unfold held_datum. rewrite Hbo. simpl.
        rewrite decide_True by done. rewrite decide_True by done.
        by rewrite (load_bytes_weaken _ _ _ _ _ Hl Hsub3).
      * done.
      * exists B2, size, (Ptr B3 0). split; [done|].
        split; [apply fresh_block_None|].
        split; [unfold read_bo; by rewrite lookup_insert_eq|].
        right. exists B3. split; [done|]. split; [done|].
        apply (lookup_None_subseteq h h1); [done|apply fresh_block_None].
    + injection Ha as <-.
      assert (Hdup : dup_bo size bytes h1 = Some (0, NULL, h1)).
      { unfold dup_bo. by rewrite decide_False. }
      rewrite Hdup. simpl.
      unfold write_bo. unfold h1 at 1. rewrite lookup_insert_eq.
      unfold h1. rewrite insert_insert_eq.
      eexists _, _. split; [done|]. split; [|split; [|split]].
      * unfold read_datum, read_bo. by rewrite lookup_insert_eq.
      * unfold held_datum. rewrite Hbo. simpl. by rewrite decide_False.
      * apply fresh_insert_subseteq.
      * exists B2, 0, NULL. split; [done|].
        split; [apply fresh_block_None|].
        split; [unfold read_bo; by rewrite lookup_insert_eq|]. by left.
  - (* PRRTE_TIMEVAL *)
    unfold held_datum in Ha.
    destruct (get_tv (data kv)) as [[sec usec]|] eqn:Htv; [|done].
    injection Ha as <-.
    assert (Hlen : length (timeval_bytes sec usec) = 16%nat).
    { unfold timeval_bytes. by rewrite length_app, !length_encode_le. }
    assert (Hslot' : is_Some (load_bytes slot
                                (Z.of_nat (length (timeval_bytes sec usec))) h))
      by (by rewrite Hlen).
    destruct (store_then_load _ _ _ Hslot') as (h2 & Hst & Hld).
    rewrite Hlen in Hld. change (Z.of_nat 16) with 16 in Hld.
    assert (slot ≠ NULL) by (intros ->; by destruct Hslot).
    unfold prrte_value_unload. rewrite Hty. settle_tests.
    rewrite Htv. simpl. rewrite Hst. simpl.
    exists slot, h2. split; [done|]. unfold read_datum. simpl.
    rewrite Hld. split; [done|]. unfold held_datum. by rewrite Htv.
  - (* PRRTE_PTR *)
    unfold held_datum in Ha.
    destruct (get_ptr (data kv)) as [p|] eqn:Hp; [|done]. injection Ha as <-.
    unfold prrte_value_unload. rewrite Hty. settle_tests. rewrite Hp. simpl.
    exists p, h. split; [done|]. split; [done|].
    unfold held_datum. by rewrite Hp.
Qed.

Lemma free_if_set_subseteq (p : ptr) (h h0 : heap) :
  free_if_set p h = Some h0 → h0 ⊆ h.
Proof.
  unfold free_if_set, free. case_decide; [by intros [= <-]|].
  destruct p as [|B ofs]; [done|]. case_decide; [|done].
  destruct (h !! B); [|done]. intros [= <-]. apply delete_subseteq.
Qed.

Lemma free_if_set_insert (p : ptr) (h h0 : heap) (B : block) (c : content) :
  free_if_set p h = Some h0 → h !! B = None →
  free_if_set p (<[B := c]> h) = Some (<[B := c]> h0).
Proof.
  unfold free_if_set, free. case_decide; [by intros [= <-]|].
  destruct p as [|B0 ofs]; [done|]. case_decide; [|done].
  destruct (h !! B0) as [c0|] eqn:HB0; [|done]. intros [= <-] HB.
  assert (B0 ≠ B) by congruence.
  rewrite lookup_insert_ne by done. rewrite HB0.
  by rewrite delete_insert_ne.
Qed.

Lemma key_copied_weaken (dest src : prrte_value_t) (h : heap)
    (dest' : prrte_value_t) (h1 h2 : heap) :
  key_copied dest src h dest' h1 → h1 ⊆ h2 → key_copied dest src h dest' h2.
Proof.
  unfold key_copied. case_decide; [done|].
  intros (ks & B & ? & ? & ? & Hr) Hsub. exists ks, B.
  repeat split; try done. by apply (read_cstring_weaken _ h1).
Qed.

(** The key statement of the transfer, and what it means for the
    release that may follow it. *)
Lemma xfer_key_step (dest src : prrte_value_t) (h : heap) :
  key src = NULL ∨ is_Some (read_cstring (key src) h) →
  ∃ dk hk,
    xfer_key dest src h = Some (dk, hk) ∧
    data dk = data dest ∧
    h ⊆ hk ∧
    key_copied dest src h dk hk ∧
    (∀ old h0, free_if_set old h = Some h0 →
       ∃ h1, free_if_set old hk = Some h1 ∧ h0 ⊆ h1 ∧
             key_copied dest src h dk h1).
Proof.
  intros Hkey. unfold xfer_key, key_copied.
  destruct (decide (key src = NULL)) as [Hk|Hk].
  - rewrite decide_False by tauto. exists dest, h.
    split; [done|]. split; [done|]. split; [done|]. split; [done|].
    intros old h0 Hfree. exists h0. done.
  - rewrite decide_True by done. destruct Hkey as [?|[ks Hks]]; [done|].
    destruct (strdup_spec _ _ _ Hks) as [Hdup Hread]. rewrite Hdup. simpl.
    set (Bk := fresh (dom h)) in *.
    assert (HBk : h !! Bk = None) by apply fresh_block_None.
    eexists _, _. split; [done|]. split; [done|].
    split; [by apply insert_subseteq|].
    split; [by exists ks, Bk|].
    intros old h0 Hfree.
    exists (<[Bk := Bytes (ks ++ [x00])]> h0).
    split; [by apply free_if_set_insert|].
    pose proof (free_if_set_subseteq _ _ _ Hfree) as Hsub.
    assert (HBk0 : h0 !! Bk = None).
    { destruct (h0 !! Bk) as [c|] eqn:Hc; [|done].
      by rewrite (lookup_weaken _ _ _ _ Hc Hsub) in HBk. }
    split; [by apply insert_subseteq|].
    exists ks, Bk. repeat split; try done. simpl.
    rewrite <- Hread. apply read_cstring_frame. by rewrite !lookup_insert_eq.
Qed.

(** The transfer is its key statement followed by the transfer of a
    source without a key. *)
Lemma xfer_unfold (dest src : prrte_value_t) (h : heap) :
  prrte_value_xfer dest src h =
  '(dk, hk) ← xfer_key dest src h; prrte_value_xfer dk (set_key src NULL) hk.
Proof.
  unfold prrte_value_xfer, xfer_key.
  destruct (decide (key src ≠ NULL)) as [Hk|Hk]; simpl.
  - destruct (strdup (key src) h) as [[k h0]|]; reflexivity.
  - reflexivity.
Qed.

Lemma xfer_scalar_held (f : member) (dk src : prrte_value_t) (hk : heap) (v : Z) :
  get_scalar f (data src) = Some v →
  xfer_scalar f dk src hk = Some (PRRTE_SUCCESS, set_data dk (Scalar f v), hk).
Proof. intros Hv. unfold xfer_scalar. by rewrite Hv. Qed.

(** The kinds that are one integer-like member [f] of the union. *)
Lemma fixed_kind_xfer (f : member) (ty : prrte_data_type_t)
    (dk src : prrte_value_t) (hk : heap) (a : datum) :
  (∀ d s h', key s = NULL → type s = ty →
     prrte_value_xfer d s h' = xfer_scalar f (set_type d ty) s h') →
  (∀ kv' h', held_datum ty h' kv' =
             (get_scalar f (data kv') ≫= λ v, Some (DFixed (encode_le (width f) v)))) →
  key src = NULL → type src = ty →
  held_datum ty hk src = Some a →
  ∃ dest' h',
    prrte_value_xfer dk src hk = Some (PRRTE_SUCCESS, dest', h') ∧
    type dest' = ty ∧ key dest' = key dk ∧
    held_datum ty h' dest' = Some a ∧
    held_datum ty h' src = Some a ∧
    h' = hk.
Proof.
  intros Hxfer Hheld Hkey Hty Ha. rewrite Hxfer by done.
  pose proof Ha as Ha0. rewrite Hheld in Ha.
  destruct (get_scalar f (data src)) as [v|] eqn:Hv; [|done]. injection Ha as <-.
  rewrite (xfer_scalar_held f _ src hk v Hv).
  eexists _, _. split; [done|]. split; [done|]. split; [done|].
  split; [|done]. rewrite Hheld. simpl. by rewrite decide_True.
Qed.

Local Ltac fixed_xfer f dk src hk a :=
  let d' := fresh "d" in
  let h' := fresh "h" in
  match goal with
  | Hty : type src = ?ty |- _ =>
      destruct (fixed_kind_xfer f ty dk src hk a)
        as (d' & h' & ? & ? & ? & ? & ? & ->)
  end;
  [ intros ? ? ? Hk' Hty'; unfold prrte_value_xfer; rewrite Hk', Hty';
    by settle_tests
  | reflexivity
  | done
  | done
  | done
  | exists d', hk; done ].

(** The transfer of the payload, for a source without a key. *)
Lemma xfer_payload_held (dk src : prrte_value_t) (ty : prrte_data_type_t)
    (hk h1 : heap) (a : datum) :
  key src = NULL → type src = ty →
  supported ty = true →
  release_owned ty dk hk = Some h1 →
  held_datum ty h1 src = Some a →
  ∃ dest' h',
    prrte_value_xfer dk src hk = Some (PRRTE_SUCCESS, dest', h') ∧
    type dest' = ty ∧ key dest' = key dk ∧
    held_datum ty h' dest' = Some a ∧
    held_datum ty h' src = Some a ∧
    h1 ⊆ h' ∧
    match ty with
    | PRRTE_STRING | PRRTE_BYTE_OBJECT =>
        ∃ q, owned_ptr ty dest' = Some q ∧
             (q = NULL ∨ ∃ B, q = Ptr B 0 ∧ h1 !! B = None)
    | PRRTE_PTR => get_ptr (data dest') = get_ptr (data src)
    | _ => True
    end.
Proof.
  intros Hkey Hty Hsup Hrel Ha.
  destruct ty; try discriminate Hsup.
  all: try (simpl in Hrel; injection Hrel as <-).
  1: fixed_xfer data_flag dk src hk a.
  1: fixed_xfer data_byte dk src hk a.
  2: fixed_xfer data_size dk src hk a.
  2: fixed_xfer data_pid dk src hk a.
  2: fixed_xfer data_integer dk src hk a.
  2: fixed_xfer data_int8 dk src hk a.
  2: fixed_xfer data_int16 dk src hk a.
  2: fixed_xfer data_int32 dk src hk a.
  2: fixed_xfer data_int64 dk src hk a.
  2: fixed_xfer data_uint dk src hk a.
  2: fixed_xfer data_uint8 dk src hk a.
  2: fixed_xfer data_uint16 dk src hk a.
  2: fixed_xfer data_uint32 dk src hk a.
  2: fixed_xfer data_uint64 dk src hk a.
  3: fixed_xfer data_fval dk src hk a.
  - (* PRRTE_STRING *)
    unfold release_owned in Hrel.
    destruct (get_string (data dk)) as [old|] eqn:Hold; [|done]. simpl in Hrel.
    pose proof Ha as Ha0. unfold held_datum in Ha.
    destruct (get_string (data src)) as [s|] eqn:Hs; [|done]. simpl in Ha.
    unfold read_datum in Ha.
    unfold prrte_value_xfer. rewrite Hkey, Hty. settle_tests.
    rewrite Hold. simpl. rewrite Hrel. simpl. rewrite Hs. simpl.
    destruct (decide (s = NULL)) as [->|Hnn]; simpl in Ha.
    + injection Ha as <-. settle_tests.
      eexists _, _. split; [done|]. split; [done|]. split; [done|].
      split; [done|]. split; [done|]. split; [done|].
      exists NULL. split; [done|]. by left.
    + destruct (read_cstring s h1) as [str|] eqn:Hstr; [|done]. injection Ha as <-.
      settle_tests.
      destruct (strdup_spec _ _ _ Hstr) as [Hdup Hread]. rewrite Hdup. simpl.
      eexists _, _. split; [done|]. split; [done|]. split; [done|].
      split; [|split; [|split]].
      * unfold held_datum. simpl. unfold read_datum. settle_tests. by rewrite Hread.
      * apply (held_datum_weaken _ _ h1); [done|]. apply fresh_insert_subseteq.
      * apply fresh_insert_subseteq.
      * eexists. split; [done|]. right. eexists. split; [done|].
        apply fresh_block_None.
  - (* PRRTE_BYTE_OBJECT *)
    unfold release_owned in Hrel.
    destruct (get_bo (data dk)) as [[sz_old old]|] eqn:Hold; [|done]. simpl in Hrel.
    pose proof Ha as Ha0. unfold held_datum in Ha.
    destruct (get_bo (data src)) as [[size bytes]|] eqn:Hbo; [|done]. simpl in Ha.
    unfold prrte_value_xfer. rewrite Hkey, Hty. settle_tests.
    rewrite Hold. simpl. rewrite Hrel. simpl. rewrite Hbo. simpl.
    destruct (decide (bytes ≠ NULL ∧ 0 < size)) as [[Hnn Hpos]|Hempty].
    + case_decide as Hmax; [|done].
      destruct (load_bytes bytes size h1) as [bs|] eqn:Hl; [|done]. injection Ha as <-.
      pose proof (load_bytes_length _ _ _ _ Hl) as Hlen.
      rewrite (dup_bo_copy size bytes h1 bs) by (done || lia). simpl.
      eexists _, _. split; [done|]. split; [done|]. split; [done|].
      split; [|split; [|split]].
      * unfold held_datum. simpl.
        rewrite decide_True by (split; [done|lia]). rewrite decide_True by done.
        rewrite (load_bytes_block (fresh (dom h1)) 0 size bs)
          by (rewrite ?lookup_insert_eq; done || lia).
        simpl. rewrite drop_0, take_ge by lia. done.
      * apply (held_datum_weaken _ _ h1); [done|]. apply fresh_insert_subseteq.
      * apply fresh_insert_subseteq.
      * eexists. split; [done|]. right. eexists. split; [done|].
        apply fresh_block_None.
    + injection Ha as <-.
      assert (Hdup : dup_bo size bytes h1 = Some (0, NULL, h1)).
      { unfold dup_bo. by rewrite decide_False. }
      rewrite Hdup. simpl.
      eexists _, _. split; [done|]. split; [done|]. split; [done|].
      split; [|split; [done|split; [done|]]].
      * reflexivity.
      * exists NULL. split; [done|]. by left.
  - (* PRRTE_TIMEVAL *)
    pose proof Ha as Ha0. unfold held_datum in Ha.
    destruct (get_tv (data src)) as [[sec usec]|] eqn:Htv; [|done].
    injection Ha as <-.
    unfold prrte_value_xfer. rewrite Hkey, Hty. settle_tests. rewrite Htv. simpl.
    eexists _, _. split; [done|]. split; [done|]. split; [done|].
    split; [done|]. split; [done|]. done.
  - (* PRRTE_PTR *)
    pose proof Ha as Ha0. unfold held_datum in Ha.
    destruct (get_ptr (data src)) as [p|] eqn:Hp; [|done]. injection Ha as <-.
    unfold prrte_value_xfer. rewrite Hkey, Hty. settle_tests. rewrite Hp. simpl.
    eexists _, _. split; [done|]. split; [done|]. split; [done|].
    split; [done|]. split; [done|]. done.
Qed.

Lemma slot_ok_weaken (ty : prrte_data_type_t) (h h' : heap) (slot : ptr) :
  slot_ok ty h slot = true → h ⊆ h' → slot_ok ty h' slot = true.
Proof.
  intros Hs Hsub. unfold slot_ok in *.
  destruct ty; try done; simpl in *;
    apply bool_decide_eq_true in Hs; apply bool_decide_eq_true;
    destruct Hs as [bs Hbs]; exists bs; by apply (load_bytes_weaken _ _ h).
Qed.

(** The helper behind the theorems on the transfer: [dest] receives
    the datum that [src] holds. *)
Lemma xfer_held (dest src : prrte_value_t) (ty : prrte_data_type_t)
    (h h0 : heap) (a : datum) :
  type src = ty →
  supported ty = true →
  key src = NULL ∨ is_Some (read_cstring (key src) h) →
  release_owned ty dest h = Some h0 →
  held_datum ty h0 src = Some a →
  ∃ dest' h',
    prrte_value_xfer dest src h = Some (PRRTE_SUCCESS, dest', h') ∧
    type dest' = ty ∧
    held_datum ty h' dest' = Some a ∧
    held_datum ty h' src = Some a ∧
    key_copied dest src h dest' h' ∧
    h0 ⊆ h' ∧
    match ty with
    | PRRTE_STRING | PRRTE_BYTE_OBJECT =>
        ∃ q, owned_ptr ty dest' = Some q ∧
             (q = NULL ∨ ∃ B, q = Ptr B 0 ∧ h0 !! B = None)
    | PRRTE_PTR => get_ptr (data dest') = get_ptr (data src)
    | _ => True
    end.
Proof.
  intros Hty Hsup Hkey Hrel Ha.
  rewrite xfer_unfold.
  destruct (xfer_key_step dest src h Hkey)
    as (dk & hk & Hk & Hdata & Hsub & Hkc & Hfree).
  rewrite Hk. simpl.
  assert (Hrel1 : ∃ h1, release_owned ty dk hk = Some h1 ∧ h0 ⊆ h1 ∧
                        key_copied dest src h dk h1).
  { unfold release_owned in *. rewrite Hdata.
    destruct ty; try (injection Hrel as <-; by exists hk).
    - destruct (get_string (data dest)) as [old|]; [|done]. simpl in *.
      by apply Hfree.
    - destruct (get_bo (data dest)) as [[sz old]|]; [|done]. simpl in *.
      by apply Hfree. }
  destruct Hrel1 as (h1 & Hrel1 & Hsub1 & Hkc1).
  destruct (xfer_payload_held dk (set_key src NULL) ty hk h1 a)
    as (dest' & h' & Hrun & Htyd & Hkeyd & Hd & Hs & Hsub' & Hown);
    [done|done|done|done| |].
  { by apply (held_datum_weaken ty src h0). }
  exists dest', h'. split; [done|]. split; [done|]. split; [done|].
  split; [exact Hs|]. split; [|split; [by etrans|]].
  - apply (key_copied_weaken _ _ _ _ h1); [|done].
    unfold key_copied in *. by rewrite Hkeyd.
  - destruct ty; try done.
    + destruct Hown as (q & Hq & Hcase). exists q. split; [done|].
      destruct Hcase as [?|(B & ? & HB)]; [by left|].
      right. exists B. split; [done|].
      by apply (lookup_None_subseteq h0 h1).
    + destruct Hown as (q & Hq & Hcase). exists q. split; [done|].
      destruct Hcase as [?|(B & ? & HB)]; [by left|].
      right. exists B. split; [done|].
      by apply (lookup_None_subseteq h0 h1).
Qed.

(** X10.  Unload gives out what the value holds.  For a value of a
    supported kind that holds the datum [a], and a slot that unload
    accepts for the kind, unload succeeds and the pointer it leaves in
    the slot denotes [a]; the value still holds [a] afterwards.  Strings
    and byte objects come out as copies in storage that was not live,
    and nothing that was live is changed: a string is null or the start
    of a block that was not live; a byte object is a structure at the
    start of a block that was not live, and its bytes are null or the
    start of another block that was not live, so they are not the
    bytes of the value.  For the pointer kind the heap is untouched;
    for the fixed-width kinds the bytes are written to the storage of
    the caller. *)
Theorem value_unload_gives_held_datum
    (kv : prrte_value_t) (ty : prrte_data_type_t) (slot : ptr)
    (h : heap) (a : datum) :
  supported ty = true →
  type kv = ty →
  held_datum ty h kv = Some a →
  slot_ok ty h slot = true →
  ∃ y h2,
    prrte_value_unload kv (Some slot) ty h = Some (PRRTE_SUCCESS, Some y, h2) ∧
    read_datum ty h2 y = Some a ∧
    held_datum ty h2 kv = Some a ∧
    match ty with
    | PRRTE_STRING =>
        h ⊆ h2 ∧ (y = NULL ∨ ∃ B, y = Ptr B 0 ∧ h !! B = None)
    | PRRTE_BYTE_OBJECT =>
        h ⊆ h2 ∧
        ∃ B size q,
          y = Ptr B 0 ∧ h !! B = None ∧
          read_bo y h2 = Some (size, q) ∧
          (q = NULL ∨ ∃ B', q = Ptr B' 0 ∧ B' ≠ B ∧ h !! B' = None)
    | PRRTE_PTR => h2 = h
    | _ => y = slot
    end.
Proof. apply unload_held. Qed.

(** X11.  The transfer copies what the source holds.  [src] is of a
    supported kind and holds the datum [a]; its key is null or a
    string; [dest] owns the string or the bytes it may hold, so that
    they can be released.  Then the transfer succeeds, [dest] has the
    type of [src] and holds [a], and [src] still holds [a].  A string
    or the bytes of a byte object arrive as a copy of their own: the
    pointer [dest] gets is null or the start of a block that was not
    live once the old payload of [dest] was released, so it is not the
    block [src] points to.  For the pointer kind [dest] gets the very
    pointer of [src].  The key of [src], if it has one, is duplicated
    as well. *)
Theorem value_xfer_copies_datum
    (dest src : prrte_value_t) (ty : prrte_data_type_t)
    (h h0 : heap) (a : datum) :
  type src = ty →
  supported ty = true →
  key src = NULL ∨ is_Some (read_cstring (key src) h) →
  release_owned ty dest h = Some h0 →
  held_datum ty h0 src = Some a →
  ∃ dest' h',
    prrte_value_xfer dest src h = Some (PRRTE_SUCCESS, dest', h') ∧
    type dest' = ty ∧
    held_datum ty h' dest' = Some a ∧
    held_datum ty h' src = Some a ∧
    key_copied dest src h dest' h' ∧
    match ty with
    | PRRTE_STRING | PRRTE_BYTE_OBJECT =>
        ∃ q, owned_ptr ty dest' = Some q ∧
             (q = NULL ∨ ∃ B, q = Ptr B 0 ∧ h0 !! B = None)
    | PRRTE_PTR => get_ptr (data dest') = get_ptr (data src)
    | _ => True
    end.
Proof.
  intros Hty Hsup Hkey Hrel Ha.
  destruct (xfer_held dest src ty h h0 a Hty Hsup Hkey Hrel Ha)
    as (dest' & h' & ? & ? & ? & ? & ? & ? & ?).
  by exists dest', h'.
Qed.

(** X12.  Transfer, then unload of the copy.  Under the conditions of
    the transfer, and with a slot that unload accepts, both calls
    succeed and what comes out of [dest] is the datum that [src] holds:
    a value read through its copy is the value read directly. *)
Theorem value_xfer_then_unload
    (dest src : prrte_value_t) (ty : prrte_data_type_t) (slot : ptr)
    (h h0 : heap) (a : datum) :
  type src = ty →
  supported ty = true →
  key src = NULL ∨ is_Some (read_cstring (key src) h) →
  release_owned ty dest h = Some h0 →
  held_datum ty h0 src = Some a →
  slot_ok ty h0 slot = true →
  ∃ dest' h' y h2,
    prrte_value_xfer dest src h = Some (PRRTE_SUCCESS, dest', h') ∧
    prrte_value_unload dest' (Some slot) ty h' = Some (PRRTE_SUCCESS, Some y, h2) ∧
    read_datum ty h2 y = Some a ∧
    held_datum ty h2 src = Some a.
Proof.
  intros Hty Hsup Hkey Hrel Ha Hslot.
  destruct (xfer_held dest src ty h h0 a Hty Hsup Hkey Hrel Ha)
    as (dest' & h' & Hrun & Htyd & Hd & Hs & _ & Hsub & _).
  destruct (unload_held dest' ty slot h' a Hsup Htyd Hd)
    as (y & h2 & Hrun2 & Hy & _ & Hshape).
  { by apply (slot_ok_weaken ty h0). }
  exists dest', h', y, h2. split; [done|]. split; [done|]. split; [done|].
  destruct ty; try discriminate Hsup;
    try (by (unfold held_datum in *; simpl in *)).
  - apply (held_datum_weaken _ _ h'); [done|]. by destruct Hshape.
  - apply (held_datum_weaken _ _ h'); [done|]. by destruct Hshape.
Qed.

Lemma encode_le_zero (w : nat) : encode_le w 0 = replicate w x00.
Proof.
  induction w as [|w IH]; [done|].
  change (encode_le (S w) 0) with (byte_of_Z 0 :: encode_le w 0).
  by rewrite IH.
Qed.

(** X13.  What unload refuses, in the order of its tests.  A requested
    type other than the type of the value gives TYPE_MISMATCH, whatever
    the slot is; with the right type a null slot address gives
    BAD_PARAM, and so does a slot that holds null unless the kind is a
    string or a byte object; a tag that is none of the kinds unload
    knows gives NOT_SUPPORTED.  In all these cases neither the slot nor
    the heap changes. *)
Theorem value_unload_rejects (kv : prrte_value_t) (h : heap) :
  (∀ ty slot, ty ≠ type kv →
     prrte_value_unload kv slot ty h = Some (PRRTE_ERR_TYPE_MISMATCH, slot, h)) ∧
  prrte_value_unload kv None (type kv) h = Some (PRRTE_ERR_BAD_PARAM, None, h) ∧
  (type kv ≠ PRRTE_STRING → type kv ≠ PRRTE_BYTE_OBJECT →
     prrte_value_unload kv (Some NULL) (type kv) h
       = Some (PRRTE_ERR_BAD_PARAM, Some NULL, h)) ∧
  (∀ tag p, type kv = PRRTE_OTHER tag → p ≠ NULL →
     prrte_value_unload kv (Some p) (type kv) h
       = Some (PRRTE_ERR_NOT_SUPPORTED, Some p, h)).
Proof.
  split; [|split; [|split]].
  - intros ty slot Hne. unfold prrte_value_unload. by rewrite decide_True.
  - unfold prrte_value_unload. by rewrite decide_False by (intros ?; done).
  - intros Hs Hb. unfold prrte_value_unload.
    rewrite decide_False by (intros ?; done). by rewrite decide_True.
  - intros tag p Hty Hp. unfold prrte_value_unload.
    rewrite decide_False by (intros ?; done).
    rewrite decide_False by (intros (_ & _ & ?); done).
    by rewrite Hty.
Qed.

(** X14.  A null data argument is a request to zero the value, and the
    zero comes back out.  For every kind that is one integer-like
    member of the union, the vpid among them, load with null data
    succeeds without touching the heap, and unload of the loaded value
    into storage of the member's width writes that many zero bytes. *)
Theorem value_load_null_unloads_zero
    (kv : prrte_value_t) (ty : prrte_data_type_t) (f : member) (slot : ptr)
    (h : heap) :
  member_of ty = Some f →
  is_Some (load_bytes slot (Z.of_nat (width f)) h) →
  ∃ kv1 h2,
    prrte_value_load kv NULL ty h = Some (PRRTE_SUCCESS, kv1, h) ∧
    type kv1 = ty ∧ key kv1 = key kv ∧
    prrte_value_unload kv1 (Some slot) ty h = Some (PRRTE_SUCCESS, Some slot, h2) ∧
    load_bytes slot (Z.of_nat (width f)) h2 = Some (replicate (width f) x00).
Proof.
  intros Hf Hslot.
  assert (Hnn : slot ≠ NULL) by (intros ->; by destruct Hslot).
  destruct (unload_scalar_held f (set_data (set_type kv ty) Zeroed) slot h 0)
    as (h2 & Hrun & Hld); [done|done|].
  rewrite encode_le_zero in Hld.
  exists (set_data (set_type kv ty) Zeroed), h2.
  destruct ty; try discriminate Hf; injection Hf as <-;
    (split; [unfold prrte_value_load; by settle_tests|]);
    (split; [done|]); (split; [done|]);
    (split; [unfold prrte_value_unload; simpl; by settle_tests|done]).
Qed.

(** X15.  What load never touches.  Whatever its result, load stamps
    the requested type and leaves the key alone; and for every kind but
    strings and byte objects it leaves the heap alone: a string or the
    bytes that the value owned are not released when the value is
    loaded with another kind. *)
Theorem value_load_keeps_key_and_heap
    (kv kv1 : prrte_value_t) (x : ptr) (ty : prrte_data_type_t) (h h1 : heap)
    (st : prrte_status) :
  prrte_value_load kv x ty h = Some (st, kv1, h1) →
  type kv1 = ty ∧ key kv1 = key kv ∧
  (ty ≠ PRRTE_STRING → ty ≠ PRRTE_BYTE_OBJECT → h1 = h).
Proof.
  unfold prrte_value_load. intros H.
  destruct (decide (x = NULL ∧ ty ≠ PRRTE_STRING ∧ ty ≠ PRRTE_BYTE_OBJECT)).
  - by simplify_eq.
  - destruct ty; unfold load_scalar in H; break_steps H; by simplify_eq.
Qed.

(** X16.  A string loaded over a string does not leak.  The value owns
    a string in a live block.  A load of a string then succeeds
    whenever the data argument is null or still a string once the old
    one is released, and the number of live blocks is the same as
    before when a new string was copied in, and one less when the data
    argument is null. *)
Theorem value_load_string_replaces_owned
    (kv : prrte_value_t) (x : ptr) (B : block) (c : content) (h : heap) :
  get_string (data kv) = Some (Ptr B 0) →
  h !! B = Some c →
  x = NULL ∨ is_Some (read_cstring x (delete B h)) →
  ∃ kv1 h1,
    prrte_value_load kv x PRRTE_STRING h = Some (PRRTE_SUCCESS, kv1, h1) ∧
    (x = NULL → get_string (data kv1) = Some NULL ∧ h1 = delete B h ∧
                S (size h1) = size h) ∧
    (x ≠ NULL → size h1 = size h ∧
                ∃ B1 s, get_string (data kv1) = Some (Ptr B1 0) ∧
                        read_cstring x (delete B h) = Some s ∧
                        read_cstring (Ptr B1 0) h1 = Some s).
Proof.
  intros Hold HB Hx.
  assert (Hsize : S (size (delete B h)) = size h).
  { rewrite map_size_delete, HB. simpl.
    assert (size h ≠ 0%nat); [|lia].
    intros Hz. apply map_size_empty_inv in Hz. by rewrite Hz in HB. }
  unfold prrte_value_load. simpl. rewrite decide_False by (intros (_ & ? & _); done).
  rewrite Hold. simpl. unfold free_if_set. rewrite decide_False by done.
  rewrite (free_block B c) by done. simpl.
  destruct (decide (x = NULL)) as [->|Hnn].
  - rewrite decide_False by (intros ?; done).
    eexists _, _. split; [done|]. split; [done|]. done.
  - rewrite decide_True by done. destruct Hx as [?|[s Hs]]; [done|].
    destruct (strdup_spec _ _ _ Hs) as [Hdup Hread]. rewrite Hdup. simpl.
    eexists _, _. split; [done|]. split; [done|]. intros _. split.
    + rewrite map_size_insert_None by apply fresh_block_None. done.
    + by eexists _, s.
Qed.

(** The kinds that are one integer-like member [f] of the union. *)
Lemma fixed_kind_load (f : member) (ty : prrte_data_type_t)
    (kv : prrte_value_t) (x : ptr) (h : heap) (a : datum) :
  (∀ kv' p h', p ≠ NULL →
     prrte_value_load kv' p ty h' = load_scalar f (set_type kv' ty) p h') →
  (∀ p h', read_datum ty h' p =
           (load_bytes p (Z.of_nat (width f)) h' ≫= λ bs, Some (DFixed bs))) →
  (∀ kv' h', held_datum ty h' kv' =
             (get_scalar f (data kv') ≫= λ v, Some (DFixed (encode_le (width f) v)))) →
  read_datum ty h x = Some a →
  ∃ kv1,
    prrte_value_load kv x ty h = Some (PRRTE_SUCCESS, kv1, h) ∧
    type kv1 = ty ∧ key kv1 = key kv ∧
    held_datum ty h kv1 = Some a.
Proof.
  intros Hload Hdatum Hheld Hx. rewrite Hdatum in Hx.
  destruct (load_bytes x (Z.of_nat (width f)) h) as [bs|] eqn:Hbs; [|done].
  injection Hx as <-.
  destruct (read_int_encode (signed f) _ _ _ _ Hbs) as (v & Hv & Henc).
  exists (set_data (set_type kv ty) (Scalar f v)).
  rewrite Hload by (by intros ->). unfold load_scalar. rewrite Hv. simpl.
  split; [done|]. split; [done|]. split; [done|].
  rewrite Hheld. simpl. rewrite decide_True by done. simpl. by rewrite Henc.
Qed.

Local Ltac fixed_load f kv x h a :=
  let kv1 := fresh "kv" in
  match goal with
  | |- ∃ _ _, prrte_value_load _ _ ?ty _ = _ ∧ _ =>
      destruct (fixed_kind_load f ty kv x h a) as (kv1 & ? & ? & ? & ?)
  end;
  [ intros ? ? ? ?; unfold prrte_value_load; by settle_tests
  | reflexivity
  | reflexivity
  | done
  | exists kv1, h; done ].

(** X17.  After a load the value holds what the data argument denoted.
    For a supported kind, a data argument that denotes the datum [a]
    once the value has released the string or the bytes it owned:
    load succeeds, the value has the requested type and its old key,
    and it holds [a]; the data argument still denotes [a], and nothing
    that was live after the release has changed.  Strings and byte
    objects are copied: the pointer the value gets is null or the
    start of a block that was not live after the release, so it is not
    the storage of the caller.  For the pointer kind the value gets
    the data argument itself, and for every kind but strings and byte
    objects the heap is untouched. *)
Theorem value_load_holds_datum
    (kv : prrte_value_t) (ty : prrte_data_type_t) (x : ptr)
    (h h0 : heap) (a : datum) :
  supported ty = true →
  release_owned ty kv h = Some h0 →
  read_datum ty h0 x = Some a →
  ∃ kv1 h1,
    prrte_value_load kv x ty h = Some (PRRTE_SUCCESS, kv1, h1) ∧
    type kv1 = ty ∧ key kv1 = key kv ∧
    held_datum ty h1 kv1 = Some a ∧
    read_datum ty h1 x = Some a ∧
    h0 ⊆ h1 ∧
    match ty with
    | PRRTE_STRING | PRRTE_BYTE_OBJECT =>
        ∃ q, owned_ptr ty kv1 = Some q ∧
             (q = NULL ∨ ∃ B, q = Ptr B 0 ∧ h0 !! B = None)
    | PRRTE_PTR => get_ptr (data kv1) = Some x ∧ h1 = h
    | _ => h1 = h
    end.
Proof.
  intros Hsup Hrel Hx.
  destruct ty; try discriminate Hsup.
  all: try (simpl in Hrel; injection Hrel as <-).
  1: fixed_load data_flag kv x h a.
  1: fixed_load data_byte kv x h a.
  2: fixed_load data_size kv x h a.
  2: fixed_load data_pid kv x h a.
  2: fixed_load data_integer kv x h a.
  2: fixed_load data_int8 kv x h a.
  2: fixed_load data_int16 kv x h a.
  2: fixed_load data_int32 kv x h a.
  2: fixed_load data_int64 kv x h a.
  2: fixed_load data_uint kv x h a.
  2: fixed_load data_uint8 kv x h a.
  2: fixed_load data_uint16 kv x h a.
  2: fixed_load data_uint32 kv x h a.
  2: fixed_load data_uint64 kv x h a.
  3: fixed_load data_fval kv x h a.
  - (* PRRTE_STRING *)
    pose proof Hx as Hx0. unfold release_owned in Hrel. unfold read_datum in Hx.
    destruct (get_string (data kv)) as [old|] eqn:Hold; [|done]. simpl in Hrel.
    unfold prrte_value_load. simpl. rewrite Hold. simpl. rewrite Hrel. simpl.
    destruct (decide (x = NULL)) as [->|Hnn]; simpl in Hx.
    + injection Hx as <-. settle_tests.
      eexists _, h0. split; [done|]. split; [done|]. split; [done|].
      split; [done|]. split; [done|]. split; [done|].
      exists NULL. split; [done|]. by left.
    + destruct (read_cstring x h0) as [s|] eqn:Hs; [|done]. injection Hx as <-.
      settle_tests.
      destruct (strdup_spec _ _ _ Hs) as [Hdup Hread]. rewrite Hdup. simpl.
      eexists _, _. split; [done|]. split; [done|]. split; [done|].
      split; [|split; [|split]].
      * unfold held_datum. simpl. unfold read_datum. settle_tests. by rewrite Hread.
      * apply (read_datum_weaken _ _ h0); [done|]. apply fresh_insert_subseteq.
      * apply fresh_insert_subseteq.
      * eexists. split; [reflexivity|]. right. eexists. split; [done|].
        apply fresh_block_None.
  - (* PRRTE_BYTE_OBJECT *)
    pose proof Hx as Hx0. unfold release_owned in Hrel. unfold read_datum in Hx.
    destruct (get_bo (data kv)) as [[sz_old old]|] eqn:Hold; [|done]. simpl in Hrel.
    destruct (read_bo x h0) as [[size bytes]|] eqn:Hbo; [|done]. simpl in Hx.
    destruct (read_bo_live _ _ _ _ Hbo) as (Bx & -> & HBx).
    unfold prrte_value_load. simpl. rewrite Hold. simpl. rewrite Hrel. simpl.
    settle_tests. rewrite Hbo. simpl.
    destruct (decide (size = 0)) as [->|Hnz].
    + injection Hx as <-. rewrite dup_bo_empty. simpl.
      eexists _, h0. split; [done|]. split; [done|]. split; [done|].
      split; [reflexivity|]. split; [done|]. split; [done|].
      exists NULL. split; [done|]. by left.
    + case_decide as Hmax; [|done].
      destruct (load_bytes bytes size h0) as [bs|] eqn:Hl; [|done]. injection Hx as <-.
      pose proof (load_bytes_length _ _ _ _ Hl) as Hlen.
      rewrite (dup_bo_copy _ _ _ _ Hnz Hmax Hl). simpl.
      eexists _, _. split; [done|]. split; [done|]. split; [done|].
      split; [|split; [|split]].
      * unfold held_datum. simpl.
        rewrite decide_True by (split; [done|lia]). rewrite decide_True by done.
        rewrite (load_bytes_block (fresh (dom h0)) 0 size bs)
          by (rewrite ?lookup_insert_eq; done || lia).
        simpl. rewrite drop_0, take_ge by lia. done.
      * apply (read_datum_weaken _ _ h0); [done|]. apply fresh_insert_subseteq.
      * apply fresh_insert_subseteq.
      * eexists. split; [reflexivity|]. right. eexists. split; [done|].
        apply fresh_block_None.
  - (* PRRTE_TIMEVAL *)
    pose proof Hx as Hx0. unfold read_datum in Hx. simpl in Hx.
    destruct (load_bytes x 16 h) as [bs|] eqn:Hbs; [|done]. injection Hx as <-.
    destruct (load_bytes_split x 8 8 h bs) as [H1 H2]; [lia|lia|done|].
    destruct (read_int_encode true 8 _ _ _ H1) as (sec & Hsec & Hesec).
    destruct (read_int_encode true 8 _ _ _ H2) as (usec & Husec & Heusec).
    assert (x ≠ NULL) by (by intros ->).
    unfold prrte_value_load. settle_tests.
    rewrite Hsec. simpl. rewrite Husec. simpl.
    eexists _, h. split; [done|]. split; [done|]. split; [done|].
    split; [|done]. unfold held_datum. simpl. unfold timeval_bytes.
    by rewrite Hesec, Heusec, take_drop.
  - (* PRRTE_PTR *)
    pose proof Hx as Hx0. unfold read_datum in Hx. simpl in Hx. injection Hx as <-.
    unfold prrte_value_load.
    destruct (decide (x = NULL)) as [->|Hnn].
    + settle_tests. eexists _, h. split; [done|]. done.
    + settle_tests. eexists _, h. split; [done|]. done.
Qed.

End ValueHeld.

Section ValueScenarios.
Import Mem Status Value ValueView.

Lemma value_unload_gives_held_datum_witness :
  ∃ y h2,
    prrte_value_unload ValueExamples.blob_value (Some NULL) PRRTE_BYTE_OBJECT
      Examples.value_heap = Some (PRRTE_SUCCESS, Some y, h2) ∧
    read_datum PRRTE_BYTE_OBJECT h2 y = Some (DBlob [x69; x00]) ∧
    held_datum PRRTE_BYTE_OBJECT h2 ValueExamples.blob_value
      = Some (DBlob [x69; x00]) ∧
    Examples.value_heap ⊆ h2 ∧
    ∃ B size q,
      y = Ptr B 0 ∧ Examples.value_heap !! B = None ∧
      read_bo y h2 = Some (size, q) ∧
      (q = NULL ∨ ∃ B', q = Ptr B' 0 ∧ B' ≠ B ∧ Examples.value_heap !! B' = None).
Proof.
  apply (value_unload_gives_held_datum ValueExamples.blob_value PRRTE_BYTE_OBJECT
           NULL Examples.value_heap (DBlob [x69; x00])).
  - reflexivity.
  - reflexivity.
  - reflexivity.
  - reflexivity.
Defined.

Lemma value_xfer_copies_datum_witness :
  ∃ dest' h',
    prrte_value_xfer Examples.fresh_value ValueExamples.string_value
      Examples.value_heap = Some (PRRTE_SUCCESS, dest', h') ∧
    type dest' = PRRTE_STRING ∧
    held_datum PRRTE_STRING h' dest' = Some (DString (Some [x68; x69])) ∧
    held_datum PRRTE_STRING h' ValueExamples.string_value
      = Some (DString (Some [x68; x69])) ∧
    key_copied Examples.fresh_value ValueExamples.string_value
      Examples.value_heap dest' h' ∧
    ∃ q, owned_ptr PRRTE_STRING dest' = Some q ∧
         (q = NULL ∨ ∃ B, q = Ptr B 0 ∧ Examples.value_heap !! B = None).
Proof.
  apply (value_xfer_copies_datum Examples.fresh_value ValueExamples.string_value
           PRRTE_STRING Examples.value_heap Examples.value_heap
           (DString (Some [x68; x69]))).
  - reflexivity.
  - reflexivity.
  - right. vm_compute. eauto.
  - reflexivity.
  - reflexivity.
Defined.

Lemma value_xfer_then_unload_witness :
  ∃ dest' h' y h2,
    prrte_value_xfer Examples.fresh_value ValueExamples.string_value
      Examples.value_heap = Some (PRRTE_SUCCESS, dest', h') ∧
    prrte_value_unload dest' (Some NULL) PRRTE_STRING h'
      = Some (PRRTE_SUCCESS, Some y, h2) ∧
    read_datum PRRTE_STRING h2 y = Some (DString (Some [x68; x69])) ∧
    held_datum PRRTE_STRING h2 ValueExamples.string_value
      = Some (DString (Some [x68; x69])).
Proof.
  apply (value_xfer_then_unload Examples.fresh_value ValueExamples.string_value
           PRRTE_STRING NULL Examples.value_heap Examples.value_heap
           (DString (Some [x68; x69]))).
  - reflexivity.
  - reflexivity.
  - right. vm_compute. eauto.
  - reflexivity.
  - reflexivity.
  - reflexivity.
Defined.

Lemma value_unload_rejects_witness :
  prrte_value_unload Examples.int32_value (Some (Ptr 4 0)) PRRTE_INT64
    Examples.value_heap
    = Some (PRRTE_ERR_TYPE_MISMATCH, Some (Ptr 4 0), Examples.value_heap) ∧
  prrte_value_unload Examples.int32_value (Some NULL) PRRTE_INT32
    Examples.value_heap
    = Some (PRRTE_ERR_BAD_PARAM, Some NULL, Examples.value_heap).
Proof.
  destruct (value_unload_rejects Examples.int32_value Examples.value_heap)
    as (H1 & _ & H3 & _).
  split.
  - apply (H1 PRRTE_INT64 (Some (Ptr 4 0))). discriminate.
  - apply H3; discriminate.
Defined.

Lemma value_load_null_unloads_zero_witness :
  ∃ kv1 h2,
    prrte_value_load Examples.int32_value NULL PRRTE_VPID Examples.value_heap
      = Some (PRRTE_SUCCESS, kv1, Examples.value_heap) ∧
    type kv1 = PRRTE_VPID ∧ key kv1 = NULL ∧
    prrte_value_unload kv1 (Some (Ptr 1 0)) PRRTE_VPID Examples.value_heap
      = Some (PRRTE_SUCCESS, Some (Ptr 1 0), h2) ∧
    load_bytes (Ptr 1 0) 4 h2 = Some [x00; x00; x00; x00].
Proof.
  apply (value_load_null_unloads_zero Examples.int32_value PRRTE_VPID
           data_name_vpid (Ptr 1 0) Examples.value_heap).
  - reflexivity.
  - vm_compute. eauto.
Defined.

Lemma value_load_keeps_key_and_heap_witness :
  type (set_data (set_type ValueExamples.owner_value PRRTE_INT32)
          (Scalar data_int32 1090546024)) = PRRTE_INT32 ∧
  key (set_data (set_type ValueExamples.owner_value PRRTE_INT32)
         (Scalar data_int32 1090546024)) = key ValueExamples.owner_value ∧
  (PRRTE_INT32 ≠ PRRTE_STRING → PRRTE_INT32 ≠ PRRTE_BYTE_OBJECT →
   ValueExamples.owner_heap = ValueExamples.owner_heap).
Proof.
  apply (value_load_keeps_key_and_heap ValueExamples.owner_value
           (set_data (set_type ValueExamples.owner_value PRRTE_INT32)
              (Scalar data_int32 1090546024))
           (Ptr 2 0) PRRTE_INT32 ValueExamples.owner_heap ValueExamples.owner_heap
           PRRTE_SUCCESS).
  vm_compute. reflexivity.
Defined.

Lemma value_load_string_replaces_owned_witness :
  ∃ kv1 h1,
    prrte_value_load ValueExamples.owner_value (Ptr 2 0) PRRTE_STRING
      ValueExamples.owner_heap = Some (PRRTE_SUCCESS, kv1, h1) ∧
    (Ptr 2 0 = NULL → get_string (data kv1) = Some NULL ∧
                      h1 = delete 4%positive ValueExamples.owner_heap ∧
                      S (size h1) = size ValueExamples.owner_heap) ∧
    (Ptr 2 0 ≠ NULL → size h1 = size ValueExamples.owner_heap ∧
       ∃ B1 s, get_string (data kv1) = Some (Ptr B1 0) ∧
               read_cstring (Ptr 2 0) (delete 4%positive ValueExamples.owner_heap)
                 = Some s ∧
               read_cstring (Ptr B1 0) h1 = Some s).
Proof.
  apply (value_load_string_replaces_owned ValueExamples.owner_value (Ptr 2 0)
           4%positive (Bytes [x6f; x6c; x64; x00]) ValueExamples.owner_heap).
  - reflexivity.
  - reflexivity.
  - right. vm_compute. eauto.
Defined.

Lemma value_load_holds_datum_witness :
  ∃ kv1 h1,
    prrte_value_load Examples.fresh_value (Ptr 3 0) PRRTE_BYTE_OBJECT
      Examples.value_heap = Some (PRRTE_SUCCESS, kv1, h1) ∧
    type kv1 = PRRTE_BYTE_OBJECT ∧ key kv1 = NULL ∧
    held_datum PRRTE_BYTE_OBJECT h1 kv1 = Some (DBlob [x69; x00]) ∧
    read_datum PRRTE_BYTE_OBJECT h1 (Ptr 3 0) = Some (DBlob [x69; x00]) ∧
    Examples.value_heap ⊆ h1 ∧
    ∃ q, owned_ptr PRRTE_BYTE_OBJECT kv1 = Some q ∧
         (q = NULL ∨ ∃ B, q = Ptr B 0 ∧ Examples.value_heap !! B = None).
Proof.
  apply (value_load_holds_datum Examples.fresh_value PRRTE_BYTE_OBJECT (Ptr 3 0)
           Examples.value_heap Examples.value_heap (DBlob [x69; x00])).
  - reflexivity.
  - reflexivity.
  - reflexivity.
Defined.

End ValueScenarios.

(* ===================================================================== *)
(** ** The TM launcher: connecting, spawning, finalizing                  *)
(* ===================================================================== *)

Section PlmConnect.
Import PlmTm PlmView.
Context {TM : Type}.
Variable E : externals TM.

(** X18.  [plm_tm_connect] calls [tm_init] until it succeeds, ten
    times at most.  When the call of index [k] is the first to succeed,
    the result is success after exactly [k + 1] calls; when none of ten
    calls succeeds, the result is RESOURCE_BUSY after exactly ten.  The
    calls are all it does: jobs, the number of recorded handles and the
    connected flag are untouched (the flag is set by the caller). *)
Theorem plm_tm_connect_tries_ten_times (w : world TM) :
  let r := plm_tm_connect E w in
  jobs r.2 = jobs w ∧ launched r.2 = launched w ∧ connected r.2 = connected w ∧
  match first_init_success E 10 (tm w) with
  | Some k =>
      r.1 = PRTE_SUCCESS ∧ (k < 10)%nat ∧
      trace r.2 = trace w ++ replicate (S k) EvTmInit
  | None =>
      r.1 = PRTE_ERR_RESOURCE_BUSY ∧
      trace r.2 = trace w ++ replicate 10 EvTmInit
  end.
Proof.
  intros r. subst r. unfold plm_tm_connect.
  destruct (connect_attempts_spec E 10 w) as (? & ? & ? & ? & ?). done.
Qed.

End PlmConnect.

Section PlmLaunch.
Import PlmTm PlmView.
Context {TM : Type}.
Variable E : externals TM.

(** *** The handler as a whole *)

(** What follows the setup when it proceeds to the loop. *)
Lemma launch_daemons_after_setup (jdata d : jobid) (w w0 : world TM)
    (m : prte_job_map_t) (argv env : list string) (idx : nat) (o : outcome TM) :
  launch_setup E jdata w = Some (SetupProceed d m argv idx env w0) →
  launch_daemons E jdata w = Some o →
  ∃ l sp rest,
    spawn_loop E env idx (num_new_daemons m) (nodes m) argv w0 = Some l ∧
    trace (loop_world l) = trace w0 ++ sp ++ rest ∧
    sp `prefix_of` spawn_calls E env idx argv (launched w0) (eligible (nodes m)) ∧
    launched w0 ≤ launched (loop_world l) ≤ launched w0 + Z.of_nat (length sp) ∧
    jobs (loop_world l) = jobs w0 ∧ connected (loop_world l) = connected w0 ∧
    match l with
    | LoopDone _ w1 =>
        rest = [] ∧
        sp = spawn_calls E env idx argv (launched w0) (eligible (nodes m)) ∧
        length sp = length (eligible (nodes m)) ∧
        launched w1 = launched w0 + Z.of_nat (length sp) ∧
        ∃ jd dj,
          jobs w0 !! jdata = Some jd ∧
          <[jdata := set_state jd PRTE_JOB_STATE_DAEMONS_LAUNCHED]> (jobs w0) !! d
            = Some dj ∧
          o = Returned
                (with_jobs
                   (<[d := set_state dj PRTE_JOB_STATE_DAEMONS_LAUNCHED]>
                      (<[jdata := set_state jd PRTE_JOB_STATE_DAEMONS_LAUNCHED]>
                         (jobs w0))) w1)
    | LoopFail w1 =>
        (∃ a0 nm lid,
           rest = [EvShowHelp "help-plm-tm.txt" "tm-spawn-failed" a0 nm lid]) ∧
        o = Returned (PRTE_ACTIVATE_JOB_STATE (Some d)
                        PRTE_JOB_STATE_FAILED_TO_START w1)
    | LoopExit w1 =>
        rest = [EvOutput "plm:tm: unable to get daemon vpid as string" 0;
                EvExit (-1)] ∧
        o = Exited w1
    end.
Proof.
  intros Hsetup Hrun. unfold launch_daemons in Hrun. rewrite Hsetup in Hrun.
  simpl in Hrun.
  destruct (spawn_loop E env idx (num_new_daemons m) (nodes m) argv w0)
    as [l|] eqn:Hloop; [|done]. simpl in Hrun.
  destruct (spawn_loop_calls _ _ _ _ _ _ _ _ Hloop)
    as (Hj & Hc & Hm & sp & rest & Ht & Hpre & Hl & Hr).
  exists l, sp, rest. split; [done|]. split; [done|]. split; [done|].
  split; [done|]. split; [done|]. split; [done|].
  destruct l as [argv1 w1|w1|w1]; simpl in *.
  - destruct Hr as (-> & -> & Hlen & Hl1).
    split; [done|]. split; [done|]. split; [done|]. split; [done|].
    unfold assign_state in Hrun. rewrite Hj in Hrun.
    destruct (jobs w0 !! jdata) as [jd|] eqn:Hjd; [|done]. simpl in Hrun.
    destruct (<[jdata := set_state jd PRTE_JOB_STATE_DAEMONS_LAUNCHED]> (jobs w0) !! d)
      as [dj|] eqn:Hdj; [|done]. simpl in Hrun.
    injection Hrun as <-. exists jd, dj. split; [done|]. split; [done|].
    reflexivity.
  - split; [done|]. by injection Hrun as <-.
  - split; [done|]. by injection Hrun as <-.
Qed.

(** X19.  Which nodes get a daemon, and in which order.  Once the
    setup has been passed, the calls of [tm_spawn] that the handler
    makes, however it ends, are the calls for an initial segment of the
    nodes that need a daemon, in the order of the map: an empty entry
    of the map and a node that already has its daemon are never
    spawned, no node is spawned twice, and the handles of the k-th call
    go to the slot behind those already on record.  Before them the
    handler has only called [tm_init]; what follows them is not a
    spawn.  The counter of recorded handles grows by at most the number
    of calls. *)
Theorem launch_daemons_spawns_in_map_order (jdata d : jobid) (w w0 : world TM)
    (m : prte_job_map_t) (argv env : list string) (idx : nat) (o : outcome TM) :
  launch_setup E jdata w = Some (SetupProceed d m argv idx env w0) →
  launch_daemons E jdata w = Some o →
  ∃ inits sp rest,
    trace (outcome_world o) = trace w ++ inits ++ sp ++ rest ∧
    Forall (λ e, e = EvTmInit) inits ∧
    sp `prefix_of` spawn_calls E env idx argv (launched w) (eligible (nodes m)) ∧
    Forall (λ e, is_spawn e = false) rest ∧
    launched w ≤ launched (outcome_world o) ≤ launched w + Z.of_nat (length sp).
Proof.
  intros Hsetup Hrun.
  destruct (launch_setup_cases _ _ _ _ Hsetup)
    as (_ & Hl0 & _ & _ & _ & _ & _ & _ & _ & _ & Hconn).
  simpl in Hl0.
  assert (Hinits : ∃ inits, trace w0 = trace w ++ inits ∧
                            Forall (λ e, e = EvTmInit) inits).
  { destruct (connected w).
    - exists []. destruct Hconn as [-> _]. by rewrite app_nil_r.
    - destruct Hconn as (k & _ & ->). eexists. split; [done|].
      by apply Forall_replicate. }
  destruct Hinits as (inits & Hinits & Hall).
  destruct (launch_daemons_after_setup _ _ _ _ _ _ _ _ _ Hsetup Hrun)
    as (l & sp & rest & _ & Ht & Hpre & Hl & _ & _ & Hr).
  rewrite Hl0 in *. rewrite Hinits in Ht.
  destruct l as [argv1 w1|w1|w1]; simpl in *.
  - destruct Hr as (-> & _ & _ & _ & jd & dj & _ & _ & ->). simpl.
    exists inits, sp, []. rewrite Ht, <- !app_assoc. done.
  - destruct Hr as ((a0 & nm & lid & ->) & ->). simpl.
    exists inits, sp, [EvShowHelp "help-plm-tm.txt" "tm-spawn-failed" a0 nm lid;
                       EvActivate (Some d) PRTE_JOB_STATE_FAILED_TO_START].
    rewrite Ht, <- !app_assoc. simpl. repeat split; try done; try lia.
    by repeat constructor.
  - destruct Hr as (-> & ->). simpl.
    exists inits, sp, [EvOutput "plm:tm: unable to get daemon vpid as string" 0;
                       EvExit (-1)].
    rewrite Ht, <- !app_assoc. simpl. repeat split; try done; try lia.
    by repeat constructor.
Qed.

(** The helper behind the next two theorems: a launch in which nothing
    goes wrong.  The setup has been
    passed, every node that needs a daemon is spawnable, the argument
    vector has the index kept for the rank, and there is room for the
    handles.  Then the handler returns after exactly one call of
    [tm_spawn] for each node that needs a daemon, in the order of the
    map; the counter of recorded handles has grown by their number; the
    job and the daemon job are both in state DAEMONS_LAUNCHED, no other
    job has changed, and nothing has been activated. *)
Lemma launch_daemons_all_spawned (jdata d : jobid) (w w0 : world TM)
    (m : prte_job_map_t) (argv env : list string) (idx : nat) :
  launch_setup E jdata w = Some (SetupProceed d m argv idx env w0) →
  Forall (spawnable E env) (eligible (nodes m)) →
  (idx < length argv)%nat →
  0 ≤ launched w →
  launched w + Z.of_nat (length (eligible (nodes m))) ≤ num_new_daemons m →
  ∃ w',
    launch_daemons E jdata w = Some (Returned w') ∧
    trace w' = trace w0 ++
               spawn_calls E env idx argv (launched w) (eligible (nodes m)) ∧
    length (spawn_calls E env idx argv (launched w) (eligible (nodes m)))
      = length (eligible (nodes m)) ∧
    launched w' = launched w + Z.of_nat (length (eligible (nodes m))) ∧
    state <$> jobs w' !! jdata = Some PRTE_JOB_STATE_DAEMONS_LAUNCHED ∧
    state <$> jobs w' !! d = Some PRTE_JOB_STATE_DAEMONS_LAUNCHED ∧
    (∀ j, j ≠ jdata → j ≠ d → jobs w' !! j = jobs w0 !! j).
Proof.
  intros Hsetup Hall Hidx H0 Hcap.
  destruct (launch_setup_cases _ _ _ _ Hsetup)
    as (_ & Hl0 & _ & _ & Hj0 & (dj0 & Hdj0 & _) & _ & (jd0 & Hjd0 & _) & _).
  simpl in Hl0. rewrite <- Hl0 in *. rewrite <- Hj0 in *.
  destruct (spawn_loop_succeeds E env idx (num_new_daemons m) (nodes m) argv w0)
    as (argv1 & w1 & Hloop); try done.
  destruct (spawn_loop_calls _ _ _ _ _ _ _ _ Hloop)
    as (Hj & Hc & Hm & sp & rest & Ht & _ & _ & Hr).
  simpl in *. destruct Hr as (-> & -> & Hlen & Hl1).
  assert (Hd : ∃ dj, <[jdata := set_state jd0 PRTE_JOB_STATE_DAEMONS_LAUNCHED]>
                       (jobs w0) !! d = Some dj).
  { destruct (decide (jdata = d)) as [->|Hne].
    - rewrite lookup_insert_eq. by eexists.
    - rewrite lookup_insert_ne by done. by eexists. }
  destruct Hd as (dj & Hdj).
  eexists. split.
  - unfold launch_daemons. rewrite Hsetup. simpl. rewrite Hloop. simpl.
    rewrite (assign_state_spec jdata _ w1 jd0) by (by rewrite Hj). simpl.
    rewrite (assign_state_spec d _ _ dj) by (simpl; by rewrite Hj). simpl.
    reflexivity.
  - simpl. rewrite Hj. rewrite app_nil_r in Ht.
    split; [done|]. split; [done|]. split; [lia|].
    split; [|split].
    + destruct (decide (jdata = d)) as [->|Hne].
      * by rewrite lookup_insert_eq.
      * rewrite lookup_insert_ne by done. by rewrite lookup_insert_eq.
    + by rewrite lookup_insert_eq.
    + intros j ? ?. by rewrite !lookup_insert_ne.
Qed.

(** X20.  A launch in which nothing goes wrong.  The setup has been
    passed, every node that needs a daemon is spawnable, the argument
    vector has the index kept for the rank, and there is room for the
    handles.  Then the handler returns after exactly one call of
    [tm_spawn] for each node that needs a daemon, in the order of the
    map; the counter of recorded handles has grown by their number; the
    job and the daemon job are both in state DAEMONS_LAUNCHED, no other
    job has changed, and nothing has been activated. *)
Theorem launch_daemons_spawns_every_node (jdata d : jobid) (w w0 : world TM)
    (m : prte_job_map_t) (argv env : list string) (idx : nat) :
  launch_setup E jdata w = Some (SetupProceed d m argv idx env w0) →
  Forall (spawnable E env) (eligible (nodes m)) →
  (idx < length argv)%nat →
  0 ≤ launched w →
  launched w + Z.of_nat (length (eligible (nodes m))) ≤ num_new_daemons m →
  ∃ w',
    launch_daemons E jdata w = Some (Returned w') ∧
    trace w' = trace w0 ++
               spawn_calls E env idx argv (launched w) (eligible (nodes m)) ∧
    length (spawn_calls E env idx argv (launched w) (eligible (nodes m)))
      = length (eligible (nodes m)) ∧
    launched w' = launched w + Z.of_nat (length (eligible (nodes m))) ∧
    state <$> jobs w' !! jdata = Some PRTE_JOB_STATE_DAEMONS_LAUNCHED ∧
    state <$> jobs w' !! d = Some PRTE_JOB_STATE_DAEMONS_LAUNCHED ∧
    (∀ j, j ≠ jdata → j ≠ d → jobs w' !! j = jobs w0 !! j).
Proof. apply launch_daemons_all_spawned. Qed.

Lemma is_spawn_not_activate (l : list event) :
  Forall (λ e, is_spawn e = true) l → Forall (λ e, is_activate e = false) l.
Proof. intros H. eapply Forall_impl; [exact H|]. by intros []. Qed.

Lemma is_spawn_not_init (l : list event) :
  Forall (λ e, is_spawn e = true) l → Forall (λ e, is_init e = false) l.
Proof. intros H. eapply Forall_impl; [exact H|]. by intros []. Qed.

Lemma inits_not_activate (l : list event) :
  Forall (λ e, e = EvTmInit) l → Forall (λ e, is_activate e = false) l.
Proof. intros H. eapply Forall_impl; [exact H|]. by intros ? ->. Qed.

(** X21.  However [launch_daemons] ends, it ends in one of four ways.
    When it returns: with nothing to launch, it has set the job to
    DAEMONS_LAUNCHED and its only call is the activation of
    DAEMONS_REPORTED for the job; after a launch, the job and the
    daemon job are in state DAEMONS_LAUNCHED and nothing has been
    activated; in every other case the last thing it does is to
    activate FAILED_TO_START for the daemon job, the only activation it
    makes, and the jobs are as the setup of the virtual machine left
    them.  It can also end the process, with exit status -1 and no
    activation at all, when the rank of a daemon cannot be converted
    to a string. *)
Theorem launch_daemons_ends_in_one_of_four_ways
    (jdata : jobid) (w : world TM) (o : outcome TM) :
  launch_daemons E jdata w = Some o →
  let vm := prte_plm_base_setup_virtual_machine E jdata (jobs w) in
  ∃ evs,
    trace (outcome_world o) = trace w ++ evs ∧
    match o with
    | Returned w' =>
        (evs = [EvActivate (Some jdata) PRTE_JOB_STATE_DAEMONS_REPORTED] ∧
         state <$> jobs w' !! jdata = Some PRTE_JOB_STATE_DAEMONS_LAUNCHED ∧
         launched w' = launched w ∧ tm w' = tm w) ∨
        (Forall (λ e, is_activate e = false) evs ∧
         state <$> jobs w' !! jdata = Some PRTE_JOB_STATE_DAEMONS_LAUNCHED ∧
         ∃ d, my_job w = Some d ∧
              state <$> jobs w' !! d = Some PRTE_JOB_STATE_DAEMONS_LAUNCHED) ∨
        (∃ front,
           evs = front ++ [EvActivate (my_job w) PRTE_JOB_STATE_FAILED_TO_START] ∧
           Forall (λ e, is_activate e = false) front ∧
           jobs w' = vm.2)
    | Exited w' =>
        ∃ front,
          evs = front ++ [EvOutput "plm:tm: unable to get daemon vpid as string" 0;
                          EvExit (-1)] ∧
          Forall (λ e, is_activate e = false) front ∧
          jobs w' = vm.2
    end.
Proof.
  intros Hrun vm.
  destruct (launch_setup E jdata w) as [r|] eqn:Hsetup;
    [|unfold launch_daemons in Hrun; by rewrite Hsetup in Hrun].
  pose proof (launch_setup_cases _ _ _ _ Hsetup) as (Hmy & Hl0 & Hc).
  fold vm in Hc.
  destruct r as [w'|daemons w'|d m argv idx env w0]; simpl in *.
  - unfold launch_daemons in Hrun. rewrite Hsetup in Hrun. injection Hrun as <-.
    destruct Hc as (js & jd & _ & Hjd & Hjobs & Ht & _ & Htm).
    eexists. split; [exact Ht|]. left. split; [done|].
    rewrite Hjobs, lookup_insert_eq. done.
  - unfold launch_daemons in Hrun. rewrite Hsetup in Hrun. injection Hrun as <-.
    destruct Hc as (-> & Hjobs & Hcase). simpl.
    destruct Hcase as [(rc & Ht & _)|(_ & _ & _ & Ht)].
    + eexists. split; [by rewrite Ht, <- app_assoc|]. right. right.
      exists [EvErrorLog rc]. split; [done|]. split; [|done]. by repeat constructor.
    + eexists. split; [by rewrite Ht, <- app_assoc|]. right. right.
      exists (replicate 10 EvTmInit). split; [done|]. split; [|done].
      by repeat constructor.
  - destruct Hc as (Hme & _ & Hj0 & _ & _ & _ & _ & _ & Hconn).
    assert (Hinits : ∃ inits, trace w0 = trace w ++ inits ∧
                              Forall (λ e, e = EvTmInit) inits).
    { destruct (connected w).
      - exists []. destruct Hconn as [-> _]. by rewrite app_nil_r.
      - destruct Hconn as (k & _ & ->). eexists. split; [done|].
        first [by apply Forall_replicate
              |constructor; [done|by apply Forall_replicate]]. }
    destruct Hinits as (inits & Hinits & Hall).
    destruct (launch_daemons_after_setup _ _ _ _ _ _ _ _ _ Hsetup Hrun)
      as (l & sp & rest & _ & Ht & Hpre & _ & Hj & _ & Hr).
    rewrite Hinits in Ht.
    assert (Hsp : Forall (λ e, is_activate e = false) (inits ++ sp)).
    { apply Forall_app. split; [by apply inits_not_activate|].
      apply is_spawn_not_activate.
      apply (Forall_prefix _ _ _ Hpre), spawn_calls_are_spawns. }
    destruct l as [argv1 w1|w1|w1]; simpl in *.
    + destruct Hr as (-> & _ & _ & _ & jd & dj & Hjd & Hdj & ->). simpl.
      exists (inits ++ sp). split; [by rewrite Ht, app_nil_r, <- app_assoc|].
      right. left. split; [done|]. split.
      * destruct (decide (jdata = d)) as [->|Hne].
        -- by rewrite lookup_insert_eq.
        -- rewrite lookup_insert_ne by done. by rewrite lookup_insert_eq.
      * exists d. split; [done|]. by rewrite lookup_insert_eq.
    + destruct Hr as ((a0 & nm & lid & ->) & ->). simpl.
      eexists. split; [by rewrite Ht, <- !app_assoc|]. right. right.
      exists (inits ++ sp ++ [EvShowHelp "help-plm-tm.txt" "tm-spawn-failed" a0 nm lid]).
      rewrite Hme, <- !app_assoc. split; [done|]. split; [|congruence].
      rewrite app_assoc. apply Forall_app. split; [done|]. by repeat constructor.
    + destruct Hr as (-> & ->). simpl.
      eexists. split; [by rewrite Ht, <- !app_assoc|].
      exists (inits ++ sp). rewrite <- !app_assoc. split; [done|].
      split; [done|congruence].
Qed.

(** X22.  The handler connects at most once.  However it ends, the
    calls of [tm_init] it makes come in one block, before anything else
    it records.  When the process is connected already there is none,
    and it stays connected.  Otherwise there is none (the handler ended
    before it came to connect), or the attempts up to the first that
    succeeds, after which the process is connected, or ten failed
    attempts, after which it is not. *)
Theorem launch_daemons_connects_once
    (jdata : jobid) (w : world TM) (o : outcome TM) :
  launch_daemons E jdata w = Some o →
  ∃ inits post,
    trace (outcome_world o) = trace w ++ inits ++ post ∧
    Forall (λ e, is_init e = false) post ∧
    ((inits = [] ∧ connected (outcome_world o) = connected w) ∨
     (connected w = false ∧ connected (outcome_world o) = true ∧
      ∃ k, first_init_success E 10 (tm w) = Some k ∧
           inits = replicate (S k) EvTmInit) ∨
     (connected w = false ∧ connected (outcome_world o) = false ∧
      first_init_success E 10 (tm w) = None ∧
      inits = replicate 10 EvTmInit)).
Proof.
  intros Hrun.
  destruct (launch_setup E jdata w) as [r|] eqn:Hsetup;
    [|unfold launch_daemons in Hrun; by rewrite Hsetup in Hrun].
  pose proof (launch_setup_cases _ _ _ _ Hsetup) as (Hmy & Hl0 & Hc).
  destruct r as [w'|daemons w'|d m argv idx env w0]; simpl in *.
  - unfold launch_daemons in Hrun. rewrite Hsetup in Hrun. injection Hrun as <-.
    destruct Hc as (js & jd & _ & Hjd & Hjobs & Ht & Hconn & Htm).
    exists [], [EvActivate (Some jdata) PRTE_JOB_STATE_DAEMONS_REPORTED].
    split; [done|]. split; [by repeat constructor|]. by left.
  - unfold launch_daemons in Hrun. rewrite Hsetup in Hrun. injection Hrun as <-.
    destruct Hc as (-> & Hjobs & Hcase). simpl.
    destruct Hcase as [(rc & Ht & Hconn & _)|(Hcw & Hcw' & Hnone & Ht)].
    + exists [], [EvErrorLog rc;
                  EvActivate (my_job w) PRTE_JOB_STATE_FAILED_TO_START].
      split; [by rewrite Ht, <- app_assoc|].
      split; [by repeat constructor|]. by left.
    + exists (replicate 10 EvTmInit),
             [EvActivate (my_job w) PRTE_JOB_STATE_FAILED_TO_START].
      split; [by rewrite Ht, <- app_assoc|].
      split; [by repeat constructor|]. right. right. done.
  - destruct Hc as (Hme & _ & Hj0 & _ & _ & _ & _ & Hc0 & Hconn).
    destruct (launch_daemons_after_setup _ _ _ _ _ _ _ _ _ Hsetup Hrun)
      as (l & sp & rest & _ & Ht & Hpre & _ & _ & Hcl & Hr).
    assert (Hsp : Forall (λ e, is_init e = false) sp).
    { apply is_spawn_not_init.
      apply (Forall_prefix _ _ _ Hpre), spawn_calls_are_spawns. }
    assert (Hout : ∃ post, trace (outcome_world o) = trace w0 ++ post ∧
                           Forall (λ e, is_init e = false) post ∧
                           connected (outcome_world o) = true).
    { destruct l as [argv1 w1|w1|w1]; simpl in *.
      - destruct Hr as (-> & _ & _ & _ & jd & dj & _ & _ & ->). simpl.
        exists sp. rewrite app_nil_r in Ht. split; [done|]. split; [done|].
        congruence.
      - destruct Hr as ((a0 & nm & lid & ->) & ->). simpl.
        eexists. split; [by rewrite Ht, <- !app_assoc|]. split; [|congruence].
        apply Forall_app. split; [done|]. by repeat constructor.
      - destruct Hr as (-> & ->). simpl.
        eexists. split; [done|]. split; [|congruence].
        apply Forall_app. split; [done|]. by repeat constructor. }
    destruct Hout as (post & Hto & Hpost & Hco).
    destruct (connected w) eqn:Hcw.
    + destruct Hconn as [Ht0 _]. exists [], post. rewrite Hto, Ht0.
      split; [done|]. split; [done|]. left. by rewrite Hco.
    + destruct Hconn as (k & Hk & Ht0). exists (replicate (S k) EvTmInit), post.
      rewrite Hto, Ht0, <- app_assoc. split; [done|]. split; [done|].
      right. left. split; [done|]. split; [done|]. by exists k.
Qed.

(** What the polling loop leaves in the trace. *)
Lemma poll_spawns_trace (jdata : jobid) (w : world TM) :
  let N := Z.to_nat (launched w) in
  jobs (poll_spawns E jdata w) = jobs w ∧
  match first_failed_poll E N (tm w) with
  | None => trace (poll_spawns E jdata w) = trace w ++ replicate N EvTmPoll
  | Some k =>
      (k < N)%nat ∧
      ∃ msg code,
        trace (poll_spawns E jdata w) = trace w ++ replicate (S k) EvTmPoll ++
          [EvOutput msg code;
           EvActivate (Some jdata) PRTE_JOB_STATE_FAILED_TO_START]
  end.
Proof.
  intros N. unfold poll_spawns. fold N.
  destruct (poll_loop_spec E N w) as (Hj & Hl & Hspec).
  destruct (poll_loop E N w) as [failed w1]. cbn [fst snd] in *.
  destruct (first_failed_poll E N (tm w)) as [k|].
  - destruct Hspec as (-> & Hk & msg & code & Ht).
    cbn [PRTE_ACTIVATE_JOB_STATE log jobs trace].
    split; [done|]. split; [done|]. exists msg, code.
    by rewrite Ht, <- !app_assoc.
  - destruct Hspec as (-> & Ht). done.
Qed.

(** X23.  A launch, then the poll of its spawns.  After a launch in
    which nothing goes wrong, [poll_spawns] polls once for every handle
    on record: those of this launch and those that earlier launches
    left, for the counter is never reset.  When every poll confirms,
    the polls are all it adds to the calls of the launch; when the
    poll of index [k] is the first that does not confirm, it stops
    after [k + 1] polls, reports, and activates FAILED_TO_START for the
    job.  It changes no job. *)
Theorem launch_daemons_then_poll_spawns (jdata d : jobid) (w w0 : world TM)
    (m : prte_job_map_t) (argv env : list string) (idx : nat) :
  launch_setup E jdata w = Some (SetupProceed d m argv idx env w0) →
  Forall (spawnable E env) (eligible (nodes m)) →
  (idx < length argv)%nat →
  0 ≤ launched w →
  launched w + Z.of_nat (length (eligible (nodes m))) ≤ num_new_daemons m →
  ∃ w',
    launch_daemons E jdata w = Some (Returned w') ∧
    let N := (Z.to_nat (launched w) + length (eligible (nodes m)))%nat in
    let calls := spawn_calls E env idx argv (launched w) (eligible (nodes m)) in
    jobs (poll_spawns E jdata w') = jobs w' ∧
    match first_failed_poll E N (tm w') with
    | None =>
        trace (poll_spawns E jdata w') = trace w0 ++ calls ++ replicate N EvTmPoll
    | Some k =>
        (k < N)%nat ∧
        ∃ msg code,
          trace (poll_spawns E jdata w') =
            trace w0 ++ calls ++ replicate (S k) EvTmPoll ++
            [EvOutput msg code;
             EvActivate (Some jdata) PRTE_JOB_STATE_FAILED_TO_START]
    end.
Proof.
  intros Hsetup Hall Hidx H0 Hcap.
  destruct (launch_daemons_all_spawned jdata d w w0 m argv env idx)
    as (w' & Hrun & Ht & Hlen & Hl & _); try done.
  exists w'. split; [done|]. intros N calls.
  pose proof (poll_spawns_trace jdata w') as Hpoll. simpl in Hpoll.
  assert (HN : Z.to_nat (launched w') = N) by (subst N; lia).
  rewrite HN in Hpoll. destruct Hpoll as (Hj & Hpoll). split; [done|].
  destruct (first_failed_poll E N (tm w')) as [k|].
  - destruct Hpoll as (Hk & msg & code & Htp). split; [done|].
    exists msg, code. rewrite Htp, Ht, <- !app_assoc. done.
  - rewrite Hpoll, Ht, <- !app_assoc. done.
Qed.

(** The loop has no defined result when the first node that needs a
    daemon comes to its spawn and there is no slot for the handles. *)
Lemma spawn_loop_out_of_room (env : list string) (idx : nat) (num_new : Z)
    (items : list (option prte_node_t)) (argv : list string) (w : world TM)
    (node : prte_node_t) (rest : list prte_node_t) :
  eligible items = node :: rest →
  is_Some (spawn_call E env idx argv (launched w) node) →
  ¬ (0 ≤ launched w < num_new) →
  spawn_loop E env idx num_new items argv w = None.
Proof.
  intros Hel Hcall Hroom.
  induction items as [|[n|] items IH]; simpl in *; [done| |by apply IH].
  destruct (PRTE_FLAG_TEST _ _); [by apply IH|].
  injection Hel as -> _.
  unfold spawn_step. unfold spawn_call in Hcall.
  destruct (daemon_rank node) as [rank|]; [|done]. simpl in *.
  destruct (prte_util_convert_vpid_to_string E rank) as [vs|]; [|by destruct Hcall].
  simpl in *.
  destruct (prte_get_attribute _ _) as [l|]; [|by destruct Hcall].
  case_decide; [|done]. by rewrite decide_False.
Qed.

(** X24.  The room for the handles.  The handles of a spawn go to the
    element of index [launched] of two arrays that are allocated with
    [num_new_daemons] elements at every launch, and [launched] is never
    reset.  So when the setup has been passed, a node needs a daemon
    and has its rank string and launch id, and the handles on record
    from earlier launches are [num_new_daemons] or more, the first
    spawn would write outside the arrays: the handler has no defined
    behaviour. *)
Theorem launch_daemons_needs_room_for_handles (jdata d : jobid) (w w0 : world TM)
    (m : prte_job_map_t) (argv env : list string) (idx : nat)
    (node : prte_node_t) (rest : list prte_node_t) :
  launch_setup E jdata w = Some (SetupProceed d m argv idx env w0) →
  eligible (nodes m) = node :: rest →
  is_Some (spawn_call E env idx argv (launched w) node) →
  num_new_daemons m ≤ launched w →
  launch_daemons E jdata w = None.
Proof.
  intros Hsetup Hel Hcall Hroom.
  destruct (launch_setup_cases _ _ _ _ Hsetup) as (_ & Hl0 & _).
  simpl in Hl0. rewrite <- Hl0 in *.
  unfold launch_daemons. rewrite Hsetup. simpl.
  rewrite (spawn_loop_out_of_room env idx (num_new_daemons m) (nodes m) argv w0
             node rest); [done|done|done|lia].
Qed.

End PlmLaunch.

Section PlmFinalize.
Import PlmTm PlmView.
Context {TM : Type}.
Variable tm_finalize : TM → TM.

(** X25.  [plm_tm_finalize] always reports success, whatever the stop
    of the receives answers, and leaves the process disconnected.  The
    TM library is finalized only if the process was connected: a second
    call in a row does not touch the library, and changes nothing at
    all when the stop of the receives succeeds.  Jobs and the counter
    of recorded handles are not touched: the handles of earlier
    launches stay on record. *)
Theorem plm_tm_finalize_twice (rc1 rc2 : prte_status) (w : world TM) :
  let r1 := plm_tm_finalize tm_finalize rc1 w in
  let r2 := plm_tm_finalize tm_finalize rc2 r1.2 in
  r1.1 = PRTE_SUCCESS ∧ r2.1 = PRTE_SUCCESS ∧
  connected r1.2 = false ∧ connected r2.2 = false ∧
  tm r1.2 = (if connected w then tm_finalize (tm w) else tm w) ∧
  tm r2.2 = tm r1.2 ∧
  jobs r2.2 = jobs w ∧ launched r2.2 = launched w ∧
  trace r2.2 = trace w ++
    (if decide (rc1 ≠ PRTE_SUCCESS) then [EvErrorLog rc1] else []) ++
    (if decide (rc2 ≠ PRTE_SUCCESS) then [EvErrorLog rc2] else []) ∧
  (rc2 = PRTE_SUCCESS → r2.2 = r1.2).
Proof.
  intros r1 r2. subst r1 r2. unfold plm_tm_finalize.
  destruct (decide (rc1 ≠ PRTE_SUCCESS)), (decide (rc2 ≠ PRTE_SUCCESS)),
    (connected w) eqn:Hc; simpl; rewrite ?Hc; simpl; rewrite ?Hc; simpl;
    rewrite ?app_nil_r, <- ?app_assoc;
    repeat split; try done; intros; try done; by destruct w.
Qed.

End PlmFinalize.

Section LaunchScenarios.
Import PlmTm PlmView PlmExamples LaunchExamples.

Lemma launch_daemons_spawns_in_map_order_witness :
  ∃ inits sp rest,
    trace after_abort = trace start ++ inits ++ sp ++ rest ∧
    Forall (λ e, e = EvTmInit) inits ∧
    sp `prefix_of` spawn_calls backend ["PRTE_MCA_plm=rsh"] 2
                     ["prted"; "--rank"; "<template>"] 0
                     (eligible (nodes three_nodes)) ∧
    Forall (λ e, is_spawn e = false) rest ∧
    0 ≤ launched after_abort ≤ 0 + Z.of_nat (length sp).
Proof.
  apply (launch_daemons_spawns_in_map_order backend 2%positive 1%positive
           start after_setup three_nodes
           ["prted"; "--rank"; "<template>"] ["PRTE_MCA_plm=rsh"] 2%nat
           (Returned after_abort)).
  - reflexivity.
  - vm_compute. reflexivity.
Defined.

Lemma mixed_nodes_spawnable :
  Forall (spawnable backend ["PRTE_MCA_plm=rsh"]) (eligible (nodes mixed_nodes)).
Proof.
  apply Forall_cons. split.
  { exists 1, "1", 10. split; [reflexivity|]. split; [reflexivity|].
    split; [reflexivity|]. intros argv t. reflexivity. }
  apply Forall_cons. split.
  { exists 3, "3", 30. split; [reflexivity|]. split; [reflexivity|].
    split; [reflexivity|]. intros argv t. reflexivity. }
  apply Forall_nil_2.
Defined.

Lemma launch_daemons_spawns_every_node_witness :
  ∃ w',
    launch_daemons backend 2%positive start_mixed = Some (Returned w') ∧
    trace w' = [EvTmInit] ++
               spawn_calls backend ["PRTE_MCA_plm=rsh"] 2
                 ["prted"; "--rank"; "<template>"] 0 (eligible (nodes mixed_nodes)) ∧
    length (spawn_calls backend ["PRTE_MCA_plm=rsh"] 2
              ["prted"; "--rank"; "<template>"] 0 (eligible (nodes mixed_nodes)))
      = 2%nat ∧
    launched w' = 0 + 2 ∧
    state <$> jobs w' !! 2%positive = Some PRTE_JOB_STATE_DAEMONS_LAUNCHED ∧
    state <$> jobs w' !! 1%positive = Some PRTE_JOB_STATE_DAEMONS_LAUNCHED ∧
    (∀ j, j ≠ 2%positive → j ≠ 1%positive →
          jobs w' !! j = jobs after_setup_mixed !! j).
Proof.
  apply (launch_daemons_spawns_every_node backend 2%positive 1%positive
           start_mixed after_setup_mixed mixed_nodes
           ["prted"; "--rank"; "<template>"] ["PRTE_MCA_plm=rsh"] 2%nat).
  - reflexivity.
  - exact mixed_nodes_spawnable.
  - simpl. lia.
  - simpl. lia.
  - simpl. lia.
Defined.

Lemma launch_daemons_ends_in_one_of_four_ways_witness :
  ∃ evs,
    trace after_abort = trace start ++ evs ∧
    ((evs = [EvActivate (Some 2%positive) PRTE_JOB_STATE_DAEMONS_REPORTED] ∧
      state <$> jobs after_abort !! 2%positive
        = Some PRTE_JOB_STATE_DAEMONS_LAUNCHED ∧
      launched after_abort = launched start ∧ tm after_abort = tm start) ∨
     (Forall (λ e, is_activate e = false) evs ∧
      state <$> jobs after_abort !! 2%positive
        = Some PRTE_JOB_STATE_DAEMONS_LAUNCHED ∧
      ∃ d, my_job start = Some d ∧
           state <$> jobs after_abort !! d = Some PRTE_JOB_STATE_DAEMONS_LAUNCHED) ∨
     (∃ front,
        evs = front ++ [EvActivate (my_job start) PRTE_JOB_STATE_FAILED_TO_START] ∧
        Forall (λ e, is_activate e = false) front ∧
        jobs after_abort =
          (prte_plm_base_setup_virtual_machine backend 2%positive (jobs start)).2)).
Proof.
  apply (launch_daemons_ends_in_one_of_four_ways backend 2%positive start
           (Returned after_abort)).
  vm_compute. reflexivity.
Defined.

Lemma launch_daemons_connects_once_witness :
  ∃ inits post,
    trace after_abort = trace start ++ inits ++ post ∧
    Forall (λ e, is_init e = false) post ∧
    ((inits = [] ∧ connected after_abort = connected start) ∨
     (connected start = false ∧ connected after_abort = true ∧
      ∃ k, first_init_success backend 10 (tm start) = Some k ∧
           inits = replicate (S k) EvTmInit) ∨
     (connected start = false ∧ connected after_abort = false ∧
      first_init_success backend 10 (tm start) = None ∧
      inits = replicate 10 EvTmInit)).
Proof.
  apply (launch_daemons_connects_once backend 2%positive start
           (Returned after_abort)).
  vm_compute. reflexivity.
Defined.

Lemma launch_daemons_then_poll_spawns_witness :
  ∃ w',
    launch_daemons backend 2%positive start_mixed = Some (Returned w') ∧
    jobs (poll_spawns backend 2%positive w') = jobs w' ∧
    match first_failed_poll backend 2 (tm w') with
    | None =>
        trace (poll_spawns backend 2%positive w') =
          [EvTmInit] ++
          spawn_calls backend ["PRTE_MCA_plm=rsh"] 2
            ["prted"; "--rank"; "<template>"] 0 (eligible (nodes mixed_nodes)) ++
          replicate 2 EvTmPoll
    | Some k =>
        (k < 2)%nat ∧
        ∃ msg code,
          trace (poll_spawns backend 2%positive w') =
            [EvTmInit] ++
            spawn_calls backend ["PRTE_MCA_plm=rsh"] 2
              ["prted"; "--rank"; "<template>"] 0 (eligible (nodes mixed_nodes)) ++
            replicate (S k) EvTmPoll ++
            [EvOutput msg code;
             EvActivate (Some 2%positive) PRTE_JOB_STATE_FAILED_TO_START]
    end.
Proof.
  apply (launch_daemons_then_poll_spawns backend 2%positive 1%positive
           start_mixed after_setup_mixed mixed_nodes
           ["prted"; "--rank"; "<template>"] ["PRTE_MCA_plm=rsh"] 2%nat).
  - reflexivity.
  - exact mixed_nodes_spawnable.
  - simpl. lia.
  - simpl. lia.
  - simpl. lia.
Defined.

Lemma launch_daemons_needs_room_for_handles_witness :
  launch_daemons backend 2%positive start_crowded = None.
Proof.
  apply (launch_daemons_needs_room_for_handles backend 2%positive 1%positive
           start_crowded after_setup_crowded mixed_nodes
           ["prted"; "--rank"; "<template>"] ["PRTE_MCA_plm=rsh"] 2%nat
           (node "n1" 1 10) [node "n3" 3 30]).
  - reflexivity.
  - reflexivity.
  - vm_compute. eauto.
  - vm_compute. discriminate.
Defined.

End LaunchScenarios.

(* ===================================================================== *)
(** ** The discovery of the IPv6 interfaces                               *)
(* ===================================================================== *)

Section IfFacts.
Import PlmTm IfBsdxIpv6.

Variables AF_INET6 IFF_UP IFF_LOOPBACK IFF_POINTOPOINT : Z.
Variable PRTE_ENABLE_IPV6 : bool.
Variable prte_if_retain_loopback : bool.
Variable getifaddrs : list ifaddrs + Z.
Variable PMIX_NEW : nat → bool.
Variable pmix_string_copy : string → string.
Variable if_nametoindex : string → Z.
Variable sizeof_prte_if_t : Z.
Variable prte_output_get_verbosity : Z.
Variable inet_ntop : list byte → string.

Let scan' := scan AF_INET6 IFF_UP IFF_LOOPBACK IFF_POINTOPOINT
               prte_if_retain_loopback PMIX_NEW pmix_string_copy if_nametoindex
               sizeof_prte_if_t prte_output_get_verbosity inet_ntop.
Let open' := if_bsdx_ipv6_open AF_INET6 IFF_UP IFF_LOOPBACK IFF_POINTOPOINT
               PRTE_ENABLE_IPV6 prte_if_retain_loopback getifaddrs PMIX_NEW
               pmix_string_copy if_nametoindex sizeof_prte_if_t
               prte_output_get_verbosity inet_ntop.
Let usable' := usable AF_INET6 IFF_UP IFF_LOOPBACK IFF_POINTOPOINT
                 prte_if_retain_loopback.
Let wanted' := wanted AF_INET6 IFF_UP IFF_LOOPBACK IFF_POINTOPOINT
                 prte_if_retain_loopback.
Let interfaces_for' := interfaces_for AF_INET6 pmix_string_copy if_nametoindex.
Let new_interface' := new_interface AF_INET6 pmix_string_copy if_nametoindex.
Let announce' := announce prte_output_get_verbosity inet_ntop.
Let discovered' := discovered prte_output_get_verbosity inet_ntop.

(** *** The calls of the output routines *)

Lemma outputs_app (a b : list if_event) : outputs (a ++ b) = outputs a ++ outputs b.
Proof. apply filter_app. Qed.

Lemma outputs_verbose (msg : string) (args : list if_arg) (out : list if_event) :
  outputs (IfVerbose msg args :: out) = outputs out.
Proof. unfold outputs. by rewrite filter_cons_False. Qed.

Lemma outputs_output (msg : string) (args : list if_arg) (out : list if_event) :
  outputs (IfOutput msg args :: out) = IfOutput msg args :: outputs out.
Proof. unfold outputs. by rewrite filter_cons_True. Qed.

Lemma outputs_announce (cur : ifaddrs) (sa : sockaddr) :
  outputs (announce' cur sa) = announce' cur sa.
Proof.
  subst announce'. unfold announce. case_decide; [|done].
  by rewrite outputs_output.
Qed.

Lemma discovered_app (a b : list (ifaddrs * sockaddr)) :
  discovered' (a ++ b) = discovered' a ++ discovered' b.
Proof. apply bind_app. Qed.

Lemma discovered_cons (cur : ifaddrs) (sa : sockaddr) (l : list (ifaddrs * sockaddr)) :
  discovered' ((cur, sa) :: l) = announce' cur sa ++ discovered' l.
Proof. done. Qed.

Lemma after_Some (evs : list if_event) (r : option result)
    (st : prte_status) (l : list prte_if_t) (out : list if_event) :
  after evs r = Some (st, l, out) →
  ∃ out0, r = Some (st, l, out0) ∧ out = evs ++ out0.
Proof.
  destruct r as [[[st0 l0] out0]|]; [|done]. intros [= <- <- <-]. by exists out0.
Qed.

(** *** The loop *)

(** An element that is not wanted is passed over with a line of
    verbose output. *)
Lemma scan_skip (cur : ifaddrs) (sa : sockaddr) (next : list ifaddrs)
    (l : list prte_if_t) :
  ifa_addr cur = Some sa → usable' cur sa = false →
  ∃ msg args, scan' (cur :: next) l = after [IfVerbose msg args] (scan' next l).
Proof.
  subst scan' usable'. intros Hsa Hu. simpl. rewrite Hsa. simpl.
  unfold usable in Hu.
  destruct (decide (AF_INET6 ≠ sa_family sa)) as [Hf|Hf]; [by eauto|].
  rewrite (bool_decide_eq_true_2 (sa_family sa = AF_INET6)) in Hu by lia.
  destruct (decide (Z.land (ifa_flags cur) IFF_UP = 0)) as [Hup|Hup]; [by eauto|].
  rewrite (bool_decide_eq_true_2 (Z.land (ifa_flags cur) IFF_UP ≠ 0)) in Hu by lia.
  simpl in Hu.
  destruct (negb prte_if_retain_loopback &&
            bool_decide (Z.land (ifa_flags cur) IFF_LOOPBACK ≠ 0)) eqn:Hlo;
    [by eauto|].
  assert (Hlo' : prte_if_retain_loopback
                 || bool_decide (Z.land (ifa_flags cur) IFF_LOOPBACK = 0) = true).
  { destruct prte_if_retain_loopback; [done|]. simpl in *.
    apply bool_decide_eq_false in Hlo. apply bool_decide_eq_true. lia. }
  rewrite Hlo' in Hu. simpl in Hu.
  destruct (decide (Z.land (ifa_flags cur) IFF_POINTOPOINT ≠ 0)) as [Hp|Hp];
    [by eauto|].
  rewrite (bool_decide_eq_true_2 (Z.land (ifa_flags cur) IFF_POINTOPOINT = 0)) in Hu
    by lia.
  simpl in Hu. apply negb_false_iff in Hu. rewrite Hu. by eauto.
Qed.

(** An element that is wanted is announced, and appended unless the
    allocation is refused. *)
Lemma scan_keep (cur : ifaddrs) (sa : sockaddr) (next : list ifaddrs)
    (l : list prte_if_t) :
  ifa_addr cur = Some sa → usable' cur sa = true →
  scan' (cur :: next) l =
    if negb (PMIX_NEW (length l))
    then Some (PRTE_ERR_OUT_OF_RESOURCE, l,
               announce' cur sa ++
               [IfOutput "prte_ifinit: unable to allocate %lu bytes"
                         [ArgInt sizeof_prte_if_t]])
    else after (announce' cur sa)
           (scan' next (l ++ [new_interface' (length l) cur sa])).
Proof.
  subst scan' usable' announce' new_interface'. intros Hsa Hu. simpl.
  rewrite Hsa. simpl. unfold usable in Hu.
  apply andb_true_iff in Hu as [Hu Hll].
  apply andb_true_iff in Hu as [Hu Hp2p].
  apply andb_true_iff in Hu as [Hu Hlo].
  apply andb_true_iff in Hu as [Hfam Hup].
  apply bool_decide_eq_true in Hfam, Hup, Hp2p.
  apply negb_true_iff in Hll.
  rewrite decide_False by lia. rewrite decide_False by done.
  assert (negb prte_if_retain_loopback &&
          bool_decide (Z.land (ifa_flags cur) IFF_LOOPBACK ≠ 0) = false) as ->.
  { destruct prte_if_retain_loopback; [done|]. simpl in *.
    apply bool_decide_eq_true in Hlo. apply bool_decide_eq_false. lia. }
  rewrite decide_False by lia. by rewrite Hll.
Qed.

(** The loop appends the interfaces for the wanted elements, in their
    order, until the list ends or an allocation is refused; each wanted
    element it comes to is announced first, also the one for which the
    allocation is then refused. *)
Lemma scan_spec (cur : list ifaddrs) (l l' : list prte_if_t)
    (st : prte_status) (out : list if_event) :
  scan' cur l = Some (st, l', out) →
  (st = PRTE_SUCCESS ∧
   l' = l ++ interfaces_for' (length l) (wanted' cur) ∧
   outputs out = discovered' (wanted' cur)) ∨
  (st = PRTE_ERR_OUT_OF_RESOURCE ∧
   ∃ kept refused rest,
     wanted' cur = kept ++ refused :: rest ∧
     l' = l ++ interfaces_for' (length l) kept ∧
     PMIX_NEW (length l') = false ∧
     outputs out = discovered' (kept ++ [refused]) ++
                   [IfOutput "prte_ifinit: unable to allocate %lu bytes"
                             [ArgInt sizeof_prte_if_t]]).
Proof.
  revert l out. induction cur as [|cur next IH]; intros l out.
  - subst scan'. simpl. intros [= <- <- <-]. left. by rewrite app_nil_r.
  - destruct (ifa_addr cur) as [sa|] eqn:Hsa.
    2:{ subst scan'. simpl. by rewrite Hsa. }
    assert (Hw : wanted' (cur :: next) =
                 if usable' cur sa then (cur, sa) :: wanted' next else wanted' next).
    { subst wanted' usable'. simpl. by rewrite Hsa. }
    rewrite Hw. clear Hw.
    destruct (usable' cur sa) eqn:Hu.
    + rewrite (scan_keep _ _ _ _ Hsa Hu).
      assert (Hcons : ∀ kept,
                (l ++ [new_interface' (length l) cur sa]) ++
                interfaces_for' (length (l ++ [new_interface' (length l) cur sa])) kept
                = l ++ interfaces_for' (length l) ((cur, sa) :: kept)).
      { intros kept. by rewrite length_app, Nat.add_1_r, <- app_assoc. }
      destruct (PMIX_NEW (length l)) eqn:Hnew; cbn [negb].
      * intros (out0 & Hrest & ->)%after_Some.
        rewrite outputs_app, outputs_announce.
        destruct (IH _ _ Hrest)
          as [(Hst & Hl' & Ho)|(Hst & kept & refused & rest & Hk & Hl' & Hn & Ho)].
        -- left. split; [done|]. rewrite Hl', Hcons. split; [done|].
           by rewrite discovered_cons, Ho.
        -- right. split; [done|]. exists ((cur, sa) :: kept), refused, rest.
           rewrite Hk. split; [done|]. rewrite Hl', Hcons. split; [done|].
           split; [by rewrite <- Hcons, <- Hl'|].
           rewrite Ho. rewrite <- app_comm_cons, discovered_cons.
           by rewrite <- app_assoc.
      * intros [= <- <- <-]. right. split; [done|].
        exists [], (cur, sa), (wanted' next).
        split; [done|]. split; [by rewrite app_nil_r|]. split; [done|].
        rewrite outputs_app, outputs_announce, outputs_output.
        rewrite app_nil_l, discovered_cons.
        change (discovered' []) with (@nil if_event). by rewrite app_nil_r.
    + destruct (scan_skip _ _ next l Hsa Hu) as (msg & args & ->).
      intros (out0 & Hrest & ->)%after_Some. simpl. rewrite outputs_verbose.
      by apply IH.
Qed.

Lemma interfaces_for_lookup (n : nat) (kept : list (ifaddrs * sockaddr))
    (i : nat) (intf : prte_if_t) :
  interfaces_for' n kept !! i = Some intf →
  ∃ cur sa, kept !! i = Some (cur, sa) ∧ intf = new_interface' (n + i) cur sa.
Proof.
  subst interfaces_for' new_interface'.
  revert n i. induction kept as [|[cur sa] kept IH]; intros n i; simpl; [done|].
  destruct i as [|i]; simpl.
  - intros [= <-]. exists cur, sa. by rewrite Nat.add_0_r.
  - intros H. destruct (IH _ _ H) as (c & s & ? & ->). exists c, s.
    split; [done|]. f_equal. lia.
Qed.

Lemma wanted_usable (entries : list ifaddrs) (cur : ifaddrs) (sa : sockaddr) :
  (cur, sa) ∈ wanted' entries →
  cur ∈ entries ∧ ifa_addr cur = Some sa ∧ usable' cur sa = true.
Proof.
  subst wanted' usable'.
  induction entries as [|c entries IH]; simpl; [by intros ?%elem_of_nil|].
  destruct (ifa_addr c) as [s|] eqn:Hs.
  - destruct (usable _ _ _ _ _ c s) eqn:Hu.
    + intros [[= -> ->]|Hin]%elem_of_cons.
      * split; [by left|done].
      * destruct (IH Hin) as (? & ? & ?). split; [by right|done].
    + intros Hin. destruct (IH Hin) as (? & ? & ?). split; [by right|done].
  - intros Hin. destruct (IH Hin) as (? & ? & ?). split; [by right|done].
Qed.

(** The loop has a result when no element lacks its address. *)
Lemma scan_total (cur : list ifaddrs) (l : list prte_if_t) :
  Forall (λ c, is_Some (ifa_addr c)) cur → is_Some (scan' cur l).
Proof.
  revert l. induction cur as [|c cur IH]; intros l.
  - subst scan'. simpl. by eauto.
  - intros [[sa Hsa] Hall]%Forall_cons.
    assert (Hafter : ∀ evs l0, is_Some (after evs (scan' cur l0))).
    { intros evs l0. destruct (IH l0 Hall) as [[[st l1] out] ->]. by eexists. }
    destruct (usable' c sa) eqn:Hu.
    + rewrite (scan_keep _ _ _ _ Hsa Hu).
      destruct (PMIX_NEW (length l)); simpl; [apply Hafter|by eauto].
    + destruct (scan_skip _ _ cur l Hsa Hu) as (msg & args & ->). apply Hafter.
Qed.

(** *** The function *)

(** The helper behind the theorems on the discovery: every way the
    function ends. *)
Lemma open_cases (l l' : list prte_if_t) (st : prte_status) (out : list if_event) :
  open' l = Some (st, l', out) →
  (st = PRTE_SUCCESS ∧
   (PRTE_ENABLE_IPV6 = false ∧ l' = l ∧ out = [] ∨
    ∃ entries, PRTE_ENABLE_IPV6 = true ∧ getifaddrs = inl entries ∧
               l' = l ++ interfaces_for' (length l) (wanted' entries) ∧
               outputs out = discovered' (wanted' entries))) ∨
  (st = PRTE_ERROR ∧ l' = l ∧
   ∃ errno, getifaddrs = inr errno ∧
            outputs out =
              [IfOutput "prte_ifinit: getifaddrs() failed with error=%d"
                        [ArgInt errno]]) ∨
  (st = PRTE_ERR_OUT_OF_RESOURCE ∧
   ∃ entries kept refused rest,
     getifaddrs = inl entries ∧
     wanted' entries = kept ++ refused :: rest ∧
     l' = l ++ interfaces_for' (length l) kept ∧
     PMIX_NEW (length l') = false ∧
     outputs out = discovered' (kept ++ [refused]) ++
                   [IfOutput "prte_ifinit: unable to allocate %lu bytes"
                             [ArgInt sizeof_prte_if_t]]).
Proof.
  subst open'. unfold if_bsdx_ipv6_open.
  destruct PRTE_ENABLE_IPV6.
  - destruct getifaddrs as [entries|errno].
    + intros (out0 & H & ->)%after_Some. simpl. rewrite outputs_verbose.
      destruct (scan_spec _ _ _ _ _ H)
        as [(-> & -> & Ho)|(-> & kept & refused & rest & Hk & -> & Hn & Ho)].
      * left. split; [done|]. right. by exists entries.
      * right. right. split; [done|]. by exists entries, kept, refused, rest.
    + intros [= <- <- <-]. right. left. split; [done|]. split; [done|].
      exists errno. split; [done|]. by rewrite outputs_verbose, outputs_output.
  - intros [= <- <- <-]. left. split; [done|]. by left.
Qed.

(** X26.  What the discovery adds, and what it puts out.  The function
    has a result when no element of the list of [getifaddrs] lacks its
    address.  It ends in one of three ways.  With success: the
    interface list has grown by one interface for each element that is
    wanted (an IPv6 address that is not link-local, on a device that is
    up, not point-to-point, and not a loopback device unless these are
    retained), in the order of the elements, and the calls of
    [prte_output] are one line for each of them when the verbosity of
    the framework is positive, and none otherwise; without IPv6 support
    in the build the list is unchanged and no output routine is called.
    With PRTE_ERROR, when [getifaddrs] failed: the list is unchanged
    and the failure is put out with the value of [errno].  With
    OUT_OF_RESOURCE, when the allocation for a wanted element was
    refused: the interfaces for the wanted elements before that one
    have been appended, and they stay; that element was announced like
    those before it, and the last line put out is the complaint
    about the allocation. *)
Theorem if_open_appends_wanted (l : list prte_if_t) :
  (match getifaddrs with
   | inl entries => Forall (λ c, is_Some (ifa_addr c)) entries
   | inr _ => True
   end → is_Some (open' l)) ∧
  ∀ st l' out,
    open' l = Some (st, l', out) →
    (st = PRTE_SUCCESS ∧
     (PRTE_ENABLE_IPV6 = false ∧ l' = l ∧ out = [] ∨
      ∃ entries, PRTE_ENABLE_IPV6 = true ∧ getifaddrs = inl entries ∧
                 l' = l ++ interfaces_for' (length l) (wanted' entries) ∧
                 outputs out = discovered' (wanted' entries))) ∨
    (st = PRTE_ERROR ∧ l' = l ∧
     ∃ errno, getifaddrs = inr errno ∧
              outputs out =
                [IfOutput "prte_ifinit: getifaddrs() failed with error=%d"
                          [ArgInt errno]]) ∨
    (st = PRTE_ERR_OUT_OF_RESOURCE ∧
     ∃ entries kept refused rest,
       getifaddrs = inl entries ∧
       wanted' entries = kept ++ refused :: rest ∧
       l' = l ++ interfaces_for' (length l) kept ∧
       PMIX_NEW (length l') = false ∧
       outputs out = discovered' (kept ++ [refused]) ++
                     [IfOutput "prte_ifinit: unable to allocate %lu bytes"
                               [ArgInt sizeof_prte_if_t]]).
Proof.
  split; [|intros st l' out; apply open_cases].
  subst open'. unfold if_bsdx_ipv6_open.
  destruct PRTE_ENABLE_IPV6; [|by eauto].
  destruct getifaddrs as [entries|errno]; [|by eauto].
  intros Hall. destruct (scan_total entries l Hall) as [[[st l1] out] Hs].
  subst scan'. rewrite Hs. by eexists.
Qed.

(** What the function appends, in every case. *)
Lemma open_appended (l l' : list prte_if_t) (st : prte_status) (out : list if_event) :
  open' l = Some (st, l', out) →
  ∃ entries kept,
    kept `prefix_of` wanted' entries ∧
    l' = l ++ interfaces_for' (length l) kept.
Proof.
  intros H. destruct (open_cases _ _ _ _ H)
    as [(_ & [(_ & -> & _)|(entries & _ & _ & -> & _)])
       |[(_ & -> & _)|(_ & entries & kept & refused & rest & _ & Hk & -> & _)]].
  - exists [], []. split; [done|]. by rewrite app_nil_r.
  - by exists entries, (wanted' entries).
  - exists [], []. split; [done|]. by rewrite app_nil_r.
  - exists entries, kept. split; [|done]. rewrite Hk. by eexists.
Qed.

(** X27.  What the discovery never adds.  However the function ends,
    the interface list is the old list followed by new interfaces, and
    each new interface is an IPv6 interface with netmask 64 and scope
    id 0, its kernel index fits sixteen bits, its device is up and not
    point-to-point, it is not a loopback device unless these are
    retained, and its address is not link-local. *)
Theorem if_open_adds_only_usable (l l' : list prte_if_t) (st : prte_status)
    (out : list if_event) :
  open' l = Some (st, l', out) →
  ∃ added,
    l' = l ++ added ∧
    Forall (λ intf,
              af_family intf = AF_INET6 ∧
              sa_family (if_addr intf) = AF_INET6 ∧
              sin6_scope_id (if_addr intf) = 0 ∧
              if_mask intf = 64 ∧
              0 ≤ if_kernel_index intf < 2 ^ 16 ∧
              Z.land (if_flags intf) IFF_UP ≠ 0 ∧
              Z.land (if_flags intf) IFF_POINTOPOINT = 0 ∧
              (prte_if_retain_loopback = false →
               Z.land (if_flags intf) IFF_LOOPBACK = 0) ∧
              IN6_IS_ADDR_LINKLOCAL (sin6_addr (if_addr intf)) = false) added.
Proof.
  intros H. destruct (open_appended _ _ _ _ H) as (entries & kept & Hpre & ->).
  eexists. split; [done|].
  apply Forall_lookup. intros i intf Hi.
  destruct (interfaces_for_lookup _ _ _ _ Hi) as (cur & sa & Hk & ->).
  assert (Hin : (cur, sa) ∈ wanted' entries).
  { destruct Hpre as [rest ->]. apply elem_of_app. left.
    by apply (list_elem_of_lookup_2 _ i). }
  destruct (wanted_usable _ _ _ Hin) as (_ & _ & Hu).
  subst usable' new_interface'. unfold usable in Hu. simpl.
  apply andb_true_iff in Hu as [Hu Hll].
  apply andb_true_iff in Hu as [Hu Hp2p].
  apply andb_true_iff in Hu as [Hu Hlo].
  apply andb_true_iff in Hu as [Hfam Hup].
  apply bool_decide_eq_true in Hfam, Hup, Hp2p.
  apply negb_true_iff in Hll.
  repeat split; try done.
  - apply Z.mod_pos_bound. lia.
  - apply Z.mod_pos_bound. lia.
  - intros ->. simpl in Hlo. by apply bool_decide_eq_true in Hlo.
Qed.

(** X28.  The discovery keeps the numbering of the interface list.
    When the elements of the list are numbered 1, 2, ... in the order
    of the list, they still are after the call, however it ends: each
    new interface gets the number of its place.  The old elements are
    not touched. *)
Theorem if_open_keeps_numbering (l l' : list prte_if_t) (st : prte_status)
    (out : list if_event) :
  numbered l →
  open' l = Some (st, l', out) →
  numbered l' ∧ l `prefix_of` l'.
Proof.
  intros Hnum H. destruct (open_appended _ _ _ _ H) as (entries & kept & Hpre & ->).
  split; [|by eexists].
  intros i intf Hi. apply lookup_app_Some in Hi as [Hi|[Hge Hi]].
  - by apply Hnum.
  - destruct (interfaces_for_lookup _ _ _ _ Hi) as (cur & sa & Hk & ->).
    subst new_interface'. simpl. lia.
Qed.

End IfFacts.

Section IfScenarios.
Import PlmTm IfBsdxIpv6 IfExamples.

Lemma if_open_appends_wanted_witness :
  is_Some (host_open [first_interface]) ∧
  ((PRTE_SUCCESS = PRTE_SUCCESS ∧
    (true = false ∧ [first_interface; em0_global] = [first_interface] ∧
     host_output = [] ∨
     ∃ entries, true = true ∧ @inl _ Z host_addrs = inl entries ∧
                [first_interface; em0_global] =
                  [first_interface] ++
                  interfaces_for 28 (λ nm, nm) kernel_index 1
                    (wanted 28 0x1 0x8 0x10 false entries) ∧
                outputs host_output =
                  discovered 1 addr_text (wanted 28 0x1 0x8 0x10 false entries))) ∨
   (PRTE_SUCCESS = PRTE_ERROR ∧ [first_interface; em0_global] = [first_interface] ∧
    ∃ errno, @inl _ Z host_addrs = inr errno ∧
             outputs host_output =
               [IfOutput "prte_ifinit: getifaddrs() failed with error=%d"
                         [ArgInt errno]]) ∨
   (PRTE_SUCCESS = PRTE_ERR_OUT_OF_RESOURCE ∧
    ∃ entries kept refused rest,
      @inl _ Z host_addrs = inl entries ∧
      wanted 28 0x1 0x8 0x10 false entries = kept ++ refused :: rest ∧
      [first_interface; em0_global] =
        [first_interface] ++ interfaces_for 28 (λ nm, nm) kernel_index 1 kept ∧
      (λ _ : nat, true) (length [first_interface; em0_global]) = false ∧
      outputs host_output =
        discovered 1 addr_text (kept ++ [refused]) ++
        [IfOutput "prte_ifinit: unable to allocate %lu bytes" [ArgInt 96]])).
Proof.
  destruct (if_open_appends_wanted 28 0x1 0x8 0x10 true false (inl host_addrs)
              (λ _, true) (λ nm, nm) kernel_index 96 1 addr_text [first_interface])
    as [Htotal Hcases].
  split.
  - apply Htotal. repeat constructor; by eexists.
  - apply (Hcases PRTE_SUCCESS [first_interface; em0_global] host_output).
    vm_compute. reflexivity.
Defined.

Lemma if_open_adds_only_usable_witness :
  ∃ added,
    [first_interface; em0_global] = [first_interface] ++ added ∧
    Forall (λ intf,
              af_family intf = 28 ∧
              sa_family (if_addr intf) = 28 ∧
              sin6_scope_id (if_addr intf) = 0 ∧
              if_mask intf = 64 ∧
              0 ≤ if_kernel_index intf < 2 ^ 16 ∧
              Z.land (if_flags intf) 0x1 ≠ 0 ∧
              Z.land (if_flags intf) 0x10 = 0 ∧
              (false = false → Z.land (if_flags intf) 0x8 = 0) ∧
              IN6_IS_ADDR_LINKLOCAL (sin6_addr (if_addr intf)) = false) added.
Proof.
  apply (if_open_adds_only_usable 28 0x1 0x8 0x10 true false (inl host_addrs)
           (λ _, true) (λ nm, nm) kernel_index 96 1 addr_text
           [first_interface] [first_interface; em0_global] PRTE_SUCCESS host_output).
  vm_compute. reflexivity.
Defined.

Lemma first_interface_numbered : numbered [first_interface].
Proof. intros [|i] intf; [by intros [= <-]|done]. Defined.

Lemma if_open_keeps_numbering_witness :
  numbered [first_interface; em0_global] ∧
  [first_interface] `prefix_of` [first_interface; em0_global].
Proof.
  apply (if_open_keeps_numbering 28 0x1 0x8 0x10 true false (inl host_addrs)
           (λ _, true) (λ nm, nm) kernel_index 96 1 addr_text
           [first_interface] [first_interface; em0_global] PRTE_SUCCESS host_output).
  - exact first_interface_numbered.
  - vm_compute. reflexivity.
Defined.

(** The discovery on the example host at verbosity 1: one line of
    [prte_output] for the one interface that is appended. *)
Example host_open_output :
  host_open [first_interface] =
    Some (PRTE_SUCCESS, [first_interface; em0_global], host_output) ∧
  outputs host_output =
    [IfOutput "ipv6 capable interface %s discovered, address %s."
              [ArgStr "em0"; ArgStr "2001:db8::1"]].
Proof. split; reflexivity. Qed.

End IfScenarios.
